(** * talk2folder: ingestion and retrieval routing core

    A shallow embedding of the routing core of the talk2folder backend
    (chunker, path selector, vector-store manifest and search, drive
    downloader, folder ingestion and the RAG agent loop), and the theorems
    that relate it to its specification; each one names the claim (C1 to
    C10) that it settles.

    Conventions.
    - Python [int] is [Z]; [len] of a sequence is the [Z] image of its length.
    - A Python [str] used as text is a list of characters; dictionary keys
      and identifiers are [string].
    - A call that can raise returns [result]; [Raise] carries no payload
      because no handler in the modelled code inspects the exception.
    - A [while] loop is a fuel-indexed function returning [None] when the
      fuel runs out; a [for _ in range(n)] loop is structural on [n].
    - Calls into external services (Drive, Gemini, Chroma, the chat model)
      are oracles passed as arguments; every theorem quantifies over them. *)

From Stdlib Require Import ZArith List Ascii String Bool Lia QArith.
From stdpp Require Import base option list strings pretty gmap.

Set Warnings "-register-all".

Local Open Scope Z_scope.
Local Open Scope list_scope.

(** ** Python primitives *)

Module Py.

(** Outcome of a call that may raise. *)
Inductive result (A : Type) : Type :=
| Ok (a : A)
| Raise.
Arguments Ok {A} a.
Arguments Raise {A}.

Definition bind {A B : Type} (r : result A) (k : A -> result B) : result B :=
  match r with
  | Ok a => k a
  | Raise => Raise
  end.

(** Code that updates a state of type [S] and may raise: the state reached
    is kept when an exception is raised, as the effects of a call that
    fails half-way are. *)
Definition M (S A : Type) : Type := S -> S * result A.

Definition ret {S A : Type} (a : A) : M S A := fun s => (s, Ok a).

Definition raise {S A : Type} : M S A := fun s => (s, Raise).

Definition lift {S A : Type} (r : result A) : M S A := fun s => (s, r).

Definition bindM {S A B : Type} (m : M S A) (k : A -> M S B) : M S B :=
  fun s =>
    match m s with
    | (s', Ok a) => k a s'
    | (s', Raise) => (s', Raise)
    end.

(** [try: m except Exception: handler] *)
Definition try_except {S A : Type} (m : M S A) (handler : M S A) : M S A :=
  fun s =>
    match m s with
    | (s', Ok a) => (s', Ok a)
    | (s', Raise) => handler s'
    end.

(** Run a computation on one component of a larger state. *)
Definition on_snd {S T A : Type} (m : M T A) : M (S * T) A :=
  fun st =>
    match m (snd st) with
    | (t', r) => ((fst st, t'), r)
    end.

Definition modify {S : Type} (f : S -> S) : M S unit := fun s => (f s, Ok tt).

Notation "x <~ m ; k" := (bindM m (fun x => k))
  (at level 20, m at level 100, k at level 200, only parsing).

Abbreviation bytes := (list Byte.byte).

(** Truth value of a list: false exactly for the empty list. *)
Definition truthy_list {A : Type} (l : list A) : bool :=
  match l with
  | [] => false
  | _ :: _ => true
  end.

(** [len(x)] as a Python integer. *)
Definition len {A : Type} (l : list A) : Z := Z.of_nat (length l).

(** Normalisation of one bound of a slice [l[start:stop]] for a sequence of
    length [n]: a negative bound counts from the end, and every bound is
    clamped to [0..n]. *)
Definition slice_index (n i : Z) : Z :=
  if i <? 0 then Z.max (i + n) 0 else Z.min i n.

(** [l[start:stop]] with both bounds given. *)
Definition slice {A : Type} (l : list A) (start stop : Z) : list A :=
  let a := slice_index (len l) start in
  let b := slice_index (len l) stop in
  take (Z.to_nat (b - a)) (drop (Z.to_nat a) l).

End Py.

(** ** Chunker: [app/services/ingestion.py] *)

Module Chunker.
Import Py.

Definition CHUNK_SIZE : Z := 1000.
Definition CHUNK_OVERLAP : Z := 200.

Section Loop.
Context {A : Type}.

(** The [while start < len(text)] loop of [chunk_text]; [chunks] is the list
    built so far. [None] means that [fuel] iterations were not enough. *)
Fixpoint chunk_loop (fuel : nat) (text : list A) (chunk_size overlap : Z)
    (start : Z) (chunks : list (list A)) : option (list (list A)) :=
  match fuel with
  | O => None
  | S fuel' =>
      if start <? len text then
        let end_ := start + chunk_size in
        let chunk := slice text start end_ in
        chunk_loop fuel' text chunk_size overlap (end_ - overlap) (chunks ++ [chunk])
      else Some chunks
  end.

(** [chunk_text(text, chunk_size, overlap)]. *)
Definition chunk_text (fuel : nat) (text : list A) (chunk_size overlap : Z)
    : option (list (list A)) :=
  if len text <=? chunk_size then Some [text]
  else chunk_loop fuel text chunk_size overlap 0 [].

(** The reading of the chunks that the specification calls concatenation
    with the overlap removed: the first chunk whole, then every later chunk
    without its first [overlap] characters. *)
Definition join_without_overlap (overlap : Z) (chunks : list (list A)) : list A :=
  match chunks with
  | [] => []
  | c :: cs => c ++ concat (map (drop (Z.to_nat overlap)) cs)
  end.

(** The windows produced from offset [start] on: one every [step]
    characters, [n] of them. *)
Definition windows (text : list A) (chunk_size step start : Z) (n : nat)
    : list (list A) :=
  map (fun j : nat => slice text (start + Z.of_nat j * step)
                        (start + Z.of_nat j * step + chunk_size)) (seq 0 n).

End Loop.

(** Ceiling of [a / b] for a positive divisor. *)
Definition ceil_div (a b : Z) : Z := (a + b - 1) / b.

(** Text literals for the examples. *)
Definition text_of (s : string) : list ascii := list_ascii_of_string s.

End Chunker.

(** ** JSON-shaped Python values *)

Module Json.
Import Py.

(** The Python values that travel through JSON: [None], booleans, integers,
    strings, lists and dictionaries with string keys (in insertion order).
    Floats do not occur in the modelled data and are left out. *)
Inductive json : Type :=
| JNull
| JBool (b : bool)
| JInt (z : Z)
| JStr (s : string)
| JList (l : list json)
| JObj (kvs : list (string * json)).

(** [d.get(key)] on the items of a dictionary. *)
Fixpoint assoc (key : string) (kvs : list (string * json)) : option json :=
  match kvs with
  | [] => None
  | (k, v) :: kvs' => if String.eqb k key then Some v else assoc key kvs'
  end.

(** [json.dumps] and [json.loads]. They belong to the Python standard
    library, so the modelled functions take them as a parameter. *)
Record codec : Type := Codec {
  json_dumps : json -> string;
  json_loads : string -> result json;
}.

End Json.

(** ** File descriptors *)

Module Drive.
Import Py Json.

(** A file dictionary as produced by the Drive listing. A key that the code
    reads with [.get] may be absent. The Drive API sends [size] as a decimal
    string; [ingest_single_file] stores an [int]. *)
Record file : Type := File {
  file_id : string;
  file_name : string;
  file_path : option string;
  file_mimeType : string;
  file_size : option json;
}.

End Drive.

(** ** [int(str)] *)

Module PyInt.
Import Py.

Definition is_space (c : ascii) : bool :=
  let n := nat_of_ascii c in
  ((9 <=? n) && (n <=? 13) || (28 <=? n) && (n <=? 32))%nat.

Definition is_digit (c : ascii) : bool :=
  let n := nat_of_ascii c in ((48 <=? n) && (n <=? 57))%nat.

Definition digit_value (c : ascii) : Z := Z.of_nat (nat_of_ascii c) - 48.

Fixpoint lstrip (l : list ascii) : list ascii :=
  match l with
  | c :: l' => if is_space c then lstrip l' else l
  | [] => []
  end.

Definition strip (l : list ascii) : list ascii :=
  rev (lstrip (rev (lstrip l))).

(** Decimal digits, with single underscores allowed between two digits.
    [after_digit] tells whether the previous character was a digit. *)
Fixpoint digits (acc : Z) (after_digit : bool) (l : list ascii) : result Z :=
  match l with
  | [] => if after_digit then Ok acc else Raise
  | c :: l' =>
      if is_digit c then digits (10 * acc + digit_value c) true l'
      else if Ascii.eqb c "_" then
        if after_digit then digits acc false l' else Raise
      else Raise
  end.

(** [int(s)] for a string [s], base ten: surrounding whitespace, an
    optional sign, digits. [Raise] is [ValueError]. *)
Definition int_of_str (s : string) : result Z :=
  match strip (list_ascii_of_string s) with
  | "+"%char :: l => digits 0 false l
  | "-"%char :: l => bind (digits 0 false l) (fun n => Ok (- n))
  | l => digits 0 false l
  end.

(** [int(v)]; [Raise] is [ValueError] or [TypeError]. *)
Definition int (v : Json.json) : result Z :=
  match v with
  | Json.JInt z => Ok z
  | Json.JBool b => Ok (if b then 1 else 0)
  | Json.JStr s => int_of_str s
  | Json.JNull | Json.JList _ | Json.JObj _ => Raise
  end.

End PyInt.

(** ** Path selector: [app/services/gemini_service.py] *)

Module Gemini.
Import Py Json Drive.

Definition MAX_FILE_SIZE_BYTES : Z := 10 * 1024 * 1024.
Definition MAX_TOTAL_SIZE_BYTES : Z := 100 * 1024 * 1024.
Definition MAX_FILES_FOR_FAST_PATH : Z := 50.

(** [sum(xs)] *)
Definition sum (xs : list Z) : Z := fold_left Z.add xs 0.

Definition _get_file_size (f : file) : Z :=
  let size := default (JInt 0) (file_size f) in
  match size with
  | JNull => 0
  | _ => match PyInt.int size with
         | Ok n => n
         | Raise => 0
         end
  end.

(** The [for f in files] loop of [should_use_fast_path] with its early
    [return False]; the result is the value the function returns if the
    loop is reached. *)
Fixpoint no_file_too_large (files : list file) : bool :=
  match files with
  | [] => true
  | f :: files' =>
      if _get_file_size f >? MAX_FILE_SIZE_BYTES then false
      else no_file_too_large files'
  end.

Definition should_use_fast_path (files : list file) : bool :=
  if len files >? MAX_FILES_FOR_FAST_PATH then false
  else
    let total_size := sum (map _get_file_size files) in
    if total_size >? MAX_TOTAL_SIZE_BYTES then false
    else no_file_too_large files.

(** The dictionary that [upload_with_semaphore] returns for one file;
    [gemini_uri] is [None] when the upload failed. *)
Record uploaded : Type := Uploaded {
  up_id : string;
  up_name : string;
  up_path : string;
  up_mime_type : string;
  up_gemini_uri : option string;
}.

(** One task of [upload_files_to_gemini]. [upload] stands for what happens
    to one file between the mapping of its mime type and the end of the
    retried [upload_file_to_gemini]: the conversion of office formats to
    text never raises, so the task fails exactly when the upload does. *)
Definition upload_with_semaphore (upload : file -> bytes -> result string)
    (file_meta : file) (content : bytes) : uploaded :=
  let gemini_uri :=
    match upload file_meta content with
    | Ok uri => Some uri
    | Raise => None
    end in
  Uploaded (file_id file_meta) (file_name file_meta)
    (default (file_name file_meta) (file_path file_meta))
    (file_mimeType file_meta) gemini_uri.

(** [upload_files_to_gemini]: files without content are skipped, the
    results come back in task order. *)
Fixpoint upload_files_to_gemini (upload : file -> bytes -> result string)
    (files_with_content : list (file * option bytes)) : list uploaded :=
  match files_with_content with
  | [] => []
  | (file_meta, None) :: rest => upload_files_to_gemini upload rest
  | (file_meta, Some content) :: rest =>
      upload_with_semaphore upload file_meta content
      :: upload_files_to_gemini upload rest
  end.


(** Example descriptors. *)
Definition sized (name : string) (size : option json) : file :=
  File name name (Some name) "application/pdf" size.

Definition boundary_folder : list file :=
  sized "big.pdf" (Some (JStr "10485760")) ::
  replicate 49 (sized "small.pdf" (Some (JStr "1024"))).

End Gemini.

(** ** Chroma, as far as the code relies on it *)

Module Chroma.
Import Py.

(** Metadata values are strings or integers. *)
Inductive meta_value : Type :=
| MStr (s : string)
| MInt (z : Z).

#[global] Instance meta_value_eq_dec : EqDecision meta_value.
Proof. solve_decision. Defined.

Abbreviation metadata := (gmap string meta_value).

(** A stored record; embeddings are internal to Chroma and not modelled. *)
Record record : Type := Record_ {
  rec_document : string;
  rec_metadata : metadata;
}.

(** A collection maps record ids to records; the client maps collection
    names to collections. *)
Abbreviation collection := (gmap string record).
Abbreviation client := (gmap string (gmap string record)).

(** The [where] argument of a query, for the shapes the code builds. *)
Inductive where_clause : Type :=
| WNe (key value : string)
| WEq (key value : string)
| WAnd (clauses : list where_clause).

(** What [collection.query] returns for one query text: parallel lists,
    one inner list per query text. A record stored without metadata comes
    back with [None] metadata. Distances are floats that the code only
    copies; a rational stands for the number. *)
Record query_result : Type := QueryResult {
  qr_documents : option (list (list string));
  qr_metadatas : option (list (list (option metadata)));
  qr_distances : option (list (list Q));
}.

(** Calls that may fail for reasons outside the stored data. *)
Inductive op : Type :=
| OpGetOrCreate
| OpUpsert
| OpGet
| OpDelete.

(** The part of the server's behaviour that the stored data does not
    determine: which kinds of call return normally, and what a similarity
    query answers (its ranking, and whether it raises, for instance on a
    filter it cannot evaluate). *)
Record server : Type := Server {
  healthy : op -> bool;
  query : collection -> string -> Z -> option where_clause -> result query_result;
}.

(** [client.get_or_create_collection(name)]; the collection is referred to
    by its name. *)
Definition get_or_create_collection (srv : server) (name : string)
    : M client string :=
  fun cl =>
    if healthy srv OpGetOrCreate then
      (match cl !! name with
       | Some _ => cl
       | None => <[name := ∅]> cl
       end, Ok name)
    else (cl, Raise).

Fixpoint upsert_records (coll : collection)
    (documents : list string) (metadatas : list metadata) (ids : list string)
    : collection :=
  match documents, metadatas, ids with
  | d :: documents', m :: metadatas', i :: ids' =>
      upsert_records (<[i := Record_ d m]> coll) documents' metadatas' ids'
  | _, _, _ => coll
  end.

(** [collection.upsert(documents, metadatas, ids)]; lists of different
    lengths are rejected. *)
Definition upsert (srv : server) (name : string)
    (documents : list string) (metadatas : list metadata) (ids : list string)
    : M client unit :=
  fun cl =>
    if healthy srv OpUpsert
       && (length documents =? length ids)%nat
       && (length metadatas =? length ids)%nat
    then (<[name := upsert_records (default ∅ (cl !! name)) documents metadatas ids]> cl,
          Ok tt)
    else (cl, Raise).

(** [collection.get(ids=[id], include=["metadatas"])["metadatas"]]: the
    metadata of the records found. *)
Definition get_metadatas (srv : server) (name id : string)
    : M client (list metadata) :=
  fun cl =>
    if healthy srv OpGet then
      (cl, Ok (match default ∅ (cl !! name) !! id with
               | Some r => [rec_metadata r]
               | None => []
               end))
    else (cl, Raise).

(** [collection.query(query_texts=[text], n_results=n, where=w)] *)
Definition run_query (srv : server) (name : string) (query_text : string)
    (n_results : Z) (where_filter : option where_clause) : M client query_result :=
  fun cl =>
    (cl, query srv (default ∅ (cl !! name)) query_text n_results where_filter).

(** [client.delete_collection(name)]; deleting a missing collection
    raises. *)
Definition delete_collection (srv : server) (name : string) : M client unit :=
  fun cl =>
    if healthy srv OpDelete then
      match cl !! name with
      | Some _ => (delete name cl, Ok tt)
      | None => (cl, Raise)
      end
    else (cl, Raise).

End Chroma.

(** ** Vector store: [app/services/vector_store.py] *)

Module VectorStore.
Import Py Json Chroma.

Definition MANIFEST_PREFIX : string := "_manifest_".

(** [s.replace("-", "_")] *)
Fixpoint replace_dash (s : string) : string :=
  match s with
  | EmptyString => EmptyString
  | String c s' =>
      String (if Ascii.eqb c "-" then "_"%char else c) (replace_dash s')
  end.

Definition _get_collection_name (user_id folder_id : string) : string :=
  replace_dash ("user_" +:+ user_id +:+ "_folder_" +:+ folder_id).

Definition get_collection (srv : server) (user_id folder_id : string)
    : M client string :=
  get_or_create_collection srv (_get_collection_name user_id folder_id).

(** The start indices [range(0, n, batch_size)]. *)
Definition batch_starts (n batch_size : nat) : list nat :=
  map (fun k => k * batch_size)%nat (seq 0 (Nat.div (n + batch_size - 1) batch_size)).

(** The [for i in range(...)] loop of [add_documents] over the remaining
    start indices. *)
Fixpoint upsert_batches (srv : server) (collection : string) (batch_size : nat)
    (documents : list string) (metadatas : list metadata) (ids : list string)
    (starts : list nat) : M client unit :=
  match starts with
  | [] => ret tt
  | i :: starts' =>
      let batch_docs := take batch_size (drop i documents) in
      let batch_metas := take batch_size (drop i metadatas) in
      let batch_ids := take batch_size (drop i ids) in
      _ <~ upsert srv collection batch_docs batch_metas batch_ids ;
      upsert_batches srv collection batch_size documents metadatas ids starts'
  end.

Definition add_documents (srv : server) (user_id folder_id : string)
    (documents : list string) (metadatas : list metadata) (ids : list string)
    : M client unit :=
  collection <~ get_collection srv user_id folder_id ;
  let batch_size := 100%nat in
  upsert_batches srv collection batch_size documents metadatas ids
    (batch_starts (length documents) batch_size).

(** [f["name"]] used as a string: [Raise] when [f] is not a dictionary,
    has no such key, or the value cannot be joined as text. *)
Definition name_of (f : json) : result string :=
  match f with
  | JObj kvs =>
      match assoc "name" kvs with
      | Some (JStr s) => Ok s
      | _ => Raise
      end
  | _ => Raise
  end.

Fixpoint names_of (files : list json) : result (list string) :=
  match files with
  | [] => Ok []
  | f :: files' =>
      bind (name_of f) (fun n =>
      bind (names_of files') (fun ns => Ok (n :: ns)))
  end.

(** The text of the manifest record, from the number of files and the
    names that are listed. *)
Definition manifest_summary_text (count : nat) (names : list string) : string :=
  ("This folder contains " +:+ pretty count +:+ " files: "
     +:+ String.concat ", " names)
  +:+ (if (50 <? count)%nat
       then " and " +:+ pretty (count - 50)%nat +:+ " more files."
       else "").

Definition manifest_id (folder_id : string) : string :=
  MANIFEST_PREFIX +:+ folder_id.

Definition manifest_metadata (manifest_json : string) : metadata :=
  {[ "type" := MStr "manifest"; "manifest_json" := MStr manifest_json ]}.

Definition store_file_manifest (srv : server) (c : codec)
    (user_id folder_id : string) (files : list json) : M client unit :=
  collection <~ get_collection srv user_id folder_id ;
  let manifest_json := json_dumps c (JList files) in
  names <~ lift (names_of (take 50 files)) ;
  let manifest_summary := manifest_summary_text (length files) names in
  upsert srv collection
    [manifest_summary] [manifest_metadata manifest_json] [manifest_id folder_id].

(** The body of the [try] block of [get_file_manifest]: [None] when it
    falls through without returning. *)
Definition read_manifest (srv : server) (c : codec) (collection folder_id : string)
    : M client (option json) :=
  metadatas <~ get_metadatas srv collection (manifest_id folder_id) ;
  match metadatas with
  | m :: _ =>
      if decide (m = ∅) then ret None
      else
        match default (MStr "[]") (m !! "manifest_json") with
        | MStr manifest_json =>
            v <~ lift (json_loads c manifest_json) ; ret (Some v)
        | MInt _ => raise
        end
  | [] => ret None
  end.

Definition get_file_manifest (srv : server) (c : codec)
    (user_id folder_id : string) : M client json :=
  collection <~ get_collection srv user_id folder_id ;
  found <~ try_except (read_manifest srv c collection folder_id) (ret None) ;
  match found with
  | Some v => ret v
  | None => ret (JList [])
  end.

(** One search hit as returned to the caller. *)
Record hit : Type := Hit {
  hit_content : string;
  hit_metadata : metadata;
  hit_distance : Q;
}.

(** [xs[0][i]] with both index errors. *)
Definition first_row_at {X : Type} (rows : list (list X)) (i : nat) : result X :=
  match rows with
  | row :: _ =>
      match row !! i with
      | Some x => Ok x
      | None => Raise
      end
  | [] => Raise
  end.

(** Truth value of an optional list: [None] and the empty list are false. *)
Definition truthy_rows {X : Type} (rows : option (list X)) : option (list X) :=
  match rows with
  | Some (x :: xs) => Some (x :: xs)
  | _ => None
  end.

(** The [for i, doc in enumerate(results["documents"][0])] loop; [i] is
    the index of the first remaining document. *)
Fixpoint collect_hits (results : query_result) (i : nat) (docs : list string)
    (documents : list hit) : result (list hit) :=
  match docs with
  | [] => Ok documents
  | doc :: docs' =>
      bind (match truthy_rows (qr_metadatas results) with
            | Some rows =>
                bind (first_row_at rows i) (fun m =>
                match m with
                | Some meta => Ok meta
                | None => Raise
                end)
            | None => Ok ∅
            end) (fun meta =>
      if decide (meta !! "type" = Some (MStr "manifest")) then
        collect_hits results (S i) docs' documents
      else
        bind (match truthy_rows (qr_distances results) with
              | Some rows => first_row_at rows i
              | None => Ok 0%Q
              end) (fun distance =>
        collect_hits results (S i) docs' (documents ++ [Hit doc meta distance])))
  end.

Definition search_documents (srv : server)
    (user_id folder_id : string) (query_text : string) (n_results : Z)
    (file_name_filter : option string) : M client (list hit) :=
  collection <~ get_collection srv user_id folder_id ;
  let where_filter :=
    match file_name_filter with
    | Some name =>
        if decide (name = "") then WNe "type" "manifest"
        else WAnd [WNe "type" "manifest"; WEq "file_name" name]
    | None => WNe "type" "manifest"
    end in
  results <~ try_except
    (run_query srv collection query_text n_results (Some where_filter))
    (run_query srv collection query_text n_results None) ;
  match truthy_rows (qr_documents results) with
  | Some (docs :: _) => lift (collect_hits results 0 docs [])
  | _ => ret []
  end.

Definition delete_collection (srv : server) (user_id folder_id : string)
    : M client unit :=
  let collection_name := _get_collection_name user_id folder_id in
  try_except (Chroma.delete_collection srv collection_name) (ret tt).

(** A stored record is the manifest when its metadata says so. *)
Definition is_manifest (r : record) : Prop :=
  rec_metadata r !! "type" = Some (MStr "manifest").

(** A hit whose metadata is not of type [manifest]. *)
Definition not_manifest_hit (h : hit) : Prop :=
  hit_metadata h !! "type" <> Some (MStr "manifest").

End VectorStore.

(** ** A reference JSON codec

    A printer in the layout of [json.dumps] (separators [", "] and [": "],
    everything outside printable ASCII escaped) and a recursive-descent
    reader, used to run the examples. The theorems do not depend on it. *)

Module JsonText.
Import Py Json.

Definition quote : ascii := ascii_of_nat 34.
Definition backslash : ascii := ascii_of_nat 92.

Definition chars (s : string) : list ascii := list_ascii_of_string s.

Definition hex_digit (n : nat) : ascii :=
  if (n <? 10)%nat then ascii_of_nat (48 + n) else ascii_of_nat (87 + n).

Definition hex_value (c : ascii) : option nat :=
  let n := nat_of_ascii c in
  if ((48 <=? n) && (n <=? 57))%nat then Some (n - 48)%nat
  else if ((97 <=? n) && (n <=? 102))%nat then Some (n - 87)%nat
  else if ((65 <=? n) && (n <=? 70))%nat then Some (n - 55)%nat
  else None.

Definition escape_char (c : ascii) : list ascii :=
  let n := nat_of_ascii c in
  if Ascii.eqb c quote then [backslash; quote]
  else if Ascii.eqb c backslash then [backslash; backslash]
  else if (n =? 10)%nat then backslash :: chars "n"
  else if (n =? 13)%nat then backslash :: chars "r"
  else if (n =? 9)%nat then backslash :: chars "t"
  else if (n =? 8)%nat then backslash :: chars "b"
  else if (n =? 12)%nat then backslash :: chars "f"
  else if ((n <? 32) || (126 <? n))%nat then
    backslash :: chars "u00" ++ [hex_digit (Nat.div n 16); hex_digit (Nat.modulo n 16)]
  else [c].

Definition dump_string (s : string) : list ascii :=
  quote :: concat (map escape_char (chars s)) ++ [quote].

Fixpoint dump (v : json) : list ascii :=
  match v with
  | JNull => chars "null"
  | JBool true => chars "true"
  | JBool false => chars "false"
  | JInt z => chars (pretty z)
  | JStr s => dump_string s
  | JList l =>
      chars "[" ++
      (fix items (l : list json) : list ascii :=
         match l with
         | [] => []
         | [x] => dump x
         | x :: l' => dump x ++ chars ", " ++ items l'
         end) l ++ chars "]"
  | JObj kvs =>
      chars "{" ++
      (fix members (kvs : list (string * json)) : list ascii :=
         match kvs with
         | [] => []
         | [(k, x)] => dump_string k ++ chars ": " ++ dump x
         | (k, x) :: kvs' =>
             dump_string k ++ chars ": " ++ dump x ++ chars ", " ++ members kvs'
         end) kvs ++ chars "}"
  end.

Definition dumps (v : json) : string := string_of_list_ascii (dump v).

Definition is_ws (c : ascii) : bool :=
  let n := nat_of_ascii c in
  ((n =? 32) || (n =? 9) || (n =? 10) || (n =? 13))%nat.

Fixpoint skip_ws (s : list ascii) : list ascii :=
  match s with
  | c :: s' => if is_ws c then skip_ws s' else s
  | [] => []
  end.

(** The characters of a string literal after its opening quote. *)
Fixpoint read_string (s : list ascii) (acc : list ascii)
    : option (string * list ascii) :=
  match s with
  | [] => None
  | c :: s' =>
      if Ascii.eqb c quote then Some (string_of_list_ascii (rev acc), s')
      else if Ascii.eqb c backslash then
        match s' with
        | e :: s'' =>
            if Ascii.eqb e "u" then
              match s'' with
              | a :: b :: h :: l :: rest =>
                  match hex_value a, hex_value b, hex_value h, hex_value l with
                  | Some 0%nat, Some 0%nat, Some hi, Some lo =>
                      read_string rest (ascii_of_nat (16 * hi + lo) :: acc)
                  | _, _, _, _ => None
                  end
              | _ => None
              end
            else
              let plain (x : ascii) := read_string s'' (x :: acc) in
              if Ascii.eqb e quote then plain quote
              else if Ascii.eqb e backslash then plain backslash
              else if Ascii.eqb e "/" then plain "/"%char
              else if Ascii.eqb e "n" then plain (ascii_of_nat 10)
              else if Ascii.eqb e "r" then plain (ascii_of_nat 13)
              else if Ascii.eqb e "t" then plain (ascii_of_nat 9)
              else if Ascii.eqb e "b" then plain (ascii_of_nat 8)
              else if Ascii.eqb e "f" then plain (ascii_of_nat 12)
              else None
        | [] => None
        end
      else read_string s' (c :: acc)
  end.

Fixpoint read_digits (s : list ascii) (acc : Z) (seen : bool)
    : option (Z * list ascii) :=
  match s with
  | c :: s' =>
      if PyInt.is_digit c
      then read_digits s' (10 * acc + PyInt.digit_value c) true
      else if seen then Some (acc, s) else None
  | [] => if seen then Some (acc, []) else None
  end.

Fixpoint expect (word : list ascii) (s : list ascii) : option (list ascii) :=
  match word, s with
  | [], _ => Some s
  | w :: word', c :: s' => if Ascii.eqb w c then expect word' s' else None
  | _ :: _, [] => None
  end.

Fixpoint read_value (fuel : nat) (s : list ascii) : option (json * list ascii) :=
  match fuel with
  | O => None
  | S fuel' =>
      match skip_ws s with
      | [] => None
      | c :: s' =>
          if Ascii.eqb c "n" then
            rest ← expect (chars "ull") s'; Some (JNull, rest)
          else if Ascii.eqb c "t" then
            rest ← expect (chars "rue") s'; Some (JBool true, rest)
          else if Ascii.eqb c "f" then
            rest ← expect (chars "alse") s'; Some (JBool false, rest)
          else if Ascii.eqb c quote then
            '(str, rest) ← read_string s' []; Some (JStr str, rest)
          else if Ascii.eqb c "-" then
            '(n, rest) ← read_digits s' 0 false; Some (JInt (- n), rest)
          else if PyInt.is_digit c then
            '(n, rest) ← read_digits (c :: s') 0 false; Some (JInt n, rest)
          else if Ascii.eqb c "[" then
            match skip_ws s' with
            | d :: s'' =>
                if Ascii.eqb d "]" then Some (JList [], s'')
                else '(l, rest) ← read_items fuel' (d :: s''); Some (JList l, rest)
            | [] => None
            end
          else if Ascii.eqb c "{" then
            match skip_ws s' with
            | d :: s'' =>
                if Ascii.eqb d "}" then Some (JObj [], s'')
                else '(kvs, rest) ← read_members fuel' (d :: s''); Some (JObj kvs, rest)
            | [] => None
            end
          else None
      end
  end
with read_items (fuel : nat) (s : list ascii) : option (list json * list ascii) :=
  match fuel with
  | O => None
  | S fuel' =>
      '(x, rest) ← read_value fuel' s;
      match skip_ws rest with
      | c :: rest' =>
          if Ascii.eqb c "," then
            '(l, rest'') ← read_items fuel' rest'; Some (x :: l, rest'')
          else if Ascii.eqb c "]" then Some ([x], rest')
          else None
      | [] => None
      end
  end
with read_members (fuel : nat) (s : list ascii)
    : option (list (string * json) * list ascii) :=
  match fuel with
  | O => None
  | S fuel' =>
      match skip_ws s with
      | q :: s' =>
          if Ascii.eqb q quote then
            '(k, rest) ← read_string s' [];
            match skip_ws rest with
            | c :: rest' =>
                if Ascii.eqb c ":" then
                  '(x, rest'') ← read_value fuel' rest';
                  match skip_ws rest'' with
                  | d :: rest3 =>
                      if Ascii.eqb d "," then
                        '(kvs, rest4) ← read_members fuel' rest3;
                        Some ((k, x) :: kvs, rest4)
                      else if Ascii.eqb d "}" then Some ([(k, x)], rest3)
                      else None
                  | [] => None
                  end
                else None
            | [] => None
            end
          else None
      | [] => None
      end
  end.

Definition loads (s : string) : result json :=
  let input := chars s in
  match read_value (S (length input)) input with
  | Some (v, rest) =>
      match skip_ws rest with
      | [] => Ok v
      | _ :: _ => Raise
      end
  | None => Raise
  end.

Definition reference_codec : codec := Codec dumps loads.

End JsonText.

(** ** Downloader: [GoogleDriveService.download_files_parallel] *)

Module Downloader.
Import Py Drive.

(** How the awaited [download_file] of one task ends: with the content,
    with [asyncio.TimeoutError] after 60 seconds, or with another
    exception. *)
Inductive outcome : Type :=
| Downloaded (content : bytes)
| TimedOut
| Failed.

(** The [try] / [except] of [download_with_semaphore]. *)
Definition content_of (o : outcome) : option bytes :=
  match o with
  | Downloaded content => Some content
  | TimedOut => None
  | Failed => None
  end.

(** Where one [download_with_semaphore] task stands: before it holds the
    semaphore, suspended in the download while holding it, or returned. *)
Inductive status : Type :=
| Waiting
| Downloading
| Done (content : option bytes).

(** The state shared by the tasks of one call. *)
Record state : Type := State {
  permits : Z;
  tasks : list (file * status);
  completed : nat;
}.

(** The event loop resumes one task at a time: a waiting task takes a
    permit and starts its download, or a download ends and the task runs to
    its [return], counting itself and giving the permit back. *)
Inductive event : Type :=
| Acquire (i : nat)
| Finish (i : nat) (o : outcome).

Definition step (s : state) (e : event) : option state :=
  match e with
  | Acquire i =>
      match tasks s !! i with
      | Some (f, Waiting) =>
          if 0 <? permits s
          then Some (State (permits s - 1) (<[i := (f, Downloading)]> (tasks s))
                       (completed s))
          else None
      | _ => None
      end
  | Finish i o =>
      match tasks s !! i with
      | Some (f, Downloading) =>
          Some (State (permits s + 1) (<[i := (f, Done (content_of o))]> (tasks s))
                  (S (completed s)))
      | _ => None
      end
  end.

Fixpoint run (s : state) (events : list event) : option state :=
  match events with
  | [] => Some s
  | e :: events' =>
      match step s e with
      | Some s' => run s' events'
      | None => None
      end
  end.

(** [tasks = [download_with_semaphore(f) for f in files]] under
    [Semaphore(max_concurrent)]. *)
Definition start (files : list file) (max_concurrent : Z) : state :=
  State max_concurrent (map (fun f => (f, Waiting)) files) 0.

(** [await asyncio.gather] over the tasks: the results in task order, once every
    task has returned. *)
Fixpoint gather (ts : list (file * status)) : option (list (file * option bytes)) :=
  match ts with
  | [] => Some []
  | (f, Done content) :: ts' =>
      match gather ts' with
      | Some results => Some ((f, content) :: results)
      | None => None
      end
  | _ :: _ => None
  end.

(** The call under one interleaving of its tasks and one outcome per
    download; [None] when the interleaving is not an execution or stops
    before every task has returned. *)
Definition download_files_parallel (files : list file) (max_concurrent : Z)
    (events : list event) : option (list (file * option bytes)) :=
  match run (start files max_concurrent) events with
  | Some s => gather (tasks s)
  | None => None
  end.

(** Work left for a task: two events when waiting, one when downloading. *)
Definition rank (t : file * status) : nat :=
  match snd t with
  | Waiting => 2
  | Downloading => 1
  | Done _ => 0
  end.

Definition holds_permit (t : file * status) : nat :=
  match snd t with
  | Downloading => 1
  | _ => 0
  end.

Definition returned (t : file * status) : nat :=
  match snd t with
  | Done _ => 1
  | _ => 0
  end.

Definition total (g : file * status -> nat) (ts : list (file * status)) : nat :=
  foldr (fun t n => g t + n)%nat 0%nat ts.

(** The interleaving that runs the tasks one after the other, the task at
    index [i] first, each download ending as [outcomes] says. *)
Fixpoint sequential (outcomes : file -> outcome) (i : nat) (files : list file)
    : list event :=
  match files with
  | [] => []
  | f :: files' =>
      Acquire i :: Finish i (outcomes f) :: sequential outcomes (S i) files'
  end.

(** What holds of every state reached from [start files max_concurrent]
    by the events [events]. *)
Record invariant (files : list file) (max_concurrent : Z)
    (events : list event) (s : state) : Prop := Invariant {
  inv_files : map fst (tasks s) = files;
  inv_permits : permits s + Z.of_nat (total holds_permit (tasks s)) = max_concurrent;
  inv_completed : completed s = total returned (tasks s);
  inv_rank : (length events + total rank (tasks s) = 2 * length files)%nat;
  inv_done : forall i f c, tasks s !! i = Some (f, Done c) ->
    exists o, In (Finish i o) events /\ c = content_of o;
  inv_finished : forall i o, In (Finish i o) events ->
    exists f, tasks s !! i = Some (f, Done (content_of o));
}.

End Downloader.

(** ** Folder ingestion: [app/services/ingestion.py], [app/db/models.py] *)

Module FolderStatus.
Inductive t : Type := PENDING | INDEXING | READY | FAILED.
End FolderStatus.

Module IndexMode.
Inductive t : Type := gemini_files | chroma.
End IndexMode.

Module Ingestion.
Import Py Json Drive Gemini Chroma VectorStore.

(** The columns of a [Folder] row that ingestion writes. *)
Record Folder : Type := mkFolder {
  status : FolderStatus.t;
  index_mode : option IndexMode.t;
  file_count : Z;
  indexed_at : option nat;
  gemini_files : option (list uploaded);
}.

(** Everything outside the process that one ingestion run meets. *)
Record world : Type := World {
  list_files : result (list file);
  download : file -> Downloader.outcome;
  upload : file -> bytes -> result string;
  process_files_parallel :
    list (file * option bytes) ->
    result (list string * list metadata * list string * Z);
  chroma : server;
  json_codec : codec;
  utcnow : nat;
}.

(** The state an ingestion run works on: the folder row and the vector
    store. Commits to the relational database are taken to succeed. *)
Abbreviation state := (Folder * client)%type.

Definition update_folder (f : Folder -> Folder) : M state unit :=
  modify (fun s : state => (f (fst s), snd s)).

Definition set_status (st : FolderStatus.t) (folder : Folder) : Folder :=
  mkFolder st (index_mode folder) (file_count folder) (indexed_at folder)
    (gemini_files folder).

(** The entry of [file_manifest] for a listed file. *)
Definition file_manifest_entry (f : file) : json :=
  JObj [("id", JStr (file_id f));
        ("name", JStr (file_name f));
        ("path", JStr (default (file_name f) (file_path f)));
        ("mime_type", JStr (file_mimeType f));
        ("size", default (JInt 0) (file_size f))].

(** The entry of [fast_manifest] for an uploaded file. *)
Definition fast_manifest_entry (f : uploaded) : json :=
  JObj [("id", JStr (up_id f));
        ("name", JStr (up_name f));
        ("path", JStr (up_name f));
        ("mime_type", JStr (up_mime_type f));
        ("size", JInt 0)].

(** Truth value of [f.get("gemini_uri")]: a string that is not empty. *)
Definition truthy_uri (f : uploaded) : bool :=
  match up_gemini_uri f with
  | Some uri => negb (String.eqb uri "")
  | None => false
  end.

(** An upload result whose handle is not [None]. *)
Definition has_handle (f : uploaded) : bool :=
  match up_gemini_uri f with
  | Some _ => true
  | None => false
  end.

Definition successful_uploads (gemini_files : list uploaded) : list uploaded :=
  List.filter truthy_uri gemini_files.

(** [len(successful_uploads) / total_attempted if total_attempted > 0 else 0].
    The quotient of two list lengths is compared with 0.5 only; floating
    point division rounds correctly and 0.5 is a float, so the comparison
    has the same answer on the exact rational. *)
Definition success_rate (gemini_files : list uploaded) : Q :=
  let total_attempted := length gemini_files in
  if (0 <? total_attempted)%nat
  then (Z.of_nat (length (successful_uploads gemini_files))
        # Pos.of_nat total_attempted)%Q
  else 0%Q.

(** [success_rate >= 0.5 and successful_uploads] *)
Definition fast_path_accepted (gemini_files : list uploaded) : bool :=
  Qle_bool (1 # 2) (success_rate gemini_files)
  && truthy_list (successful_uploads gemini_files).

(** The body of the inner [try] of [ingest_folder]; the result tells
    whether the function returned from inside it. *)
Definition fast_path (w : world) (user_id folder_id : string)
    (downloaded : list (file * option bytes)) : M state bool :=
  let gemini_files := upload_files_to_gemini (upload w) downloaded in
  let successful_uploads := successful_uploads gemini_files in
  if fast_path_accepted gemini_files then
    let fast_manifest := map fast_manifest_entry successful_uploads in
    _ <~ on_snd (store_file_manifest (chroma w) (json_codec w)
                   user_id folder_id fast_manifest) ;
    _ <~ update_folder (fun _ =>
           mkFolder FolderStatus.READY (Some IndexMode.gemini_files)
             (len successful_uploads) (Some (utcnow w))
             (Some successful_uploads)) ;
    ret true
  else ret false.

(** The RAG path, from [process_files_parallel] to the final commit. *)
Definition rag_path (w : world) (user_id folder_id : string)
    (file_manifest : list json) (downloaded : list (file * option bytes))
    : M state unit :=
  processed <~ lift (process_files_parallel w downloaded) ;
  let '(all_documents, all_metadatas, all_ids, indexed_count) := processed in
  _ <~ (if truthy_list all_documents
        then on_snd (add_documents (chroma w) user_id folder_id
                       all_documents all_metadatas all_ids)
        else ret tt) ;
  _ <~ on_snd (store_file_manifest (chroma w) (json_codec w)
                 user_id folder_id file_manifest) ;
  update_folder (fun folder =>
    mkFolder FolderStatus.READY (Some IndexMode.chroma) indexed_count
      (Some (utcnow w)) (gemini_files folder)).

(** What [download_files_parallel] returns for the outcomes of this run. *)
Definition downloaded_files (w : world) (files : list file)
    : list (file * option bytes) :=
  map (fun f => (f, Downloader.content_of (download w f))) files.

(** The body of the outer [try] of [ingest_folder]. *)
Definition pipeline (w : world) (user_id folder_id : string) : M state unit :=
  files <~ lift (list_files w) ;
  let file_manifest := map file_manifest_entry files in
  if negb (truthy_list files) then
    update_folder (fun folder =>
      mkFolder FolderStatus.READY (index_mode folder) 0 (Some (utcnow w))
        (gemini_files folder))
  else
    let use_fast_path := should_use_fast_path files in
    let downloaded := downloaded_files w files in
    returned <~ (if use_fast_path
                 then try_except (fast_path w user_id folder_id downloaded)
                        (ret false)
                 else ret false) ;
    if returned then ret tt
    else rag_path w user_id folder_id file_manifest downloaded.

(** How a call ends. *)
Inductive exit : Type := Returned | Raised.

(** [ingest_folder(folder_id, user_id, refresh_token)]; [row] is the
    folder found by the initial query, if any. *)
Definition ingest_folder (w : world) (folder_id user_id : string)
    (row : option Folder) (cl : client) : option Folder * client * exit :=
  match row with
  | None => (None, cl, Returned)
  | Some folder =>
      match pipeline w user_id folder_id (set_status FolderStatus.INDEXING folder, cl) with
      | (s, Ok _) => (Some (fst s), snd s, Returned)
      | (s, Raise) => (Some (set_status FolderStatus.FAILED (fst s)), snd s, Raised)
      end
  end.

End Ingestion.

(** ** Retrieval agent: [app/agent/hybrid_agent.py] *)

Module Agent.
Import Py Json Chroma VectorStore.

(** A double quote, for the texts that contain one. *)
Definition q : string := String JsonText.quote EmptyString.

Definition nl : string := String (ascii_of_nat 10) EmptyString.

Definition RAG_SYSTEM_PROMPT : string :=
  String.concat nl [
    "You are a helpful assistant that answers questions about documents stored in a folder.";
    "";
    "You have access to the following tools (call them by outputting JSON):";
    "1. list_files - Lists all files in the folder";
    "2. search_documents(query, n_results=10, file_name=None) - Semantic search across documents";
    "3. get_file_content(file_name) - Gets all content from a specific file";
    "";
    "CRITICAL RULES:";
    "1. ALWAYS start by calling list_files to see what's available";
    "2. If user asks about specific content, use search_documents with a good query";
    "3. Base answers ONLY on retrieved documents";
    "4. ALWAYS cite sources: [Source: filename]";
    "5. If information not found, say " +:+ q
      +:+ "I couldn't find this in the provided documents" +:+ q;
    "";
    "OUTPUT FORMAT: For tool calls, output JSON like:";
    "{" +:+ q +:+ "tool" +:+ q +:+ ": " +:+ q +:+ "list_files" +:+ q +:+ "}";
    "{" +:+ q +:+ "tool" +:+ q +:+ ": " +:+ q +:+ "search_documents" +:+ q +:+ ", "
      +:+ q +:+ "query" +:+ q +:+ ": " +:+ q +:+ "..." +:+ q +:+ ", "
      +:+ q +:+ "n_results" +:+ q +:+ ": 10}";
    "{" +:+ q +:+ "tool" +:+ q +:+ ": " +:+ q +:+ "get_file_content" +:+ q +:+ ", "
      +:+ q +:+ "file_name" +:+ q +:+ ": " +:+ q +:+ "..." +:+ q +:+ "}";
    "";
    "After getting results, provide your final answer with citations."
  ].

Definition APOLOGY : string :=
  "I apologize, but I wasn't able to find the relevant information after several attempts.".

Inductive role : Type := user | model.

(** One entry of [messages]: [{"role": ..., "parts": [text]}]. *)
Record chat_message : Type := Message {
  msg_role : role;
  msg_parts : string;
}.

(** One entry of [history]. *)
Record past_message : Type := PastMessage {
  past_role : string;
  past_content : string;
}.

(** One entry of [tool_result["results"]]. *)
Record search_result : Type := SearchResult {
  sr_content : string;
  sr_file_name : meta_value;
  sr_file_id : meta_value;
  sr_file_path : meta_value;
  sr_mime_type : meta_value;
  sr_chunk_index : meta_value;
  sr_page_number : option meta_value;
}.

(** One entry of the [chunks] of a [get_file_content] result. *)
Record chunk_entry : Type := ChunkEntry {
  ce_content : string;
  ce_chunk_index : meta_value;
  ce_page_number : option meta_value;
}.

(** One entry of the [files] of a [list_files] result. *)
Record file_entry : Type := FileEntry {
  fe_name : json;
  fe_path : json;
  fe_type : json;
}.

(** The dictionary returned by [_execute_tool], by shape. *)
Inductive tool_result : Type :=
| Files (files : list file_entry) (total : Z)
| Results (results : list search_result) (total_found : Z)
| FileContent (file_name : string) (chunks : list chunk_entry) (total_chunks : Z)
| UnknownTool (tool_name : option json).

Record citation : Type := Citation {
  cit_file_name : meta_value;
  cit_file_id : meta_value;
  cit_drive_file_id : meta_value;
  cit_chunk_index : meta_value;
  cit_page_number : option meta_value;
  cit_mime_type : meta_value;
}.

(** The dictionary returned by [_chat_chroma_rag]. *)
Record reply : Type := Reply {
  content : string;
  citations : option (list citation);
}.

(** What the agent is connected to: the chat model ([start_chat] on all
    messages but the last, [send_message] of the last, [.text]), the JSON
    codec, the text of [json.dumps(tool_result)], and the vector store. *)
Record world : Type := World {
  generate : list chat_message -> result string;
  json_codec : codec;
  dump_tool_result : tool_result -> string;
  chroma : server;
}.

(** The rest of a match of [[^{}]+\}] after an opening brace: the
    characters up to the next brace, which must be a closing one and not
    come first. *)
Fixpoint match_body (s : list ascii) (seen : list ascii) : option (list ascii) :=
  match s with
  | [] => None
  | c :: s' =>
      if Ascii.eqb c "}" then
        match seen with
        | [] => None
        | _ :: _ => Some (rev seen)
        end
      else if Ascii.eqb c "{" then None
      else match_body s' (c :: seen)
  end.

(** [re.search(r'\{[^{}]+\}', text)]: the leftmost match, if any. *)
Fixpoint search_object (s : list ascii) : option (list ascii) :=
  match s with
  | [] => None
  | c :: s' =>
      if Ascii.eqb c "{" then
        match match_body s' [] with
        | Some body => Some ("{"%char :: body ++ ["}"%char])
        | None => search_object s'
        end
      else search_object s'
  end.

(** [_parse_tool_call]: the items of the dictionary when the text holds a
    JSON object with a [tool] key. A text that starts with a brace decodes
    to a dictionary or not at all. *)
Definition _parse_tool_call (c : codec) (text : string)
    : option (list (string * json)) :=
  match search_object (list_ascii_of_string text) with
  | Some json_match =>
      match json_loads c (string_of_list_ascii json_match) with
      | Ok (JObj obj) =>
          match assoc "tool" obj with
          | Some _ => Some obj
          | None => None
          end
      | _ => None
      end
  | None => None
  end.

(** Truth value of a JSON-shaped Python value. *)
Definition truthy (v : json) : bool :=
  match v with
  | JNull => false
  | JBool b => b
  | JInt z => negb (z =? 0)
  | JStr s => negb (String.eqb s "")
  | JList l => truthy_list l
  | JObj kvs => truthy_list kvs
  end.

Definition meta_json (v : meta_value) : json :=
  match v with
  | MStr s => JStr s
  | MInt z => JInt z
  end.

(** The entry of the [list_files] result for one manifest item. *)
Definition file_entry_of (f : json) : result file_entry :=
  match f with
  | JObj kvs =>
      match assoc "name" kvs with
      | Some name =>
          Ok (FileEntry name (default name (assoc "path" kvs))
                (default (JStr "") (assoc "mime_type" kvs)))
      | None => Raise
      end
  | _ => Raise
  end.

Fixpoint file_entries (manifest : list json) : result (list file_entry) :=
  match manifest with
  | [] => Ok []
  | f :: manifest' =>
      bind (file_entry_of f) (fun e =>
      bind (file_entries manifest') (fun es => Ok (e :: es)))
  end.

Definition search_result_of (r : hit) : search_result :=
  let metadata := hit_metadata r in
  SearchResult (hit_content r)
    (default (MStr "unknown") (metadata !! "file_name"))
    (default (MStr "") (metadata !! "file_id"))
    (default (MStr "") (metadata !! "file_path"))
    (default (MStr "") (metadata !! "mime_type"))
    (default (MInt 0) (metadata !! "chunk_index"))
    (metadata !! "page_number").

Definition chunk_entry_of (r : hit) : chunk_entry :=
  let metadata := hit_metadata r in
  ChunkEntry (hit_content r)
    (default (MInt 0) (metadata !! "chunk_index"))
    (metadata !! "page_number").

(** The [file_name] argument as handed to [search_documents]: a string, or
    nothing when the value is false. Any other value is taken to be
    rejected by the store. *)
Definition file_name_argument (v : option json) : result (option string) :=
  match v with
  | None => Ok None
  | Some (JStr s) => Ok (Some s)
  | Some v => if truthy v then Raise else Ok None
  end.

(** [_execute_tool]. Arguments of the wrong type are taken to raise. *)
Definition _execute_tool (w : world) (user_id folder_id : string)
    (tool_call : list (string * json)) : M client tool_result :=
  let tool_name := assoc "tool" tool_call in
  match tool_name with
  | Some (JStr "list_files") =>
      manifest <~ get_file_manifest (chroma w) (json_codec w) user_id folder_id ;
      match manifest with
      | JList items =>
          files <~ lift (file_entries items) ;
          ret (Files files (len items))
      | JStr "" | JObj [] => ret (Files [] 0)
      | _ => raise
      end
  | Some (JStr "search_documents") =>
      query_text <~ lift (match default (JStr "") (assoc "query" tool_call) with
                          | JStr s => Ok s
                          | _ => Raise
                          end) ;
      n_results <~ lift (match default (JInt 10) (assoc "n_results" tool_call) with
                         | JInt z => Ok (Z.min z 20)
                         | JBool b => Ok (Z.min (if b then 1 else 0) 20)
                         | _ => Raise
                         end) ;
      file_name <~ lift (file_name_argument (assoc "file_name" tool_call)) ;
      results <~ search_documents (chroma w) user_id folder_id query_text
                   n_results file_name ;
      ret (Results (map search_result_of results) (len results))
  | Some (JStr "get_file_content") =>
      file_name <~ lift (match default (JStr "") (assoc "file_name" tool_call) with
                         | JStr s => Ok s
                         | _ => Raise
                         end) ;
      results <~ search_documents (chroma w) user_id folder_id
                   ("content from " +:+ file_name) 50 (Some file_name) ;
      ret (FileContent file_name (map chunk_entry_of results) (len results))
  | _ => ret (UnknownTool tool_name)
  end.

Definition citation_of (r : search_result) : citation :=
  Citation (sr_file_name r) (sr_file_id r) (sr_file_id r) (sr_chunk_index r)
    (sr_page_number r) (sr_mime_type r).

(** The [for r in tool_result["results"]] loop. *)
Fixpoint add_citations (results : list search_result) (all_citations : list citation)
    : list citation :=
  match results with
  | [] => all_citations
  | r :: results' =>
      let citation := citation_of r in
      add_citations results'
        (if existsb (fun c => bool_decide (cit_file_name c = cit_file_name citation))
              all_citations
         then all_citations
         else all_citations ++ [citation])
  end.

(** The citations after one tool result. *)
Definition cite (all_citations : list citation) (tool_result : tool_result)
    : list citation :=
  match tool_result with
  | Results results _ => add_citations results all_citations
  | _ => all_citations
  end.

(** [all_citations if all_citations else None] *)
Definition citations_or_none (all_citations : list citation) : option (list citation) :=
  if truthy_list all_citations then Some all_citations else None.

(** Bookkeeping that the code does not have, kept to state what a run did:
    how often the chat model was called and which tool results came back. *)
Record ghost : Type := Ghost {
  calls : nat;
  tool_results : list tool_result;
}.

Abbreviation state := (ghost * client)%type.

Definition count_call : M state unit :=
  modify (fun s : state => (Ghost (S (calls (fst s))) (tool_results (fst s)), snd s)).

Definition record_result (r : tool_result) : M state unit :=
  modify (fun s : state => (Ghost (calls (fst s)) (tool_results (fst s) ++ [r]), snd s)).

(** The [for _ in range(max_iterations)] loop of [_chat_chroma_rag] with
    [iterations] rounds to go, for any way [execute] of running a tool. *)
Fixpoint rag_loop (w : world) (execute : list (string * json) -> M client tool_result)
    (iterations : nat) (messages : list chat_message) (all_citations : list citation)
    : M state reply :=
  match iterations with
  | O => ret (Reply APOLOGY (citations_or_none all_citations))
  | S iterations' =>
      _ <~ count_call ;
      response_text <~ lift (generate w messages) ;
      match _parse_tool_call (json_codec w) response_text with
      | Some tool_call =>
          tool_result <~ on_snd (execute tool_call) ;
          _ <~ record_result tool_result ;
          let all_citations := cite all_citations tool_result in
          let messages :=
            messages ++
            [Message model response_text;
             Message user ("Tool result: " +:+ dump_tool_result w tool_result)] in
          rag_loop w execute iterations' messages all_citations
      | None => ret (Reply response_text (citations_or_none all_citations))
      end
  end.

Definition initial_messages (message : string) (history : option (list past_message))
    : list chat_message :=
  Message user (RAG_SYSTEM_PROMPT +:+ nl +:+ nl +:+ "User: " +:+ message)
  :: map (fun msg =>
            Message (if String.eqb (past_role msg) "user" then user else model)
              (past_content msg))
       (default [] history).

Definition _chat_chroma_rag (w : world) (user_id folder_id : string)
    (message : string) (history : option (list past_message)) : M state reply :=
  let max_iterations := 5%nat in
  rag_loop w (_execute_tool w user_id folder_id) max_iterations
    (initial_messages message history) [].

End Agent.

(** ** Example data *)

Module Examples.
Import Py Json Chroma VectorStore.

(** A server on which every call returns; its query engine raises. *)
Definition working_server : server :=
  Server (fun _ => true) (fun _ _ _ _ => Raise).

Definition example_descriptor (i : nat) : json :=
  JObj [("id", JStr ("id-" +:+ pretty i));
        ("name", JStr ("file" +:+ pretty i +:+ ".txt"));
        ("path", JStr ("docs/file" +:+ pretty i +:+ ".txt"));
        ("mime_type", JStr "text/plain");
        ("size", JStr "1024")].

(** Fifty-one descriptors: one more than the summary lists. *)
Definition example_files : list json := map example_descriptor (seq 0 51).

Definition chunk_metadata : metadata :=
  {[ "file_id" := MStr "id-0"; "file_name" := MStr "file0.txt";
     "chunk_index" := MInt 0 ]}.

(** A server whose filtered query raises and whose unfiltered query ranks
    the manifest record first and a content chunk second. *)
Definition fallback_server : server :=
  Server (fun _ => true)
    (fun _ _ _ where_filter =>
       match where_filter with
       | Some _ => Raise
       | None =>
           Ok (QueryResult
                 (Some [["This folder contains 1 files: file0.txt"; "chunk text"]])
                 (Some [[Some (manifest_metadata "[]"); Some chunk_metadata]])
                 (Some [[(1 # 10)%Q; (2 # 10)%Q]]))
       end).

Definition text_file (name : string) : Drive.file :=
  Drive.File ("id-" +:+ name) name (Some name) "text/plain" (Some (JStr "2")).

Definition three_files : list Drive.file :=
  [text_file "a.txt"; text_file "b.txt"; text_file "c.txt"].

(** Two downloads in flight at once; the second file times out, the third
    fails, the first arrives last but one. *)
Definition interleaved : list Downloader.event :=
  [Downloader.Acquire 0; Downloader.Acquire 1;
   Downloader.Finish 1 Downloader.TimedOut;
   Downloader.Acquire 2;
   Downloader.Finish 0 (Downloader.Downloaded [Byte.x68; Byte.x69]);
   Downloader.Finish 2 Downloader.Failed].

Definition interleaved_results : list (Drive.file * option (list Byte.byte)) :=
  [(text_file "a.txt", Some [Byte.x68; Byte.x69]);
   (text_file "b.txt", None);
   (text_file "c.txt", None)].

Definition pending_folder : Ingestion.Folder :=
  Ingestion.mkFolder FolderStatus.PENDING None 0 None None.

(** A run over [files] in which every download succeeds and the upload of
    a file succeeds when [uploads f] holds; the RAG path indexes one chunk. *)
Definition sample_world (listing : result (list Drive.file))
    (uploads : Drive.file -> bool) : Ingestion.world :=
  Ingestion.World listing
    (fun _ => Downloader.Downloaded [Byte.x68; Byte.x69])
    (fun f _ => if uploads f
                then Ok ("https://generativelanguage.googleapis.com/v1beta/files/"
                         +:+ Drive.file_id f)
                else Raise)
    (fun _ => Ok (["hi"], [chunk_metadata], ["id-0_chunk_0"], 1))
    working_server JsonText.reference_codec 0.

Definition five_files : list Drive.file :=
  map text_file ["a.txt"; "b.txt"; "c.txt"; "d.txt"; "e.txt"].

(** Whether the name of [f] is among [names]. *)
Definition named (names : list string) (f : Drive.file) : bool :=
  existsb (String.eqb (Drive.file_name f)) names.

(** Upload results with [successes] handles followed by [failures]
    failures. *)
Definition mixed_results (successes failures : nat) : list Gemini.uploaded :=
  replicate successes (Gemini.Uploaded "id" "a.txt" "a.txt" "text/plain"
                         (Some "https://generativelanguage.googleapis.com/v1beta/files/x"))
  ++ replicate failures (Gemini.Uploaded "id" "a.txt" "a.txt" "text/plain" None).

(** A chat model that answers every prompt with the same tool call, on a
    store whose filtered query raises. *)
Definition scripted_world : Agent.world :=
  Agent.World
    (fun _ => Ok (JsonText.dumps
                    (JObj [("tool", JStr "search_documents");
                           ("query", JStr "budget")])))
    JsonText.reference_codec
    (fun _ => "{}")
    fallback_server.

Definition scripted_citation : Agent.citation :=
  Agent.Citation (MStr "file0.txt") (MStr "id-0") (MStr "id-0") (MInt 0) None (MStr "").

End Examples.

(** ** Vector store, continued: [get_collection_stats] and search results *)

Module VectorStoreStats.
Import Py Json Chroma VectorStore.

(** [collection.count()]: the number of stored records. The call is a read
    of the collection and fails when reads do. *)
Definition count (srv : server) (name : string) : M client Z :=
  fun cl =>
    if healthy srv OpGet then (cl, Ok (Z.of_nat (size (default ∅ (cl !! name)))))
    else (cl, Raise).

(** [len(v)] for a JSON-shaped value; [Raise] is [TypeError]. *)
Definition json_len (v : json) : result Z :=
  match v with
  | JList l => Ok (len l)
  | JObj kvs => Ok (len kvs)
  | JStr s => Ok (Z.of_nat (String.length s))
  | JNull | JBool _ | JInt _ => Raise
  end.

(** The dictionary returned by [get_collection_stats]. *)
Record stats : Type := Stats {
  total_chunks : Z;
  total_files : Z;
  files : json;
}.

Definition get_collection_stats (srv : server) (c : codec)
    (user_id folder_id : string) : M client stats :=
  collection <~ get_collection srv user_id folder_id ;
  count <~ count srv collection ;
  manifest <~ get_file_manifest srv c user_id folder_id ;
  total_files <~ lift (json_len manifest) ;
  ret (Stats (if count >? 0 then count - 1 else 0) total_files manifest).


(** The collection as [get_or_create_collection] leaves the client. *)
Definition ensure (cl : client) (name : string) : client :=
  match cl !! name with
  | Some _ => cl
  | None => <[name := ∅]> cl
  end.

(** The records of a collection, absent meaning empty. *)
Definition contents (cl : client) (name : string) : collection :=
  default ∅ (cl !! name).

(** What [get_file_manifest] answers, read off the record stored under the
    reserved id. *)
Definition manifest_answer (srv : server) (c : codec) (cl : client)
    (user_id folder_id : string) : json :=
  if healthy srv OpGet then
    match contents cl (_get_collection_name user_id folder_id)
            !! manifest_id folder_id with
    | Some r =>
        if decide (rec_metadata r = ∅) then JList []
        else match default (MStr "[]") (rec_metadata r !! "manifest_json") with
             | MStr manifest_json =>
                 match json_loads c manifest_json with
                 | Ok v => v
                 | Raise => JList []
                 end
             | MInt _ => JList []
             end
    | None => JList []
    end
  else JList [].

End VectorStoreStats.

(** ** Strings as character lists *)

Module Text.

(** The characters of [s] are all different from [c]. *)
Definition lacks (c : ascii) (s : string) : Prop :=
  Forall (fun x => x <> c) (list_ascii_of_string s).

End Text.

(** ** Retrieval agent, continued *)

Module AgentFacts.
Import Py Json Chroma VectorStore Agent.

(** A stretch of text without braces. *)
Definition brace_free (s : list ascii) : Prop :=
  Forall (fun c => c <> "{"%char /\ c <> "}"%char) s.

(** An occurrence in [s] of what the pattern [\{[^{}]+\}] matches: an
    opening brace, a non-empty stretch without braces, a closing brace. *)
Definition occurs (pre body post : list ascii) (s : list ascii) : Prop :=
  s = pre ++ "{"%char :: body ++ "}"%char :: post /\
  body <> [] /\ brace_free body.



(** The entry that the [list_files] tool shows for a listed Drive file. *)
Definition listed_entry (f : Drive.file) : file_entry :=
  FileEntry (JStr (Drive.file_name f))
    (JStr (default (Drive.file_name f) (Drive.file_path f)))
    (JStr (Drive.file_mimeType f)).

End AgentFacts.

(** ** Uploads to the Gemini File API: [app/services/gemini_service.py] *)

Module GeminiUpload.
Import Py Json Drive Gemini.

Definition GDOC : string := "application/vnd.google-apps.document".
Definition GSHEET : string := "application/vnd.google-apps.spreadsheet".
Definition GSLIDES : string := "application/vnd.google-apps.presentation".
Definition DOCX : string :=
  "application/vnd.openxmlformats-officedocument.wordprocessingml.document".
Definition XLSX : string :=
  "application/vnd.openxmlformats-officedocument.spreadsheetml.sheet".
Definition PPTX : string :=
  "application/vnd.openxmlformats-officedocument.presentationml.presentation".

Definition OFFICE_MIMES_NEED_CONVERSION : list string := [DOCX; XLSX; PPTX].

(** [m in mimes] *)
Definition mime_in (m : string) (mimes : list string) : bool :=
  existsb (String.eqb m) mimes.

(** [c in s] for a character [c]. *)
Fixpoint has_char (c : ascii) (s : string) : bool :=
  match s with
  | EmptyString => false
  | String x s' => Ascii.eqb x c || has_char c s'
  end.

(** The part of [s] before its last [c], if [c] occurs. *)
Fixpoint before_last (c : ascii) (s : string) : option string :=
  match s with
  | EmptyString => None
  | String x s' =>
      match before_last c s' with
      | Some b => Some (String x b)
      | None => if Ascii.eqb x c then Some EmptyString else None
      end
  end.

(** [s.rsplit(c, 1)[0]]: all of [s] when [c] does not occur. *)
Definition rsplit_head (c : ascii) (s : string) : string :=
  default s (before_last c s).

(** The libraries that read Office files, and [text.encode("utf-8")]. *)
Record extractors : Type := Extractors {
  _extract_text_from_docx : bytes -> result string;
  _extract_text_from_xlsx : bytes -> result string;
  _extract_text_from_pptx : bytes -> result string;
  encode_utf8 : string -> result bytes;
}.

(** The body of the [try] block of [convert_office_to_text]. *)
Definition convert_attempt (x : extractors) (content : bytes)
    (mime_type filename : string) : result (bytes * string * string) :=
  let finish (text : result string) :=
    bind text (fun text =>
    let base_name :=
      if has_char "." filename then rsplit_head "." filename else filename in
    bind (encode_utf8 x text) (fun encoded =>
    Ok (encoded, "text/plain", base_name +:+ ".txt"))) in
  if String.eqb mime_type DOCX then finish (_extract_text_from_docx x content)
  else if String.eqb mime_type XLSX then finish (_extract_text_from_xlsx x content)
  else if String.eqb mime_type PPTX then finish (_extract_text_from_pptx x content)
  else Ok (content, mime_type, filename).

Definition convert_office_to_text (x : extractors) (content : bytes)
    (mime_type filename : string) : bytes * string * string :=
  match convert_attempt x content mime_type filename with
  | Ok converted => converted
  | Raise => (content, mime_type, filename)
  end.

Definition extension_map : list (string * string) :=
  [(GDOC, ".docx"); (GSHEET, ".xlsx"); (GSLIDES, ".pptx");
   ("application/pdf", ".pdf"); ("text/plain", ".txt"); ("text/markdown", ".md");
   ("text/csv", ".csv"); ("image/png", ".png"); ("image/jpeg", ".jpg");
   ("image/jpg", ".jpg"); ("image/gif", ".gif"); ("image/webp", ".webp");
   ("image/heic", ".heic"); ("video/mp4", ".mp4"); ("video/quicktime", ".mov");
   ("audio/mpeg", ".mp3"); ("audio/wav", ".wav")].

(** [d.get(key, fallback)] on a dictionary of strings. *)
Fixpoint get_or (key : string) (d : list (string * string)) (fallback : string)
    : string :=
  match d with
  | [] => fallback
  | (k, v) :: d' => if String.eqb k key then v else get_or key d' fallback
  end.

(** The file name under which [_sync_upload_file] writes the temporary
    file: the given one, with an extension added when it has no dot. *)
Definition upload_filename (filename mime_type : string) : string :=
  if negb (has_char "." filename)
  then filename +:+ get_or mime_type extension_map ".bin"
  else filename.

(** The MIME type after the mapping of Google Workspace types at the head
    of [upload_with_semaphore]. *)
Definition export_mime (mime_type : string) : string :=
  if String.eqb mime_type GDOC then DOCX
  else if String.eqb mime_type GSHEET then XLSX
  else if String.eqb mime_type GSLIDES then PPTX
  else mime_type.

(** What [upload_with_semaphore] hands to [upload_file_to_gemini] for one
    file: content, file name and MIME type. *)
Definition prepared (x : extractors) (file_meta : file) (content : bytes)
    : bytes * string * string :=
  let mime_type := export_mime (file_mimeType file_meta) in
  let filename := file_name file_meta in
  if mime_in mime_type OFFICE_MIMES_NEED_CONVERSION
  then convert_office_to_text x content mime_type filename
  else (content, mime_type, filename).

(** What reaches [genai.upload_file]: the content written to the temporary
    file, the name that ends its path, and the MIME type. *)
Definition request (x : extractors) (file_meta : file) (content : bytes)
    : bytes * string * string :=
  let '(content, mime_type, filename) := prepared x file_meta content in
  (content, upload_filename filename mime_type, mime_type).

End GeminiUpload.
(** ** Text extraction and chunk records: [app/services/ingestion.py] *)

Module Processing.
Import Py Json Drive Chroma VectorStore Chunker GeminiUpload.

Abbreviation text := (list ascii).

(** The three parallel lists that the processing functions build. *)
Abbreviation rows := (list string * list metadata * list string)%type.

(** The libraries that read file formats: for a PDF the list of
    [page.extract_text() or ""] over [reader.pages]; the format readers
    with the code around them; [content.decode("utf-8", errors="ignore")],
    which never raises; and [str.isspace] on one character. *)
Record readers : Type := Readers {
  pdf_page_texts : bytes -> result (list text);
  extract_text_from_docx : bytes -> result text;
  extract_text_from_xlsx : bytes -> result text;
  extract_text_from_pptx : bytes -> result text;
  extract_text_from_csv : bytes -> result text;
  extract_text_from_json : bytes -> result text;
  decode_utf8_ignore : bytes -> text;
  isspace : ascii -> bool;
}.

Fixpoint lstrip (space : ascii -> bool) (l : text) : text :=
  match l with
  | c :: l' => if space c then lstrip space l' else l
  | [] => []
  end.

(** [text.strip()] *)
Definition strip (space : ascii -> bool) (l : text) : text :=
  rev (lstrip space (rev (lstrip space l))).

Definition extract_text_from_pdf (r : readers) (content : bytes) : result text :=
  bind (pdf_page_texts r content) (fun texts => Ok (concat texts)).

(** The [for i, page in enumerate(reader.pages, 1)] loop of
    [extract_pdf_pages]; [i] is the number of the first remaining page. *)
Fixpoint number_pages (space : ascii -> bool) (i : nat) (texts : list text)
    : list (nat * text) :=
  match texts with
  | [] => []
  | page_text :: texts' =>
      if truthy_list (strip space page_text)
      then (i, page_text) :: number_pages space (S i) texts'
      else number_pages space (S i) texts'
  end.

Definition extract_pdf_pages (r : readers) (content : bytes)
    : result (list (nat * text)) :=
  bind (pdf_page_texts r content) (fun texts =>
  Ok (number_pages (isspace r) 1 texts)).

Definition TEXT_MIME_TYPES : list string :=
  ["text/plain"; "text/markdown"; "text/html"; "application/rtf"; "text/rtf";
   "text/x-python"; "application/x-python-code"; "text/javascript";
   "application/javascript"; "text/x-java-source"; "text/x-c"; "text/x-c++src";
   "text/x-csharp"; "text/x-go"; "text/x-rust"; "text/x-typescript";
   "application/xml"; "text/xml"; "application/x-yaml"; "text/yaml"].

Definition extract_text (r : readers) (content : bytes) (mime_type : string)
    : result text :=
  if String.eqb mime_type "application/pdf" then extract_text_from_pdf r content
  else if mime_in mime_type [GDOC; DOCX] then extract_text_from_docx r content
  else if String.eqb mime_type "application/msword" then
    match extract_text_from_docx r content with
    | Ok t => Ok t
    | Raise => Ok (decode_utf8_ignore r content)
    end
  else if mime_in mime_type [GSHEET; XLSX] then extract_text_from_xlsx r content
  else if String.eqb mime_type "application/vnd.ms-excel" then
    match extract_text_from_xlsx r content with
    | Ok t => Ok t
    | Raise => Ok []
    end
  else if mime_in mime_type [GSLIDES; PPTX] then extract_text_from_pptx r content
  else if String.eqb mime_type "application/vnd.ms-powerpoint" then
    match extract_text_from_pptx r content with
    | Ok t => Ok t
    | Raise => Ok []
    end
  else if String.eqb mime_type "text/csv" then extract_text_from_csv r content
  else if String.eqb mime_type "application/json"
  then extract_text_from_json r content
  else if mime_in mime_type TEXT_MIME_TYPES
  then Ok (decode_utf8_ignore r content)
  else Ok [].

(** [chunk_text(text)] with the default window and overlap. The window
    advances by 800 characters, so [len(text) + 1] iterations are always
    enough and the fallback is never taken. *)
Definition chunks_of (t : text) : list text :=
  default [] (chunk_text (S (length t)) t CHUNK_SIZE CHUNK_OVERLAP).

Definition chunk_metadata (file : file) (mime_type : string) (i : nat)
    (total_chunks : Z) : metadata :=
  {[ "file_id" := MStr (file_id file);
     "file_name" := MStr (file_name file);
     "file_path" := MStr (default (file_name file) (file_path file));
     "mime_type" := MStr mime_type;
     "chunk_index" := MInt (Z.of_nat i);
     "total_chunks" := MInt total_chunks ]}.

Definition chunk_id (file : file) (i : nat) : string :=
  file_id file +:+ "_chunk_" +:+ pretty i.

(** The [for i, chunk in enumerate(chunks)] loop of
    [process_file_content]; [i] is the index of the first remaining chunk. *)
Fixpoint append_chunks (file : file) (mime_type : string) (total_chunks : Z)
    (i : nat) (chunks : list text) (acc : rows) : rows :=
  match chunks with
  | [] => acc
  | chunk :: chunks' =>
      let '(documents, metadatas, ids) := acc in
      append_chunks file mime_type total_chunks (S i) chunks'
        (documents ++ [string_of_list_ascii chunk],
         metadatas ++ [chunk_metadata file mime_type i total_chunks],
         ids ++ [chunk_id file i])
  end.

Definition page_chunk_metadata (file : file) (chunk_idx page_num : nat)
    (total_pages : Z) (i : nat) : metadata :=
  {[ "file_id" := MStr (file_id file);
     "file_name" := MStr (file_name file);
     "file_path" := MStr (default (file_name file) (file_path file));
     "mime_type" := MStr "application/pdf";
     "chunk_index" := MInt (Z.of_nat chunk_idx);
     "page_number" := MInt (Z.of_nat page_num);
     "total_pages" := MInt total_pages;
     "chunk_in_page" := MInt (Z.of_nat i) ]}.

Definition page_chunk_id (file : file) (page_num i : nat) : string :=
  file_id file +:+ "_page_" +:+ pretty page_num +:+ "_chunk_" +:+ pretty i.

(** The inner loop of [process_pdf_content] over the chunks of one page;
    the counter [chunk_idx] is handed on. *)
Fixpoint append_page_chunks (file : file) (total_pages : Z) (page_num : nat)
    (i : nat) (page_chunks : list text) (chunk_idx : nat) (acc : rows)
    : nat * rows :=
  match page_chunks with
  | [] => (chunk_idx, acc)
  | chunk :: page_chunks' =>
      let '(documents, metadatas, ids) := acc in
      append_page_chunks file total_pages page_num (S i) page_chunks'
        (S chunk_idx)
        (documents ++ [string_of_list_ascii chunk],
         metadatas ++ [page_chunk_metadata file chunk_idx page_num total_pages i],
         ids ++ [page_chunk_id file page_num i])
  end.

(** The outer loop of [process_pdf_content] over the pages. *)
Fixpoint append_pages (file : file) (total_pages : Z) (pages : list (nat * text))
    (chunk_idx : nat) (acc : rows) : rows :=
  match pages with
  | [] => acc
  | (page_num, page_text) :: pages' =>
      let '(chunk_idx', acc') :=
        append_page_chunks file total_pages page_num 0 (chunks_of page_text)
          chunk_idx acc in
      append_pages file total_pages pages' chunk_idx' acc'
  end.

Definition process_pdf_content (r : readers) (file : file) (content : bytes)
    : result rows :=
  bind (extract_pdf_pages r content) (fun pages =>
  if negb (truthy_list pages) then Ok ([], [], [])
  else Ok (append_pages file (len pages) pages 0 ([], [], []))).

Definition process_file_content (r : readers) (file : file) (content : bytes)
    : result rows :=
  let mime_type := file_mimeType file in
  if String.eqb mime_type "application/pdf" then process_pdf_content r file content
  else
    bind (extract_text r content mime_type) (fun t =>
    if negb (truthy_list (strip (isspace r) t)) then Ok ([], [], [])
    else
      let chunks := chunks_of t in
      Ok (append_chunks file mime_type (len chunks) 0 chunks ([], [], []))).

(** [process_batch]: the first file that raises ends the batch. *)
Fixpoint process_batch (r : readers) (items : list (file * option bytes))
    : result (list (rows * bool)) :=
  match items with
  | [] => Ok []
  | (file, None) :: items' =>
      bind (process_batch r items') (fun results =>
      Ok ((([], [], []), false) :: results))
  | (file, Some content) :: items' =>
      bind (process_file_content r file content) (fun processed =>
      bind (process_batch r items') (fun results =>
      Ok ((processed, truthy_list (fst (fst processed))) :: results)))
  end.

(** [await asyncio.gather(...)] without [return_exceptions]: the results in
    task order, or the exception of a task that raised. *)
Fixpoint gather {A : Type} (tasks : list (result A)) : result (list A) :=
  match tasks with
  | [] => Ok []
  | t :: tasks' =>
      bind t (fun a => bind (gather tasks') (fun rest => Ok (a :: rest)))
  end.

(** One round of the inner aggregation loop of [process_files_parallel]. *)
Definition collect (acc : rows * Z) (item : rows * bool) : rows * Z :=
  let '((all_documents, all_metadatas, all_ids), indexed_count) := acc in
  let '((docs, metas, ids), success) := item in
  if success
  then ((all_documents ++ docs, all_metadatas ++ metas, all_ids ++ ids),
        indexed_count + 1)
  else acc.

Definition process_files_parallel (r : readers)
    (downloaded : list (file * option bytes))
    : result (list string * list metadata * list string * Z) :=
  let batch_size := Nat.max 1 (length downloaded / 4) in
  let batches :=
    map (fun i => take batch_size (drop i downloaded))
      (batch_starts (length downloaded) batch_size) in
  bind (gather (map (process_batch r) batches)) (fun batch_results =>
  let '((all_documents, all_metadatas, all_ids), indexed_count) :=
    fold_left (fun acc batch_result => fold_left collect batch_result acc)
      batch_results (([], [], []), 0) in
  Ok (all_documents, all_metadatas, all_ids, indexed_count)).

(** The same aggregation over the files one after the other. *)
Definition process_files_in_order (r : readers)
    (downloaded : list (file * option bytes))
    : result (list string * list metadata * list string * Z) :=
  bind (process_batch r downloaded) (fun results =>
  let '((all_documents, all_metadatas, all_ids), indexed_count) :=
    fold_left collect results (([], [], []), 0) in
  Ok (all_documents, all_metadatas, all_ids, indexed_count)).

(** A download that arrived. *)
Definition has_content (item : file * option bytes) : bool :=
  match snd item with
  | Some _ => true
  | None => false
  end.

(** A world whose processing step is the one of this module. *)
Definition world_of (r : readers) (w : Ingestion.world) : Ingestion.world :=
  Ingestion.World (Ingestion.list_files w) (Ingestion.download w)
    (Ingestion.upload w) (process_files_parallel r) (Ingestion.chroma w)
    (Ingestion.json_codec w) (Ingestion.utcnow w).

End Processing.
(** ** Ingestion of a single file: [app/services/ingestion.py] *)

Module SingleFile.
Import Py Json Drive Gemini Chroma VectorStore Ingestion Processing.

(** The [file_metadata] dictionary as [ingest_single_file] reads it:
    [name] by subscript, [mimeType] with [.get]. *)
Record file_metadata : Type := FileMetadata {
  md_name : option string;
  md_mimeType : option string;
}.

(** The manifest entry that both paths store. *)
Definition single_manifest_entry (file_id name mime_type : string) (file_size : Z)
    : json :=
  JObj [("id", JStr file_id);
        ("name", JStr name);
        ("path", JStr name);
        ("mime_type", JStr mime_type);
        ("size", JInt file_size)].

(** [gemini_files and gemini_files[0].get("gemini_uri")] *)
Definition first_upload_ok (gemini_files : list uploaded) : bool :=
  match gemini_files with
  | f :: _ => truthy_uri f
  | [] => false
  end.

(** The body of the [try] block of [ingest_single_file]. [download_file]
    is [drive_service.download_file] for this run. *)
Definition single_pipeline (w : world) (r : readers)
    (download_file : string -> string -> result bytes)
    (user_id folder_id file_id : string) (file_metadata : file_metadata)
    : M state unit :=
  let mime_type := default "" (md_mimeType file_metadata) in
  content <~ lift (download_file file_id mime_type) ;
  let file_size := if truthy_list content then len content else 0 in
  name <~ lift (match md_name file_metadata with
                | Some name => Ok name
                | None => Raise
                end) ;
  let file_dict := File file_id name (Some name) mime_type (Some (JInt file_size)) in
  returned <~
    (if file_size <? 10 * 1024 * 1024 then
       let gemini_files :=
         upload_files_to_gemini (upload w) [(file_dict, Some content)] in
       if first_upload_ok gemini_files then
         let single_manifest :=
           [single_manifest_entry file_id name mime_type file_size] in
         _ <~ on_snd (store_file_manifest (chroma w) (json_codec w)
                        user_id folder_id single_manifest) ;
         _ <~ update_folder (fun _ =>
                mkFolder FolderStatus.READY (Some IndexMode.gemini_files) 1
                  (Some (utcnow w)) (Some gemini_files)) ;
         ret true
       else ret false
     else ret false) ;
  if returned then ret tt
  else
    processed <~ lift (process_file_content r file_dict content) ;
    let '(documents, metadatas, ids) := processed in
    if negb (truthy_list documents) then
      update_folder (set_status FolderStatus.FAILED)
    else
      _ <~ on_snd (add_documents (chroma w) user_id folder_id
                     documents metadatas ids) ;
      let file_manifest :=
        [single_manifest_entry file_id name mime_type file_size] in
      _ <~ on_snd (store_file_manifest (chroma w) (json_codec w)
                     user_id folder_id file_manifest) ;
      update_folder (fun folder =>
        mkFolder FolderStatus.READY (Some IndexMode.chroma) 1
          (Some (utcnow w)) (gemini_files folder)).

(** [ingest_single_file(folder_id, user_id, refresh_token, file_id,
    file_metadata)]; [row] is the folder found by the initial query. *)
Definition ingest_single_file (w : world) (r : readers)
    (download_file : string -> string -> result bytes)
    (folder_id user_id file_id : string) (file_metadata : file_metadata)
    (row : option Folder) (cl : client) : option Folder * client * exit :=
  match row with
  | None => (None, cl, Returned)
  | Some folder =>
      match single_pipeline w r download_file user_id folder_id file_id
              file_metadata (set_status FolderStatus.INDEXING folder, cl) with
      | (s, Ok _) => (Some (fst s), snd s, Returned)
      | (s, Raise) => (Some (set_status FolderStatus.FAILED (fst s)), snd s, Raised)
      end
  end.

(** The same world with another upload behaviour. *)
Definition with_upload (upload' : file -> bytes -> result string) (w : world)
    : world :=
  World (list_files w) (download w) upload' (Ingestion.process_files_parallel w)
    (chroma w) (json_codec w) (utcnow w).

End SingleFile.
(** ** Drive listing: [app/services/google_drive.py] *)

Module DriveListing.
Import Py Json Drive.

Definition FOLDER_MIME : string := "application/vnd.google-apps.folder".

Definition SUPPORTED_MIME_TYPES : list (string * string) :=
  [("application/pdf", "pdf");
   ("application/vnd.google-apps.document", "gdoc");
   ("application/vnd.google-apps.spreadsheet", "gsheet");
   ("application/vnd.google-apps.presentation", "gslides");
   ("application/vnd.openxmlformats-officedocument.wordprocessingml.document", "docx");
   ("application/vnd.openxmlformats-officedocument.spreadsheetml.sheet", "xlsx");
   ("application/vnd.openxmlformats-officedocument.presentationml.presentation", "pptx");
   ("application/msword", "doc");
   ("application/vnd.ms-excel", "xls");
   ("application/vnd.ms-powerpoint", "ppt");
   ("text/plain", "txt");
   ("text/markdown", "md");
   ("text/csv", "csv");
   ("text/html", "html");
   ("application/json", "json");
   ("application/rtf", "rtf");
   ("text/rtf", "rtf");
   ("text/x-python", "py");
   ("application/x-python-code", "py");
   ("text/javascript", "js");
   ("application/javascript", "js");
   ("text/x-java-source", "java");
   ("text/x-c", "c");
   ("text/x-c++src", "cpp");
   ("text/x-csharp", "cs");
   ("text/x-go", "go");
   ("text/x-rust", "rs");
   ("text/x-typescript", "ts");
   ("application/xml", "xml");
   ("text/xml", "xml");
   ("application/x-yaml", "yaml");
   ("text/yaml", "yaml");
   ("image/png", "png");
   ("image/jpeg", "jpg");
   ("image/jpg", "jpg");
   ("image/gif", "gif");
   ("image/webp", "webp");
   ("image/heic", "heic");
   ("image/heif", "heif");
   ("video/mp4", "mp4");
   ("video/quicktime", "mov");
   ("audio/mpeg", "mp3");
   ("audio/wav", "wav")].

(** [mime in SUPPORTED_MIME_TYPES] *)
Definition supported (mime : string) : bool :=
  existsb (fun kv => String.eqb (fst kv) mime) SUPPORTED_MIME_TYPES.

(** One entry of the [files] of a page of the Drive API; the code reads
    [id] and [name] by subscript and the other keys with [.get]. *)
Record raw_file : Type := RawFile {
  raw_id : string;
  raw_name : string;
  raw_mimeType : option string;
  raw_size : option json;
}.

(** One answer of [service.files().list(...).execute()]. *)
Record page : Type := Page {
  page_files : option (list raw_file);
  nextPageToken : option string;
}.

(** What [_list_single_folder] returns: the files, and the subfolders as
    pairs of id and path. *)
Abbreviation listing := (list file * list (string * string))%type.

(** [f"{path}/{file['name']}" if path else file["name"]] *)
Definition path_of (path name : string) : string :=
  if negb (String.eqb path "") then path +:+ "/" +:+ name else name.

(** The [for file in raw_files] loop of [_list_single_folder]. *)
Fixpoint classify (path : string) (raw_files : list raw_file) (acc : listing)
    : listing :=
  match raw_files with
  | [] => acc
  | f :: raw_files' =>
      let file_path := path_of path (raw_name f) in
      let mime := default "unknown" (raw_mimeType f) in
      classify path raw_files'
        (if String.eqb mime FOLDER_MIME
         then (fst acc, snd acc ++ [(raw_id f, file_path)])
         else if supported mime
         then (fst acc ++ [File (raw_id f) (raw_name f) (Some file_path) mime
                             (raw_size f)],
               snd acc)
         else acc)
  end.

(** [if not page_token: break] *)
Definition more_pages (token : option string) : bool :=
  match token with
  | Some t => negb (String.eqb t "")
  | None => false
  end.

(** The [while True] loop of [_list_single_folder]; [api] is one call of
    the Drive API for a folder id and a page token. [None] means that
    [fuel] pages were not enough. *)
Fixpoint list_pages (api : string -> option string -> result page) (fuel : nat)
    (folder_id path : string) (page_token : option string) (acc : listing)
    : option (result listing) :=
  match fuel with
  | O => None
  | S fuel' =>
      match api folder_id page_token with
      | Raise => Some Raise
      | Ok result =>
          let raw_files := default [] (page_files result) in
          let acc := classify path raw_files acc in
          let page_token := nextPageToken result in
          if more_pages page_token
          then list_pages api fuel' folder_id path page_token acc
          else Some (Ok acc)
      end
  end.

Definition _list_single_folder (api : string -> option string -> result page)
    (fuel : nat) (folder_id path : string) : option (result listing) :=
  list_pages api fuel folder_id path None ([], []).

(** The [for result in results] loop of [list_files]: a listing that
    raised is passed over. *)
Fixpoint merge (results : list (result listing)) (all_files : list file)
    (subfolders : list (string * string)) : listing :=
  match results with
  | [] => (all_files, subfolders)
  | Raise :: results' => merge results' all_files subfolders
  | Ok (sub_files, new_subfolders) :: results' =>
      merge results' (all_files ++ sub_files) (subfolders ++ new_subfolders)
  end.

(** The [while subfolders] loop of [list_files]; [single] is
    [self._list_single_folder] in this run. *)
Fixpoint walk (single : string -> string -> result listing) (fuel : nat)
    (subfolders : list (string * string)) (all_files : list file)
    : option (list file) :=
  match fuel with
  | O => None
  | S fuel' =>
      if truthy_list subfolders then
        let batch := take 10 subfolders in
        let subfolders := drop 10 subfolders in
        let results := map (fun sub => single (fst sub) (snd sub)) batch in
        let '(all_files, subfolders) := merge results all_files subfolders in
        walk single fuel' subfolders all_files
      else Some all_files
  end.

Definition list_files (single : string -> string -> result listing) (fuel : nat)
    (folder_id : string) (recursive : bool) : option (result (list file)) :=
  match single folder_id "" with
  | Raise => Some Raise
  | Ok (files, subfolders) =>
      let all_files := [] ++ files in
      if recursive && truthy_list subfolders
      then option_map Ok (walk single fuel subfolders all_files)
      else Some (Ok all_files)
  end.

(** The entries of the API that [_list_single_folder] keeps as files, and
    the ones it keeps as subfolders. *)
Definition is_folder (f : raw_file) : bool :=
  String.eqb (default "unknown" (raw_mimeType f)) FOLDER_MIME.

Definition is_supported_file (f : raw_file) : bool :=
  negb (is_folder f) && supported (default "unknown" (raw_mimeType f)).

Definition kept_file (path : string) (f : raw_file) : file :=
  File (raw_id f) (raw_name f) (Some (path_of path (raw_name f)))
    (default "unknown" (raw_mimeType f)) (raw_size f).

(** The answers of the API for a folder form the pages [pages], the last
    of which carries no further token. *)
Fixpoint paged (api : string -> option string -> result page) (folder_id : string)
    (page_token : option string) (pages : list page) : Prop :=
  match pages with
  | [] => False
  | p :: pages' =>
      api folder_id page_token = Ok p /\
      if more_pages (nextPageToken p)
      then paged api folder_id (nextPageToken p) pages'
      else pages' = []
  end.

(** The folders that [list_files] can come to list: the root, and the
    subfolders of a folder it can come to list whose listing returns. *)
Inductive reachable (single : string -> string -> result listing)
    (root : string) : string * string -> Prop :=
| reachable_root : reachable single root (root, "")
| reachable_sub (parent sub : string * string) (files : list file)
    (subfolders : list (string * string)) :
    reachable single root parent ->
    single (fst parent) (snd parent) = Ok (files, subfolders) ->
    sub ∈ subfolders ->
    reachable single root sub.

(** A file of the listing of a folder that the walk can reach. *)
Definition listed (single : string -> string -> result listing) (root : string)
    (f : file) : Prop :=
  exists x fs ss,
    reachable single root x /\ single (fst x) (snd x) = Ok (fs, ss) /\ f ∈ fs.

(** The folders in [seen] have been listed: their files are in
    [all_files] and their subfolders are seen or queued. *)
Definition settled (single : string -> string -> result listing)
    (seen queue : list (string * string)) (all_files : list file) : Prop :=
  forall x fs ss, x ∈ seen -> single (fst x) (snd x) = Ok (fs, ss) ->
    (forall f, f ∈ fs -> f ∈ all_files) /\
    (forall s, s ∈ ss -> s ∈ seen \/ s ∈ queue).

(** The number of listings that the walk from a folder makes, when the
    folders below it are finitely many. *)
Inductive weighs (single : string -> string -> result listing)
    : string * string -> nat -> Prop :=
| weighs_raise (x : string * string) :
    single (fst x) (snd x) = Raise -> weighs single x 1
| weighs_ok (x : string * string) (files : list file)
    (subfolders : list (string * string)) (ns : list nat) :
    single (fst x) (snd x) = Ok (files, subfolders) ->
    Forall2 (weighs single) subfolders ns ->
    weighs single x (S (list_sum ns)).

End DriveListing.
(** ** Further example data *)

Module MoreExamples.
Import Py Json Drive Chroma VectorStore.

Definition three_documents : list string := ["alpha"; "beta"; "gamma"].

Definition three_metadatas : list metadata :=
  [Examples.chunk_metadata; Examples.chunk_metadata; Examples.chunk_metadata].

Definition three_ids : list string := ["a"; "b"; "c"].

Definition two_descriptors : list json :=
  [Examples.example_descriptor 1; Examples.example_descriptor 2].






Definition list_call : list (string * json) := [("tool", JStr "list_files")].

(** Readers for which no Office file can be read and every PDF has three
    pages, the second of them blank. *)
Definition plain_readers : Processing.readers :=
  Processing.Readers
    (fun _ => Ok [Chunker.text_of "Page one."; Chunker.text_of "   ";
                  Chunker.text_of "Page three."])
    (fun _ => Raise) (fun _ => Raise) (fun _ => Raise)
    (fun _ => Ok []) (fun _ => Ok [])
    (map ascii_of_byte) PyInt.is_space.

Definition hi : bytes := [Byte.x68; Byte.x69].

Definition pdf_file : file :=
  File "id-pdf" "paper.pdf" (Some "docs/paper.pdf") "application/pdf" (Some (JStr "2")).

(** Two files of 20 MB each, too large for the fast path. *)
Definition big_docx : file :=
  File "id-docx" "big.docx" (Some "big.docx") GeminiUpload.DOCX
    (Some (JStr "20000000")).

Definition big_text : file :=
  File "id-big" "big.txt" (Some "big.txt") "text/plain" (Some (JStr "20000000")).

(** A content of exactly 10 MiB. *)
Definition ten_mebibytes : bytes :=
  replicate (Z.to_nat Gemini.MAX_FILE_SIZE_BYTES) Byte.x00.

Definition single_metadata : SingleFile.file_metadata :=
  SingleFile.FileMetadata (Some "big.bin") (Some "application/octet-stream").

(** A folder that the Drive API answers in two pages. *)
Definition first_page : DriveListing.page :=
  DriveListing.Page
    (Some [DriveListing.RawFile "f1" "notes.txt" (Some "text/plain") (Some (JStr "12"));
           DriveListing.RawFile "d1" "archive" (Some DriveListing.FOLDER_MIME) None])
    (Some "page-2").

Definition second_page : DriveListing.page :=
  DriveListing.Page
    (Some [DriveListing.RawFile "f2" "setup.exe" (Some "application/x-msdownload") None;
           DriveListing.RawFile "f3" "paper.pdf" (Some "application/pdf")
             (Some (JStr "2048"))])
    None.

Definition two_page_api (folder_id : string) (page_token : option string)
    : result DriveListing.page :=
  match page_token with
  | None => Ok first_page
  | Some _ => Ok second_page
  end.

End MoreExamples.
(** * Theorems *)

(** ** Chunker *)

Example chunk_text_short :
  Chunker.chunk_text 0 (Chunker.text_of "hello") Chunker.CHUNK_SIZE Chunker.CHUNK_OVERLAP
  = Some [Chunker.text_of "hello"].
Proof. reflexivity. Qed.

Example chunk_text_abcdefghij :
  Chunker.chunk_text 10 (Chunker.text_of "abcdefghij") 4 1
  = Some (map Chunker.text_of ["abcd"; "defg"; "ghij"; "j"]%string).
Proof. reflexivity. Qed.

Example join_abcdefghij :
  Chunker.join_without_overlap 1
    (map Chunker.text_of ["abcd"; "defg"; "ghij"; "j"]%string)
  = Chunker.text_of "abcdefghij".
Proof. reflexivity. Qed.

Section ChunkerFacts.
Import Py Chunker.
Context {A : Type}.
Implicit Types (text : list A) (chunks : list (list A)).

Lemma take_min_length (l : list A) (k : nat) :
  take (k `min` length l) l = take k l.
Proof.
  destruct (Nat.le_gt_cases k (length l)) as [Hle|Hgt].
  - by rewrite Nat.min_l.
  - rewrite Nat.min_r by lia. rewrite !take_ge by lia. done.
Qed.

(** A slice whose start lies inside the text and whose width is not negative
    is the window of that width at that offset. *)
Lemma slice_window text (a w : Z) :
  0 <= a <= len text -> 0 <= w ->
  slice text a (a + w) = take (Z.to_nat w) (drop (Z.to_nat a) text).
Proof.
  intros Ha Hw. unfold slice, slice_index.
  destruct (Z.ltb_spec a 0) as [?|_]; [lia|].
  destruct (Z.ltb_spec (a + w) 0) as [?|_]; [lia|].
  rewrite (Z.min_l a) by lia.
  rewrite <- (take_min_length (drop _ _) (Z.to_nat w)). f_equal.
  rewrite length_drop. unfold len in *. lia.
Qed.

Lemma ceil_div_step (n s : Z) :
  0 < s -> 0 < n -> Z.to_nat (ceil_div n s) = S (Z.to_nat (ceil_div (n - s) s)).
Proof.
  intros Hs Hn. unfold ceil_div.
  replace (n + s - 1) with ((n - s + s - 1) + 1 * s) by lia.
  rewrite Z.div_add by lia.
  assert (0 <= (n - s + s - 1) / s) by (apply Z.div_pos; lia).
  lia.
Qed.

Lemma ceil_div_nonpos (n s : Z) :
  0 < s -> n <= 0 -> Z.to_nat (ceil_div n s) = 0%nat.
Proof.
  intros Hs Hn. unfold ceil_div.
  assert ((n + s - 1) / s <= 0); [|lia].
  assert ((n + s - 1) / s < 1); [|lia].
  apply Z.div_lt_upper_bound; lia.
Qed.

Lemma windows_S text chunk_size step start n :
  windows text chunk_size step start (S n) =
  slice text start (start + chunk_size) ::
  windows text chunk_size step (start + step) n.
Proof.
  unfold windows. cbn [seq map]. f_equal.
  - f_equal; lia.
  - rewrite <- seq_shift, map_map. apply map_ext. intros j. f_equal; lia.
Qed.

(** With a positive step the loop stops after [ceil((len - start) / step)]
    further iterations, having appended exactly the windows at the offsets
    it visited. *)
Lemma chunk_loop_windows text chunk_size overlap :
  0 < chunk_size - overlap ->
  forall fuel start chunks,
    (Z.to_nat (ceil_div (len text - start) (chunk_size - overlap)) < fuel)%nat ->
    chunk_loop fuel text chunk_size overlap start chunks =
    Some (chunks ++ windows text chunk_size (chunk_size - overlap) start
            (Z.to_nat (ceil_div (len text - start) (chunk_size - overlap)))).
Proof.
  intros Hs. induction fuel as [|fuel IH]; intros start chunks Hfuel; [lia|].
  cbn [chunk_loop]. destruct (Z.ltb_spec start (len text)) as [Hlt|Hge].
  - rewrite ceil_div_step in * by lia.
    rewrite windows_S.
    replace (start + chunk_size - overlap) with (start + (chunk_size - overlap)) by lia.
    replace (len text - start - (chunk_size - overlap))
      with (len text - (start + (chunk_size - overlap))) in * by lia.
    rewrite IH by lia. by rewrite <- app_assoc.
  - rewrite ceil_div_nonpos by lia. unfold windows. cbn. by rewrite app_nil_r.
Qed.

(** A result, once produced, does not depend on the fuel. *)
Lemma chunk_loop_fuel_mono text chunk_size overlap fuel :
  forall start chunks r fuel',
    chunk_loop fuel text chunk_size overlap start chunks = Some r ->
    (fuel <= fuel')%nat ->
    chunk_loop fuel' text chunk_size overlap start chunks = Some r.
Proof.
  induction fuel as [|fuel IH]; intros start chunks r fuel' Hr Hle; [discriminate|].
  destruct fuel' as [|fuel']; [lia|]. cbn [chunk_loop] in *.
  destruct (start <? len text); [|done]. apply IH; [done|lia].
Qed.

Lemma chunk_text_fuel_mono text chunk_size overlap fuel fuel' r :
  chunk_text fuel text chunk_size overlap = Some r ->
  (fuel <= fuel')%nat ->
  chunk_text fuel' text chunk_size overlap = Some r.
Proof.
  unfold chunk_text. destruct (len text <=? chunk_size); [done|].
  intros. by eapply chunk_loop_fuel_mono.
Qed.

Lemma chunk_text_fuel_unique text chunk_size overlap fuel fuel' r r' :
  chunk_text fuel text chunk_size overlap = Some r ->
  chunk_text fuel' text chunk_size overlap = Some r' ->
  r = r'.
Proof.
  intros Hr Hr'.
  destruct (Nat.le_ge_cases fuel fuel') as [Hle|Hle].
  - eapply chunk_text_fuel_mono in Hr; [|exact Hle]. congruence.
  - eapply chunk_text_fuel_mono in Hr'; [|exact Hle]. congruence.
Qed.


End ChunkerFacts.

Section ChunkerClaims.
Import Py Chunker.
Context {A : Type}.
Implicit Types (text : list A) (chunks : list (list A)).

Lemma ceil_div_bounds (n s : Z) :
  0 < s -> 0 < n -> (ceil_div n s - 1) * s < n <= ceil_div n s * s.
Proof.
  intros Hs Hn. unfold ceil_div.
  pose proof (Z.div_mod (n + s - 1) s ltac:(lia)) as Hdm.
  pose proof (Z.mod_pos_bound (n + s - 1) s Hs) as Hmod.
  nia.
Qed.

(** Consecutive windows of width [s] laid end to end are one long window. *)
Lemma concat_adjacent_windows (l : list A) (b s m : nat) :
  concat (map (fun i => take s (drop (b + i * s) l)) (seq 0 m)) =
  take (m * s) (drop b l).
Proof.
  induction m as [|m IH]; [done|].
  rewrite seq_S, map_app, concat_app, IH. cbn [map concat Nat.add].
  rewrite app_nil_r.
  replace (S m * s)%nat with (m * s + s)%nat by lia.
  rewrite <- take_take_drop. by rewrite drop_drop.
Qed.

Lemma drop_window (l : list A) (a w o : nat) :
  (o <= w)%nat -> drop o (take w (drop a l)) = take (w - o) (drop (a + o) l).
Proof.
  intros Ho. rewrite <- drop_drop.
  rewrite (take_drop_commute (drop a l) (w - o) o). do 2 f_equal. lia.
Qed.

(** The windows of a text, with offsets and widths as naturals. *)
Lemma windows_nat text (chunk_size step : Z) (n : nat) :
  0 <= chunk_size -> 0 <= step -> (Z.of_nat n - 1) * step < len text ->
  windows text chunk_size step 0 n =
  map (fun j => take (Z.to_nat chunk_size) (drop (j * Z.to_nat step) text)) (seq 0 n).
Proof.
  intros Hw Hs Hn. unfold windows. apply map_ext_in. intros j Hj.
  apply in_seq in Hj. rewrite slice_window; [|nia|lia].
  do 2 f_equal. lia.
Qed.

Lemma join_windows text (w s o m : nat) :
  (o <= w)%nat -> (w = s + o)%nat -> (length text <= w + m * s)%nat ->
  join_without_overlap (Z.of_nat o)
    (map (fun j => take w (drop (j * s) text)) (seq 0 (S m))) = text.
Proof.
  intros Ho Hw Hlen. cbn [seq map join_without_overlap].
  rewrite Nat2Z.id, drop_0, <- seq_shift, !map_map.
  rewrite (map_ext _ (fun i => take s (drop (w + i * s) text))).
  - rewrite concat_adjacent_windows, take_take_drop. apply take_ge. lia.
  - intros i. rewrite drop_window by lia. f_equal; [lia|f_equal; lia].
Qed.

(** C1 (as amended). For [0 <= overlap < chunk_size]: a text no longer than
    the window comes back as the single chunk [[text]]; a longer text gives
    exactly [ceil(len(text) / (chunk_size - overlap))] chunks, the [k]-th
    being the window of width [chunk_size] at offset
    [k * (chunk_size - overlap)], so that its length is
    [min(chunk_size, len(text) - k * (chunk_size - overlap))]; and the first
    chunk followed by the later chunks without their first [overlap]
    characters is the text again. *)
Theorem chunk_text_windows text (chunk_size overlap : Z) :
  0 <= overlap < chunk_size ->
  (len text <= chunk_size ->
     forall fuel, chunk_text fuel text chunk_size overlap = Some [text]) /\
  (chunk_size < len text ->
     exists chunks,
       (forall fuel,
          (Z.to_nat (ceil_div (len text) (chunk_size - overlap)) < fuel)%nat ->
          chunk_text fuel text chunk_size overlap = Some chunks) /\
       len chunks = ceil_div (len text) (chunk_size - overlap) /\
       (forall (k : nat) c, chunks !! k = Some c ->
          c = slice text (Z.of_nat k * (chunk_size - overlap))
                (Z.of_nat k * (chunk_size - overlap) + chunk_size) /\
          len c = Z.min chunk_size (len text - Z.of_nat k * (chunk_size - overlap))) /\
       join_without_overlap overlap chunks = text).
Proof.
  intros Ho. split.
  - intros Hle fuel. unfold chunk_text.
    destruct (Z.leb_spec (len text) chunk_size); [done|lia].
  - intros Hlt.
    set (s := chunk_size - overlap). assert (0 < s) as Hs by (unfold s; lia).
    set (n := Z.to_nat (ceil_div (len text) s)).
    pose proof (ceil_div_bounds (len text) s Hs ltac:(lia)) as Hb.
    assert (Z.of_nat n = ceil_div (len text) s) as Hn by (unfold n; nia).
    exists (windows text chunk_size s 0 n). split; [|split; [|split]].
    + intros fuel Hfuel. unfold chunk_text.
      destruct (Z.leb_spec (len text) chunk_size); [lia|].
      rewrite chunk_loop_windows; rewrite ?Z.sub_0_r; done.
    + unfold len at 1, windows. rewrite length_map, length_seq. done.
    + intros k c Hk. unfold windows in Hk.
      apply list_lookup_fmap_Some_1 in Hk as (j & Hc & Hj).
      apply lookup_seq in Hj as [-> Hkn]. subst c.
      cbn [Nat.add]. rewrite Z.add_0_l. split; [done|].
      rewrite slice_window by nia.
      unfold len. rewrite length_take, length_drop. unfold len in *. nia.
    + rewrite windows_nat by lia.
      destruct n as [|m]; [nia|].
      replace overlap with (Z.of_nat (Z.to_nat overlap)) at 1 by lia.
      apply join_windows; unfold len in *; lia.
Qed.


End ChunkerClaims.

Lemma chunk_text_windows_witness :
  exists chunks,
    (forall fuel, (4 < fuel)%nat ->
       Chunker.chunk_text fuel (Chunker.text_of "abcd") 3 2 = Some chunks) /\
    Py.len chunks = 4 /\
    Chunker.join_without_overlap 2 chunks = Chunker.text_of "abcd".
Proof.
  destruct (chunk_text_windows (Chunker.text_of "abcd") 3 2 ltac:(lia))
    as [_ Hlong].
  destruct (Hlong ltac:(vm_compute; reflexivity)) as (chunks & Hrun & Hlen & _ & Hjoin).
  exists chunks. split; [exact Hrun|split; [exact Hlen|exact Hjoin]].
Defined.

(** C1, as stated, fails on the text [abcd] with window 3 and overlap 2: the
    code returns the four chunks [abc], [bcd], [cd], [d], not
    [ceil((4 - 2) / (3 - 2)) = 2], and the third chunk is not the last yet is
    shorter than the window. *)
Lemma chunk_text_claimed_count_fails :
  Py.len (Chunker.text_of "abcd") > 3 /\ 2 < 3 /\
  Chunker.chunk_text 5 (Chunker.text_of "abcd") 3 2 =
    Some (map Chunker.text_of ["abc"; "bcd"; "cd"; "d"]%string) /\
  ~ (exists fuel chunks,
       Chunker.chunk_text fuel (Chunker.text_of "abcd") 3 2 = Some chunks /\
       Py.len chunks = Chunker.ceil_div (Py.len (Chunker.text_of "abcd") - 2) (3 - 2)) /\
  ~ (exists fuel chunks,
       Chunker.chunk_text fuel (Chunker.text_of "abcd") 3 2 = Some chunks /\
       forall (k : nat) c, chunks !! k = Some c -> (S k < length chunks)%nat ->
         Py.len c = 3).
Proof.
  assert (Chunker.chunk_text 5 (Chunker.text_of "abcd") 3 2 =
          Some (map Chunker.text_of ["abc"; "bcd"; "cd"; "d"]%string)) as Hrun
    by reflexivity.
  split; [vm_compute; reflexivity|]. split; [lia|]. split; [exact Hrun|]. split.
  - intros (fuel & chunks & Hc & Hlen).
    rewrite (chunk_text_fuel_unique _ _ _ _ _ _ _ Hc Hrun) in Hlen.
    vm_compute in Hlen. discriminate.
  - intros (fuel & chunks & Hc & Hall).
    rewrite (chunk_text_fuel_unique _ _ _ _ _ _ _ Hc Hrun) in Hall.
    specialize (Hall 2%nat (Chunker.text_of "cd") eq_refl ltac:(vm_compute; lia)).
    vm_compute in Hall. discriminate.
Qed.



(** ** Path selector *)

Section PathSelectorFacts.
Import Py Json Drive Gemini.

Lemma sum_from (xs : list Z) (a : Z) : fold_left Z.add xs a = a + sum xs.
Proof.
  unfold sum. revert a. induction xs as [|x xs IH]; intros a; cbn [fold_left]; [lia|].
  rewrite (IH (a + x)), (IH (0 + x)). lia.
Qed.

Lemma sum_cons (x : Z) (xs : list Z) : sum (x :: xs) = x + sum xs.
Proof. unfold sum at 1. cbn. apply sum_from. Qed.

Lemma sum_app (xs ys : list Z) : sum (xs ++ ys) = sum xs + sum ys.
Proof.
  induction xs as [|x xs IH]; [done|].
  cbn [app]. rewrite !sum_cons, IH. lia.
Qed.

Lemma no_file_too_large_Forall (files : list file) :
  no_file_too_large files = true <->
  Forall (fun f => _get_file_size f <= MAX_FILE_SIZE_BYTES) files.
Proof.
  induction files as [|f files IH]; cbn [no_file_too_large].
  - split; [constructor|done].
  - destruct (Z.gtb_spec (_get_file_size f) MAX_FILE_SIZE_BYTES) as [Hgt|Hle].
    + split; [done|]. intros H. inversion H; subst. lia.
    + rewrite IH. split; [by constructor|]. intros H. by inversion H.
Qed.

Lemma should_use_fast_path_iff (files : list file) :
  should_use_fast_path files = true <->
  len files <= MAX_FILES_FOR_FAST_PATH /\
  sum (map _get_file_size files) <= MAX_TOTAL_SIZE_BYTES /\
  Forall (fun f => _get_file_size f <= MAX_FILE_SIZE_BYTES) files.
Proof.
  unfold should_use_fast_path.
  destruct (Z.gtb_spec (len files) MAX_FILES_FOR_FAST_PATH) as [Hn|Hn].
  { split; [done|]. intros (? & _). lia. }
  destruct (Z.gtb_spec (sum (map _get_file_size files)) MAX_TOTAL_SIZE_BYTES)
    as [Ht|Ht].
  { split; [done|]. intros (_ & ? & _). lia. }
  rewrite no_file_too_large_Forall. tauto.
Qed.

(** C2. The fast path is chosen exactly when there are at most 50 files,
    their sizes add up to at most 100 MiB and no file is larger than
    10 MiB; a folder of exactly 50 files one of which is exactly 10 MiB is
    accepted, and one more byte or one more file is refused. *)
Theorem should_use_fast_path_spec :
  (forall files : list file,
     should_use_fast_path files = true <->
     len files <= 50 /\
     sum (map _get_file_size files) <= 100 * 1024 * 1024 /\
     Forall (fun f => _get_file_size f <= 10 * 1024 * 1024) files) /\
  len boundary_folder = 50 /\
  _get_file_size (sized "big.pdf" (Some (JStr "10485760"))) = 10 * 1024 * 1024 /\
  should_use_fast_path boundary_folder = true /\
  should_use_fast_path [sized "big.pdf" (Some (JStr "10485761"))] = false /\
  should_use_fast_path (sized "extra.pdf" (Some (JStr "0")) :: boundary_folder) = false.
Proof.
  split; [exact should_use_fast_path_iff|].
  repeat split; vm_compute; reflexivity.
Qed.



End PathSelectorFacts.


(** ** Vector store *)

Example collection_name :
  VectorStore._get_collection_name "7d1c-55" "a0-b1" = "user_7d1c_55_folder_a0_b1"%string.
Proof. reflexivity. Qed.

Example summary_of_two :
  VectorStore.manifest_summary_text 2 ["a.txt"; "b.pdf"]%string
  = "This folder contains 2 files: a.txt, b.pdf"%string.
Proof. reflexivity. Qed.

Example summary_of_fifty_one :
  VectorStore.manifest_summary_text 51 ["a.txt"]%string
  = "This folder contains 51 files: a.txt and 1 more files."%string.
Proof. reflexivity. Qed.

Section VectorStoreFacts.
Import Py Json Chroma VectorStore.

(** The loop only ever appends hits whose metadata is not the manifest's. *)
Lemma collect_hits_not_manifest (results : query_result) (docs : list string) :
  forall (i : nat) (documents out : list hit),
    Forall not_manifest_hit documents ->
    collect_hits results i docs documents = Ok out ->
    Forall not_manifest_hit out.
Proof.
  induction docs as [|doc docs IH]; intros i documents out Hacc Hrun.
  - cbn in Hrun. by injection Hrun as <-.
  - cbn [collect_hits] in Hrun.
    destruct (match truthy_rows (qr_metadatas results) with
              | Some rows => _ | None => _ end) as [meta|]; [|done].
    cbn [bind] in Hrun.
    destruct (decide (meta !! "type" = Some (MStr "manifest"))) as [Hm|Hm].
    + by eapply IH.
    + destruct (match truthy_rows (qr_distances results) with
                | Some rows => _ | None => _ end) as [distance|]; [|done].
      cbn [bind] in Hrun. eapply IH; [|exact Hrun].
      apply Forall_app. split; [done|]. by constructor.
Qed.

(** C5. Whatever the query engine answers, with or without a file-name
    filter, and also when the filtered query raises and the unfiltered one
    is used instead, no hit returned by [search_documents] carries metadata
    of type [manifest]; so no hit is the manifest record of any
    collection. *)
Theorem search_documents_excludes_manifest srv (cl cl' : client)
    (user_id folder_id query_text : string) (n_results : Z)
    (file_name_filter : option string) (hits : list hit) :
  search_documents srv user_id folder_id query_text n_results
    file_name_filter cl = (cl', Ok hits) ->
  Forall not_manifest_hit hits /\
  forall r : record, is_manifest r ->
    Forall (fun h => hit_metadata h <> rec_metadata r) hits.
Proof.
  intros Hrun.
  assert (Forall not_manifest_hit hits) as Hall.
  { unfold search_documents, bindM in Hrun.
    destruct (get_collection srv user_id folder_id cl) as [cl1 [name|]]; [|done].
    destruct (try_except _ _ cl1) as [cl2 [results|]]; [|done].
    destruct (truthy_rows (qr_documents results)) as [[|docs rows]|].
    - injection Hrun as _ <-. constructor.
    - unfold lift in Hrun. injection Hrun as _ Hloop.
      eapply collect_hits_not_manifest; [|exact Hloop]. constructor.
    - injection Hrun as _ <-. constructor. }
  split; [exact Hall|].
  intros r Hr. eapply Forall_impl; [exact Hall|].
  intros h Hh Heq. apply Hh. rewrite Heq. exact Hr.
Qed.

Lemma names_of_Ok (files : list json) :
  Forall (fun f => exists s, name_of f = Ok s) files ->
  exists names, names_of files = Ok names.
Proof.
  induction 1 as [|f files [s Hs] _ [names IH]]; [by eexists|].
  cbn [names_of]. rewrite Hs, IH. by eexists.
Qed.

Lemma manifest_metadata_lookup (manifest_json : string) :
  manifest_metadata manifest_json !! "manifest_json" = Some (MStr manifest_json) /\
  manifest_metadata manifest_json !! "type" = Some (MStr "manifest") /\
  manifest_metadata manifest_json <> ∅.
Proof.
  unfold manifest_metadata. split; [|split].
  - rewrite lookup_insert_ne by done. apply lookup_singleton_eq.
  - apply lookup_insert_eq.
  - apply insert_non_empty.
Qed.

(** C6. On a working store, for every list of descriptors (dictionaries
    with a string name), of any length, that JSON encoding and decoding
    returns unchanged: [store_file_manifest] succeeds, the record it writes
    holds the JSON text of the whole list next to a summary that names at
    most the first 50 files, and [get_file_manifest] on the same user and
    folder returns the stored list. *)
Theorem manifest_round_trip srv (c : codec) (cl : client)
    (user_id folder_id : string) (files : list json) :
  healthy srv OpGetOrCreate = true ->
  healthy srv OpUpsert = true ->
  healthy srv OpGet = true ->
  files <> [] ->
  Forall (fun f => exists s, name_of f = Ok s) files ->
  json_loads c (json_dumps c (JList files)) = Ok (JList files) ->
  exists (cl1 : client) (names : list string),
    store_file_manifest srv c user_id folder_id files cl = (cl1, Ok tt) /\
    get_file_manifest srv c user_id folder_id cl1 = (cl1, Ok (JList files)) /\
    names_of (take 50 files) = Ok names /\
    default ∅ (cl1 !! _get_collection_name user_id folder_id)
      !! manifest_id folder_id =
    Some (Record_ (manifest_summary_text (length files) names)
            (manifest_metadata (json_dumps c (JList files)))).
Proof.
  intros Hgc Hup Hget _ Hnames Hjson.
  destruct (names_of_Ok (take 50 files)) as [names Hn].
  { by apply Forall_take. }
  set (name := _get_collection_name user_id folder_id).
  set (cl0 := match cl !! name with Some _ => cl | None => <[name := ∅]> cl end).
  set (r := Record_ (manifest_summary_text (length files) names)
              (manifest_metadata (json_dumps c (JList files)))).
  set (cl1 := <[name := <[manifest_id folder_id := r]> (default ∅ (cl0 !! name))]> cl0).
  exists cl1, names.
  assert (default ∅ (cl1 !! name) !! manifest_id folder_id = Some r) as Hrec.
  { unfold cl1. rewrite lookup_insert_eq. cbn. apply lookup_insert_eq. }
  split; [|split; [|split]]; [| |exact Hn|exact Hrec].
  - unfold store_file_manifest, bindM, get_collection, get_or_create_collection.
    rewrite Hgc. unfold lift. rewrite Hn.
    unfold upsert. rewrite Hup. cbn. done.
  - unfold get_file_manifest, bindM, get_collection, get_or_create_collection.
    rewrite Hgc. fold name.
    assert (cl1 !! name = Some (<[manifest_id folder_id := r]> (default ∅ (cl0 !! name))))
      as Hcl1 by (unfold cl1; apply lookup_insert_eq).
    rewrite Hcl1.
    unfold try_except, read_manifest, bindM, get_metadatas. rewrite Hget, Hrec.
    destruct (manifest_metadata_lookup (json_dumps c (JList files)))
      as (Hmj & _ & Hne).
    unfold r. cbn [rec_metadata].
    destruct (decide (manifest_metadata (json_dumps c (JList files)) = ∅)); [done|].
    rewrite Hmj. cbn [from_option id]. unfold lift. rewrite Hjson. done.
Qed.

End VectorStoreFacts.

Lemma search_documents_excludes_manifest_witness :
  exists cl',
    VectorStore.search_documents Examples.fallback_server
      "user-1" "folder-1" "what is in file0?" 10 (Some "file0.txt") ∅ =
    (cl', Py.Ok [VectorStore.Hit "chunk text" Examples.chunk_metadata (2 # 10)%Q]) /\
    Forall VectorStore.not_manifest_hit
      [VectorStore.Hit "chunk text" Examples.chunk_metadata (2 # 10)%Q].
Proof.
  eexists. split; [vm_compute; reflexivity|].
  eapply (search_documents_excludes_manifest Examples.fallback_server ∅ _
            "user-1" "folder-1" "what is in file0?" 10 (Some "file0.txt")).
  vm_compute. reflexivity.
Defined.

Lemma manifest_round_trip_witness :
  exists cl1 names,
    VectorStore.store_file_manifest Examples.working_server
      JsonText.reference_codec "user-1" "folder-1" Examples.example_files ∅
      = (cl1, Py.Ok tt) /\
    VectorStore.get_file_manifest Examples.working_server
      JsonText.reference_codec "user-1" "folder-1" cl1
      = (cl1, Py.Ok (Json.JList Examples.example_files)) /\
    VectorStore.names_of (take 50 Examples.example_files) = Py.Ok names /\
    default ∅ (cl1 !! VectorStore._get_collection_name "user-1" "folder-1")
      !! VectorStore.manifest_id "folder-1" =
    Some (Chroma.Record_
            (VectorStore.manifest_summary_text (length Examples.example_files) names)
            (VectorStore.manifest_metadata
               (JsonText.dumps (Json.JList Examples.example_files)))).
Proof.
  apply (manifest_round_trip Examples.working_server JsonText.reference_codec ∅
           "user-1" "folder-1" Examples.example_files).
  - reflexivity.
  - reflexivity.
  - reflexivity.
  - discriminate.
  - apply Forall_fmap, Forall_forall. intros i _. eexists. reflexivity.
  - vm_compute. reflexivity.
Defined.

(** ** Downloader *)

Section DownloaderFacts.
Import Py Drive Downloader.
Implicit Types (ts : list (file * status)) (s : state) (events : list event).

Lemma total_insert (g : file * status -> nat) ts (i : nat) (x y : file * status) :
  ts !! i = Some x ->
  (total g (<[i := y]> ts) + g x = total g ts + g y)%nat.
Proof.
  revert i. induction ts as [|t ts IH]; intros [|i] Hi; try done.
  - injection Hi as ->. cbn. lia.
  - specialize (IH i Hi).
    change (g t + total g (<[i := y]> ts) + g x = g t + total g ts + g y)%nat.
    lia.
Qed.

Lemma fst_insert ts (i : nat) (f : file) (st st' : status) :
  ts !! i = Some (f, st) -> map fst (<[i := (f, st')]> ts) = map fst ts.
Proof.
  revert i. induction ts as [|t ts IH]; intros [|i] Hi; try done; cbn in *.
  - by injection Hi as ->.
  - f_equal. by apply IH.
Qed.

Lemma run_app s events events' :
  run s (events ++ events') =
  match run s events with
  | Some s' => run s' events'
  | None => None
  end.
Proof.
  revert s. induction events as [|e events IH]; intros s; cbn; [done|].
  destruct (step s e); [apply IH|done].
Qed.

Lemma start_invariant (files : list file) (max_concurrent : Z) :
  invariant files max_concurrent [] (start files max_concurrent).
Proof.
  unfold start. split; cbn.
  - rewrite map_map. cbn. apply map_id.
  - induction files; cbn in *; lia.
  - induction files; cbn in *; lia.
  - induction files; cbn in *; lia.
  - intros i f c Hi. rewrite list_lookup_fmap in Hi.
    destruct (files !! i); done.
  - intros i o [].
Qed.

Lemma step_invariant (files : list file) (max_concurrent : Z) events s e s' :
  invariant files max_concurrent events s ->
  step s e = Some s' ->
  invariant files max_concurrent (events ++ [e]) s'.
Proof.
  intros [Hfiles Hpermits Hcompleted Hrank Hdone Hfinished] Hstep.
  destruct e as [i|i o]; cbn in Hstep.
  - destruct (tasks s !! i) as [[f []]|] eqn:Hi; try done.
    destruct (0 <? permits s); [|done]. injection Hstep as <-.
    pose proof (total_insert holds_permit _ _ _ (f, Downloading) Hi) as Hp.
    pose proof (total_insert returned _ _ _ (f, Downloading) Hi) as Hc.
    pose proof (total_insert rank _ _ _ (f, Downloading) Hi) as Hr.
    cbn in Hp, Hc, Hr.
    split; cbn [permits tasks completed].
    + by rewrite (fst_insert _ _ _ _ _ Hi).
    + lia.
    + lia.
    + rewrite length_app. cbn. lia.
    + intros j g c Hj. destruct (decide (i = j)) as [<-|Hne].
      * rewrite list_lookup_insert_eq in Hj by (by eapply lookup_lt_Some). done.
      * rewrite list_lookup_insert_ne in Hj by done.
        destruct (Hdone j g c Hj) as (o & Ho & ->).
        exists o. split; [|done]. apply in_or_app. by left.
    + intros j o Hj. apply in_app_or in Hj as [Hj|[Hj|[]]]; [|done].
      destruct (Hfinished j o Hj) as [g Hg]. exists g.
      rewrite list_lookup_insert_ne; [done|]. intros ->. congruence.
  - destruct (tasks s !! i) as [[f []]|] eqn:Hi; try done.
    injection Hstep as <-.
    pose proof (total_insert holds_permit _ _ _ (f, Done (content_of o)) Hi) as Hp.
    pose proof (total_insert returned _ _ _ (f, Done (content_of o)) Hi) as Hc.
    pose proof (total_insert rank _ _ _ (f, Done (content_of o)) Hi) as Hr.
    cbn in Hp, Hc, Hr.
    split; cbn [permits tasks completed].
    + by rewrite (fst_insert _ _ _ _ _ Hi).
    + lia.
    + lia.
    + rewrite length_app. cbn. lia.
    + intros j g c Hj. destruct (decide (i = j)) as [<-|Hne].
      * rewrite list_lookup_insert_eq in Hj by (by eapply lookup_lt_Some).
        injection Hj as <- <-. exists o. split; [|done].
        apply in_or_app. right. by left.
      * rewrite list_lookup_insert_ne in Hj by done.
        destruct (Hdone j g c Hj) as (o' & Ho & ->).
        exists o'. split; [|done]. apply in_or_app. by left.
    + intros j o' Hj. apply in_app_or in Hj as [Hj|[Hj|[]]].
      * destruct (Hfinished j o' Hj) as [g Hg]. exists g.
        rewrite list_lookup_insert_ne; [done|]. intros ->. congruence.
      * injection Hj as <- <-. exists f.
        apply list_lookup_insert_eq. by eapply lookup_lt_Some.
Qed.

Lemma run_invariant (files : list file) (max_concurrent : Z) events :
  forall s, run (start files max_concurrent) events = Some s ->
    invariant files max_concurrent events s.
Proof.
  induction events as [|e events IH] using rev_ind; intros s Hrun.
  - injection Hrun as <-. apply start_invariant.
  - rewrite run_app in Hrun.
    destruct (run (start files max_concurrent) events) as [s0|]; [|done].
    cbn in Hrun. destruct (step s0 e) as [s1|] eqn:Hstep; [|done].
    injection Hrun as <-. eapply step_invariant; [by apply IH|done].
Qed.

Lemma gather_Some ts (results : list (file * option bytes)) :
  gather ts = Some results ->
  map fst results = map fst ts /\
  total rank ts = 0%nat /\
  total returned ts = length ts /\
  forall (i : nat) f c, results !! i = Some (f, c) <-> ts !! i = Some (f, Done c).
Proof.
  revert results. induction ts as [|[f st] ts IH]; intros results Hg; cbn in Hg.
  - injection Hg as <-. by repeat split.
  - destruct st as [| |content]; try done.
    destruct (gather ts) as [results'|]; [|done]. injection Hg as <-.
    destruct (IH results' eq_refl) as (Hfst & Hrank & Hret & Hlookup).
    split; [by cbn; f_equal|]. split; [exact Hrank|]. split; [by cbn; f_equal|].
    intros [|i] g c; cbn.
    + split; intros [= <- <-]; done.
    + apply Hlookup.
Qed.

Lemma gather_rank_0 ts : total rank ts = 0%nat -> is_Some (gather ts).
Proof.
  induction ts as [|[f st] ts IH]; intros Hr; cbn; [by eexists|].
  change (rank (f, st) + total rank ts = 0)%nat in Hr.
  destruct st as [| |content]; cbn in Hr; try lia.
  destruct IH as [results ->]; [lia|]. by eexists.
Qed.

Lemma holds_permit_pos ts :
  (0 < total holds_permit ts)%nat -> exists i f, ts !! i = Some (f, Downloading).
Proof.
  induction ts as [|[f st] ts IH]; intros Hp; [cbn in Hp; lia|].
  change (0 < holds_permit (f, st) + total holds_permit ts)%nat in Hp.
  destruct st as [| |content]; cbn in Hp.
  - destruct IH as (i & g & Hi); [lia|]. by exists (S i), g.
  - by exists 0%nat, f.
  - destruct IH as (i & g & Hi); [lia|]. by exists (S i), g.
Qed.

Lemma rank_pos ts :
  (0 < total rank ts)%nat ->
  (0 < total holds_permit ts)%nat \/ exists i f, ts !! i = Some (f, Waiting).
Proof.
  induction ts as [|[f st] ts IH]; intros Hr; [cbn in Hr; lia|].
  change (0 < rank (f, st) + total rank ts)%nat in Hr.
  change (total holds_permit ((f, st) :: ts))
    with (holds_permit (f, st) + total holds_permit ts)%nat.
  destruct st as [| |content]; cbn in *.
  - right. by exists 0%nat, f.
  - left. lia.
  - destruct IH as [Hp|(i & g & Hi)]; [lia|by left|].
    right. by exists (S i), g.
Qed.

(** With at least one permit, a call that has not returned can always take
    a step: no interleaving deadlocks. *)
Lemma progress (files : list file) (max_concurrent : Z) events s :
  1 <= max_concurrent ->
  invariant files max_concurrent events s ->
  gather (tasks s) = None ->
  exists e s', step s e = Some s'.
Proof.
  intros Hmax Hinv Hg.
  assert (0 < total rank (tasks s))%nat as Hr.
  { destruct (total rank (tasks s)) eqn:Hr; [|lia].
    apply gather_rank_0 in Hr as [? ?]. congruence. }
  destruct (Nat.eq_dec (total holds_permit (tasks s)) 0%nat) as [Hp|Hp].
  - destruct (rank_pos _ Hr) as [?|(i & f & Hi)]; [lia|].
    exists (Acquire i). cbn. rewrite Hi.
    pose proof (inv_permits _ _ _ _ Hinv) as Hpermits.
    destruct (Z.ltb_spec 0 (permits s)); [by eexists|lia].
  - destruct (holds_permit_pos (tasks s)) as (i & f & Hi); [lia|].
    exists (Finish i Failed). cbn. rewrite Hi. by eexists.
Qed.

(** Every execution can be continued until all tasks have returned. *)
Lemma completes (files : list file) (max_concurrent : Z) :
  1 <= max_concurrent ->
  forall (n : nat) events s,
    invariant files max_concurrent events s ->
    total rank (tasks s) = n ->
    exists events' s', run s events' = Some s' /\ is_Some (gather (tasks s')).
Proof.
  intros Hmax. induction n as [|n IH]; intros events s Hinv Hn.
  - exists [], s. split; [done|]. by apply gather_rank_0.
  - destruct (gather (tasks s)) as [results|] eqn:Hg.
    { apply gather_Some in Hg as (_ & ? & _). lia. }
    destruct (progress _ _ _ _ Hmax Hinv Hg) as (e & s1 & Hstep).
    pose proof (step_invariant _ _ _ _ _ _ Hinv Hstep) as Hinv1.
    destruct (IH (events ++ [e]) s1 Hinv1) as (events' & s' & Hrun & Hdone).
    { pose proof (inv_rank _ _ _ _ Hinv). pose proof (inv_rank _ _ _ _ Hinv1) as H1.
      rewrite length_app in H1. cbn in H1. lia. }
    exists (e :: events'), s'. cbn. rewrite Hstep. done.
Qed.

(** C8. With at least one permit, under every interleaving of the tasks and
    every outcome of the individual downloads: the call never deadlocks and
    returns after exactly two events per file; what it returns is one
    [(file, content)] pair per input descriptor, in input order; and the
    content of each pair is decided by the outcome of that file's own
    download alone, [None] exactly for a timeout or an exception. *)
Theorem download_files_parallel_bijection (files : list file)
    (max_concurrent : Z) events s :
  1 <= max_concurrent ->
  run (start files max_concurrent) events = Some s ->
  (length events <= 2 * length files)%nat /\
  (gather (tasks s) = None -> exists e s', step s e = Some s') /\
  (exists events' results,
     download_files_parallel files max_concurrent (events ++ events') = Some results) /\
  forall results, download_files_parallel files max_concurrent events = Some results ->
    map fst results = files /\
    length results = length files /\
    completed s = length files /\
    (forall (i : nat) f c, results !! i = Some (f, c) ->
       files !! i = Some f /\ exists o, In (Finish i o) events /\ c = content_of o) /\
    (forall (i : nat) o, In (Finish i o) events ->
       exists f, results !! i = Some (f, content_of o)).
Proof.
  intros Hmax Hrun. pose proof (run_invariant _ _ _ _ Hrun) as Hinv.
  split; [|split; [|split]].
  - pose proof (inv_rank _ _ _ _ Hinv). lia.
  - by eapply progress.
  - destruct (completes files max_concurrent Hmax _ events s Hinv eq_refl)
      as (events' & s' & Hrun' & [results Hresults]).
    exists events', results. unfold download_files_parallel.
    by rewrite run_app, Hrun, Hrun'.
  - intros results Hresults. unfold download_files_parallel in Hresults.
    rewrite Hrun in Hresults.
    apply gather_Some in Hresults as (Hfst & Hrank & Hret & Hlookup).
    pose proof (inv_files _ _ _ _ Hinv) as Hfiles.
    split; [congruence|]. split.
    { rewrite <- Hfiles, <- Hfst, !length_map. done. }
    split.
    { rewrite (inv_completed _ _ _ _ Hinv), Hret, <- Hfiles, length_map. done. }
    split.
    + intros i f c Hi. split.
      * rewrite <- Hfiles, <- Hfst, list_lookup_fmap, Hi. done.
      * apply Hlookup in Hi. by eapply inv_done.
    + intros i o Hi. destruct (inv_finished _ _ _ _ Hinv i o Hi) as [f Hf].
      exists f. by apply Hlookup.
Qed.

Lemma gather_app_done (done : list (file * option bytes)) ts :
  gather (map (fun r => (fst r, Done (snd r))) done ++ ts) =
  match gather ts with
  | Some results => Some (done ++ results)
  | None => None
  end.
Proof.
  induction done as [|[f c] done IH]; cbn; [by destruct (gather ts)|].
  rewrite IH. by destruct (gather ts).
Qed.

(** Running the tasks one after the other is an execution, and it returns
    each file with the content its own download produced. *)
Lemma sequential_run (outcomes : file -> outcome) (files : list file) :
  forall (done : list (file * option bytes)) (p : Z) (c : nat),
    1 <= p ->
    run (State p (map (fun r => (fst r, Done (snd r))) done
                  ++ map (fun f => (f, Waiting)) files) c)
        (sequential outcomes (length done) files) =
    Some (State p (map (fun r => (fst r, Done (snd r)))
                     (done ++ map (fun f => (f, content_of (outcomes f))) files))
            (c + length files)).
Proof.
  induction files as [|f files IH]; intros done p c Hp.
  - cbn. by rewrite !app_nil_r, Nat.add_0_r.
  - cbn [sequential map run step tasks permits completed].
    rewrite lookup_app_r by (by rewrite length_map).
    rewrite length_map, Nat.sub_diag. cbn [lookup list_lookup].
    destruct (Z.ltb_spec 0 p); [|lia].
    cbn [run step tasks permits completed].
    rewrite !insert_app_r_alt by (by rewrite length_map).
    rewrite !length_map, Nat.sub_diag. cbn [insert list_insert].
    rewrite lookup_app_r by (by rewrite length_map).
    rewrite length_map, Nat.sub_diag. cbn [lookup list_lookup].
    rewrite !insert_app_r_alt by (by rewrite length_map).
    rewrite !length_map, Nat.sub_diag. cbn [insert list_insert].
    replace (p - 1 + 1) with p by lia.
    specialize (IH (done ++ [(f, content_of (outcomes f))]) p (S c) Hp).
    rewrite length_app, Nat.add_1_r in IH. rewrite map_app in IH. cbn [map fst snd] in IH.
    rewrite <- app_assoc in IH. cbn [app] in IH. rewrite IH.
    rewrite <- app_assoc. cbn [app length]. do 2 f_equal. lia.
Qed.

Lemma download_sequential (outcomes : file -> outcome) (files : list file)
    (max_concurrent : Z) :
  1 <= max_concurrent ->
  download_files_parallel files max_concurrent (sequential outcomes 0 files) =
  Some (map (fun f => (f, content_of (outcomes f))) files).
Proof.
  intros Hmax. unfold download_files_parallel, start.
  pose proof (sequential_run outcomes files [] max_concurrent 0 Hmax) as Hrun.
  cbn [map app length Nat.add] in Hrun. rewrite Hrun. cbn [tasks].
  rewrite <- (app_nil_r (map _ (map _ files))).
  rewrite gather_app_done. cbn. by rewrite app_nil_r.
Qed.

End DownloaderFacts.

Lemma download_files_parallel_bijection_witness :
  Downloader.download_files_parallel Examples.three_files 2 Examples.interleaved
    = Some Examples.interleaved_results /\
  map fst Examples.interleaved_results = Examples.three_files /\
  length Examples.interleaved_results = length Examples.three_files.
Proof.
  assert (Downloader.download_files_parallel Examples.three_files 2
            Examples.interleaved = Some Examples.interleaved_results) as Hres
    by (vm_compute; reflexivity).
  destruct (Downloader.run (Downloader.start Examples.three_files 2)
              Examples.interleaved) as [s|] eqn:Hrun;
    [|vm_compute in Hrun; discriminate].
  destruct (download_files_parallel_bijection Examples.three_files 2
              Examples.interleaved s ltac:(lia) Hrun) as (_ & _ & _ & Hall).
  destruct (Hall _ Hres) as (Hfst & Hlen & _).
  split; [exact Hres|]. split; [exact Hfst|exact Hlen].
Defined.

(** ** Folder ingestion *)

Section IngestionFacts.
Import Py Json Drive Gemini Chroma VectorStore Ingestion.
Implicit Types (w : world) (s : state) (folder : Folder) (cl : client).

Lemma bindM_inv {S A B : Type} (m : M S A) (k : A -> M S B) (s s' : S)
    (r : result B) :
  bindM m k s = (s', r) ->
  (exists (s1 : S) (a : A), m s = (s1, Ok a) /\ k a s1 = (s', r)) \/
  (m s = (s', Raise) /\ r = Raise).
Proof.
  unfold bindM. destruct (m s) as [s1 [a|]].
  - intros Hk. left. by exists s1, a.
  - intros [= <- <-]. by right.
Qed.

Lemma on_snd_fst {A : Type} (m : M client A) s s' (r : result A) :
  on_snd m s = (s', r) -> fst s' = fst s.
Proof.
  unfold on_snd. destruct (m (snd s)) as [cl' r']. by intros [= <- _].
Qed.

(** The list of downloads that the pipeline works on is what
    [download_files_parallel] returns under the outcomes of this run. *)
Lemma downloaded_files_is_a_download w (files : list file) :
  Downloader.download_files_parallel files 10
    (Downloader.sequential (download w) 0 files) = Some (downloaded_files w files).
Proof. by apply download_sequential. Qed.

(** The manifest of a fast-path run can always be written on a working
    store: every entry has a name. *)
Lemma names_of_fast_manifest (ups : list uploaded) :
  names_of (map fast_manifest_entry ups) = Ok (map up_name ups).
Proof.
  induction ups as [|u ups IH]; [done|]. cbn [map names_of].
  rewrite IH. done.
Qed.

Lemma names_of_take (files : list json) (names : list string) (n : nat) :
  names_of files = Ok names -> names_of (take n files) = Ok (take n names).
Proof.
  revert files names. induction n as [|n IH]; intros files names Hn.
  - by rewrite !take_0.
  - destruct files as [|f files]; cbn in Hn.
    + by injection Hn as <-.
    + destruct (name_of f) as [name|] eqn:Hf; [|done]. cbn [bind] in Hn.
      destruct (names_of files) as [names'|] eqn:Hfs; [|done].
      injection Hn as <-. cbn. rewrite Hf. cbn [bind].
      rewrite (IH files names' Hfs). done.
Qed.

Lemma store_fast_manifest_Ok w user_id folder_id (ups : list uploaded) cl :
  healthy (chroma w) OpGetOrCreate = true ->
  healthy (chroma w) OpUpsert = true ->
  exists cl',
    store_file_manifest (chroma w) (json_codec w) user_id folder_id
      (map fast_manifest_entry ups) cl = (cl', Ok tt).
Proof.
  intros Hgc Hup.
  unfold store_file_manifest, bindM, get_collection, get_or_create_collection, lift.
  rewrite Hgc.
  rewrite (names_of_take _ _ 50 (names_of_fast_manifest ups)).
  unfold upsert. rewrite Hup. cbn. by eexists.
Qed.

(** The fast path touches the folder row only when it accepts. *)
Lemma fast_path_result w user_id folder_id downloaded s s' (r : result bool) :
  fast_path w user_id folder_id downloaded s = (s', r) ->
  let ups := upload_files_to_gemini (upload w) downloaded in
  (r = Ok true ->
     fast_path_accepted ups = true /\
     fst s' = mkFolder FolderStatus.READY (Some IndexMode.gemini_files)
                (len (successful_uploads ups)) (Some (utcnow w))
                (Some (successful_uploads ups))) /\
  (r <> Ok true -> fst s' = fst s) /\
  (fast_path_accepted ups = false -> s' = s /\ r = Ok false).
Proof.
  unfold fast_path. cbn zeta.
  destruct (fast_path_accepted _) eqn:Hacc.
  - unfold bindM.
    destruct (on_snd _ s) as [s1 [[]|]] eqn:Hstore; cbn.
    + intros [= <- <-]. split; [done|]. split; [done|]. done.
    + intros [= <- <-]. split; [done|]. split; [|done].
      intros _. by eapply on_snd_fst.
  - unfold ret. intros [= <- <-]. split; [done|]. split; done.
Qed.

Lemma rag_path_result w user_id folder_id file_manifest downloaded s s'
    (r : result unit) :
  rag_path w user_id folder_id file_manifest downloaded s = (s', r) ->
  gemini_files (fst s') = gemini_files (fst s) /\
  (r = Raise -> fst s' = fst s) /\
  (r = Ok tt ->
     status (fst s') = FolderStatus.READY /\
     index_mode (fst s') = Some IndexMode.chroma).
Proof.
  unfold rag_path. intros Hrun.
  apply bindM_inv in Hrun as [(s0 & [[[docs metas] ids] n] & Hproc & Hrun)|[Hproc ->]].
  2:{ unfold lift in Hproc. by injection Hproc as <-. }
  unfold lift in Hproc. injection Hproc as <- _.
  apply bindM_inv in Hrun as [(s1 & [] & Hadd & Hrun)|[Hadd ->]].
  2:{ assert (fst s' = fst s) as ->; [|done].
      destruct (truthy_list docs).
      - by eapply on_snd_fst.
      - by injection Hadd as <-. }
  assert (fst s1 = fst s) as H1.
  { destruct (truthy_list docs).
    - by eapply on_snd_fst.
    - by injection Hadd as <-. }
  apply bindM_inv in Hrun as [(s2 & [] & Hstore & Hrun)|[Hstore ->]].
  2:{ apply on_snd_fst in Hstore. rewrite Hstore, H1. done. }
  apply on_snd_fst in Hstore.
  unfold update_folder, modify in Hrun. injection Hrun as <- <-. cbn.
  rewrite Hstore, H1. done.
Qed.

(** Every way through [ingest_folder] ends in [READY] or [FAILED]:
    [READY] on return, [FAILED] when an exception escapes. *)
Lemma pipeline_Ok_ready w user_id folder_id s s' :
  pipeline w user_id folder_id s = (s', Ok tt) ->
  status (fst s') = FolderStatus.READY.
Proof.
  unfold pipeline, bindM, lift.
  destruct (list_files w) as [files|]; [|done].
  destruct (truthy_list files); cbn [negb].
  2:{ unfold update_folder, modify. by intros [= <-]. }
  destruct (should_use_fast_path files).
  - unfold try_except.
    destruct (fast_path w user_id folder_id _ s) as [s1 [[]|]] eqn:Hfast.
    + intros [= <-].
      destruct (fast_path_result _ _ _ _ _ _ _ Hfast) as (Hyes & _).
      destruct (Hyes eq_refl) as (_ & ->). done.
    + intros Hrag. by apply rag_path_result in Hrag as (_ & _ & [? _]).
    + unfold ret. intros Hrag. by apply rag_path_result in Hrag as (_ & _ & [? _]).
  - unfold ret. intros Hrag. by apply rag_path_result in Hrag as (_ & _ & [? _]).
Qed.

(** C3 (as amended). A folder whose listing is empty ends [READY] with a
    file count of 0 and its index mode untouched; a run ends [FAILED]
    exactly when an exception escapes the pipeline, and [READY] exactly
    when it returns. *)
Theorem ingest_folder_terminal_status w (folder_id user_id : string) folder cl :
  exists folder' cl' ex,
    ingest_folder w folder_id user_id (Some folder) cl = (Some folder', cl', ex) /\
    (ex = Raised <-> status folder' = FolderStatus.FAILED) /\
    (ex = Returned <-> status folder' = FolderStatus.READY) /\
    (ex = Raised <->
     exists s, pipeline w user_id folder_id
                 (set_status FolderStatus.INDEXING folder, cl) = (s, Raise)) /\
    (list_files w = Raise -> ex = Raised) /\
    (list_files w = Ok [] ->
       ex = Returned /\ cl' = cl /\
       folder' = mkFolder FolderStatus.READY (index_mode folder) 0
                   (Some (utcnow w)) (gemini_files folder)).
Proof.
  unfold ingest_folder.
  destruct (pipeline w user_id folder_id (set_status FolderStatus.INDEXING folder, cl))
    as [s [[]|]] eqn:Hrun.
  - exists (fst s), (snd s), Returned. split; [done|].
    pose proof (pipeline_Ok_ready _ _ _ _ _ Hrun) as Hready.
    split; [by rewrite Hready|]. split; [done|]. split.
    { split; [done|]. intros [s1 Hs1]. congruence. }
    unfold pipeline, bindM, lift in Hrun. split.
    + intros Hlist. rewrite Hlist in Hrun. done.
    + intros Hlist. rewrite Hlist in Hrun. cbn in Hrun.
      injection Hrun as <-. done.
  - exists (set_status FolderStatus.FAILED (fst s)), (snd s), Raised.
    split; [done|]. split; [done|]. split; [done|]. split.
    { split; [by eexists|done]. }
    unfold pipeline, bindM, lift in Hrun. split; [done|].
    intros Hlist. rewrite Hlist in Hrun. done.
Qed.

Lemma success_rate_half (ups : list uploaded) :
  Qle_bool (1 # 2) (success_rate ups) = true <->
  (0 < length ups)%nat /\ (length ups <= 2 * length (successful_uploads ups))%nat.
Proof.
  rewrite Qle_bool_iff. unfold success_rate.
  destruct (Nat.ltb_spec 0 (length ups)) as [Hpos|Hzero].
  - unfold Qle. cbn [Qnum Qden]. lia.
  - unfold Qle. cbn. lia.
Qed.

Lemma successful_uploads_handles (ups : list uploaded) :
  (forall f, In f ups -> up_gemini_uri f <> Some "") ->
  successful_uploads ups = List.filter has_handle ups.
Proof.
  intros Huri. unfold successful_uploads. apply List.filter_ext_in.
  intros f Hf. specialize (Huri f Hf). unfold truthy_uri, has_handle.
  destruct (up_gemini_uri f) as [uri|]; [|done].
  destruct (String.eqb_spec uri ""); [congruence|done].
Qed.

Lemma fast_path_accepted_iff (ups : list uploaded) :
  fast_path_accepted ups = true <->
  (length ups <= 2 * length (successful_uploads ups))%nat /\
  (1 <= length (successful_uploads ups))%nat.
Proof.
  unfold fast_path_accepted. rewrite andb_true_iff, success_rate_half.
  assert (length (successful_uploads ups) <= length ups)%nat
    by apply List.filter_length_le.
  destruct (successful_uploads ups); cbn [truthy_list length] in *; split;
    intros; try lia; intuition (try lia; try done).
Qed.

(** C4. For a folder that the path selector sends to the fast path, on a
    working vector store and whatever each upload does: the run ends with
    index mode [gemini_files] and status [READY] exactly when at least half
    of the upload results carry a handle and at least one does; otherwise
    it continues as the RAG path does from the state before the attempt,
    and the folder keeps no uploaded files. Acceptance at 50%, 60% and 100%,
    refusal at 0% and 40%. *)
Theorem fast_path_acceptance w (folder_id user_id : string) folder cl
    (files : list file) :
  list_files w = Ok files ->
  files <> [] ->
  should_use_fast_path files = true ->
  healthy (chroma w) OpGetOrCreate = true ->
  healthy (chroma w) OpUpsert = true ->
  exists folder' cl' ex,
    ingest_folder w folder_id user_id (Some folder) cl = (Some folder', cl', ex) /\
    ((index_mode folder' = Some IndexMode.gemini_files /\
      status folder' = FolderStatus.READY) <->
     (length (upload_files_to_gemini (upload w) (downloaded_files w files))
        <= 2 * length (successful_uploads
             (upload_files_to_gemini (upload w) (downloaded_files w files))))%nat /\
     (1 <= length (successful_uploads
             (upload_files_to_gemini (upload w) (downloaded_files w files))))%nat) /\
    ((forall f, In f (upload_files_to_gemini (upload w) (downloaded_files w files)) ->
        up_gemini_uri f <> Some "") ->
     successful_uploads (upload_files_to_gemini (upload w) (downloaded_files w files))
     = List.filter has_handle
         (upload_files_to_gemini (upload w) (downloaded_files w files))) /\
    (fast_path_accepted
       (upload_files_to_gemini (upload w) (downloaded_files w files)) = true ->
     ex = Returned /\
     folder' = mkFolder FolderStatus.READY (Some IndexMode.gemini_files)
       (len (successful_uploads
          (upload_files_to_gemini (upload w) (downloaded_files w files))))
       (Some (utcnow w))
       (Some (successful_uploads
          (upload_files_to_gemini (upload w) (downloaded_files w files))))) /\
    (fast_path_accepted
       (upload_files_to_gemini (upload w) (downloaded_files w files)) = false ->
     pipeline w user_id folder_id (set_status FolderStatus.INDEXING folder, cl) =
       rag_path w user_id folder_id (map file_manifest_entry files)
         (downloaded_files w files) (set_status FolderStatus.INDEXING folder, cl) /\
     gemini_files folder' = gemini_files folder) /\
    fast_path_accepted (Examples.mixed_results 0 5) = false /\
    fast_path_accepted (Examples.mixed_results 2 3) = false /\
    fast_path_accepted (Examples.mixed_results 1 1) = true /\
    fast_path_accepted (Examples.mixed_results 3 2) = true /\
    fast_path_accepted (Examples.mixed_results 5 0) = true.
Proof.
  intros Hlist Hne Hfast Hgc Hup.
  set (ups := upload_files_to_gemini (upload w) (downloaded_files w files)).
  set (s0 := (set_status FolderStatus.INDEXING folder, cl)).
  assert (pipeline w user_id folder_id s0 =
          bindM (try_except (fast_path w user_id folder_id (downloaded_files w files))
                   (ret false))
            (fun returned : bool =>
               if returned then ret tt
               else rag_path w user_id folder_id (map file_manifest_entry files)
                      (downloaded_files w files)) s0) as Hpipe.
  { unfold pipeline, bindM at 1, lift. rewrite Hlist.
    destruct files; [done|]. cbn [truthy_list negb]. by rewrite Hfast. }
  unfold ingest_folder. fold s0. rewrite Hpipe.
  destruct (fast_path_accepted ups) eqn:Hacc.
  - (* accepted: the manifest is stored and the function returns *)
    unfold bindM, try_except, fast_path. fold ups. rewrite Hacc. unfold bindM.
    destruct (store_fast_manifest_Ok w user_id folder_id (successful_uploads ups)
                (snd s0) Hgc Hup) as [cl1 Hstore].
    unfold on_snd. rewrite Hstore. cbn.
    eexists _, _, _. split; [reflexivity|].
    rewrite <- (fast_path_accepted_iff ups), Hacc.
    split; [done|]. split; [apply successful_uploads_handles|].
    split; [done|]. split; [done|]. repeat split; vm_compute; reflexivity.
  - (* refused: nothing has changed, the RAG path runs from [s0] *)
    assert (try_except (fast_path w user_id folder_id (downloaded_files w files))
              (ret false) s0 = (s0, Ok false)) as Htry.
    { unfold try_except, fast_path. fold ups. by rewrite Hacc. }
    unfold bindM at 1. rewrite Htry.
    destruct (rag_path w user_id folder_id (map file_manifest_entry files)
                (downloaded_files w files) s0) as [s1 [[]|]] eqn:Hrag;
      destruct (rag_path_result _ _ _ _ _ _ _ _ Hrag) as (Hkeep & Hraise & Hok).
    + destruct (Hok eq_refl) as (Hst & Hmode).
      eexists _, _, _. split; [reflexivity|].
      rewrite <- (fast_path_accepted_iff ups), Hacc. split.
      { split; [|done]. rewrite Hmode. intros [[=] _]. }
      split; [apply successful_uploads_handles|]. split; [done|]. split.
      { intros _. split; [|exact Hkeep]. unfold bindM. by rewrite Htry. }
      repeat split; vm_compute; reflexivity.
    + eexists _, _, _. split; [reflexivity|].
      rewrite <- (fast_path_accepted_iff ups), Hacc. split.
      { split; [|done]. cbn. intros [_ [=]]. }
      split; [apply successful_uploads_handles|]. split; [done|]. split.
      { intros _. split; [|by cbn; rewrite Hkeep]. unfold bindM. by rewrite Htry. }
      repeat split; vm_compute; reflexivity.
Qed.

End IngestionFacts.

(** C3, as stated, fails on a folder whose listing is empty: the run
    returns and leaves the folder [READY] with a file count of 0. *)
Lemma ingest_folder_empty_folder_is_ready :
  Ingestion.list_files (Examples.sample_world (Py.Ok []) (fun _ => true)) = Py.Ok [] /\
  Ingestion.ingest_folder (Examples.sample_world (Py.Ok []) (fun _ => true))
    "folder-1" "user-1" (Some Examples.pending_folder) ∅ =
  (Some (Ingestion.mkFolder FolderStatus.READY None 0 (Some 0%nat) None), ∅,
   Ingestion.Returned) /\
  FolderStatus.READY <> FolderStatus.FAILED.
Proof.
  split; [reflexivity|]. split; [vm_compute; reflexivity|discriminate].
Qed.

Lemma ingest_folder_terminal_status_witness :
  (exists folder' cl',
     Ingestion.ingest_folder (Examples.sample_world (Py.Ok []) (fun _ => true))
       "folder-1" "user-1" (Some Examples.pending_folder) ∅ =
     (Some folder', cl', Ingestion.Returned) /\
     Ingestion.status folder' = FolderStatus.READY) /\
  (exists folder' cl',
     Ingestion.ingest_folder (Examples.sample_world Py.Raise (fun _ => true))
       "folder-1" "user-1" (Some Examples.pending_folder) ∅ =
     (Some folder', cl', Ingestion.Raised) /\
     Ingestion.status folder' = FolderStatus.FAILED).
Proof.
  split.
  - destruct (ingest_folder_terminal_status
                (Examples.sample_world (Py.Ok []) (fun _ => true))
                "folder-1" "user-1" Examples.pending_folder ∅)
      as (folder' & cl' & ex & Hrun & _ & Hret & _ & _ & Hempty).
    destruct (Hempty eq_refl) as (Hex & _). rewrite Hex in Hrun.
    exists folder', cl'. split; [exact Hrun|]. apply Hret. exact Hex.
  - destruct (ingest_folder_terminal_status
                (Examples.sample_world Py.Raise (fun _ => true))
                "folder-1" "user-1" Examples.pending_folder ∅)
      as (folder' & cl' & ex & Hrun & Hfail & _ & _ & Hraise & _).
    pose proof (Hraise eq_refl) as Hex. rewrite Hex in Hrun.
    exists folder', cl'. split; [exact Hrun|]. apply Hfail. exact Hex.
Defined.

Lemma fast_path_acceptance_witness :
  exists folder' cl',
    Ingestion.ingest_folder
      (Examples.sample_world (Py.Ok Examples.five_files)
         (Examples.named ["a.txt"; "b.txt"; "c.txt"]))
      "folder-1" "user-1" (Some Examples.pending_folder) ∅ =
    (Some folder', cl', Ingestion.Returned) /\
    Ingestion.index_mode folder' = Some IndexMode.gemini_files /\
    Ingestion.status folder' = FolderStatus.READY /\
    Ingestion.file_count folder' = 3.
Proof.
  destruct (fast_path_acceptance
              (Examples.sample_world (Py.Ok Examples.five_files)
                 (Examples.named ["a.txt"; "b.txt"; "c.txt"]))
              "folder-1" "user-1" Examples.pending_folder ∅ Examples.five_files)
    as (folder' & cl' & ex & Hrun & _ & _ & Hyes & _).
  - reflexivity.
  - discriminate.
  - vm_compute. reflexivity.
  - reflexivity.
  - reflexivity.
  - destruct (Hyes ltac:(vm_compute; reflexivity)) as (Hex & Hfolder).
    rewrite Hex in Hrun. exists folder', cl'. split; [exact Hrun|].
    rewrite Hfolder. repeat split.
Defined.

(** ** Retrieval agent *)

Example search_object_leftmost :
  Agent.search_object (list_ascii_of_string "see {} and {a{b:1} or {c}")
  = Some (list_ascii_of_string "{b:1}").
Proof. reflexivity. Qed.

Example parse_tool_call_plain_text :
  Agent._parse_tool_call JsonText.reference_codec "The budget is 3 {approx}." = None.
Proof. reflexivity. Qed.

Example parse_tool_call_list_files :
  Agent._parse_tool_call JsonText.reference_codec
    ("Let me look. " +:+ JsonText.dumps (Json.JObj [("tool", Json.JStr "list_files")]))
  = Some [("tool", Json.JStr "list_files")]%string.
Proof. vm_compute. reflexivity. Qed.

Section AgentFacts.
Import Py Json Chroma VectorStore Agent.

(** What a run of the loop with [n] rounds to go does, for any chat model
    and any way of running tools: it calls the model at most [n] times, and
    it ends in one of three ways. It returns the apology after [n] tool
    calls; or it returns a response that is not a tool call; or it raises,
    in a round whose model call or tool call raised. *)
Lemma rag_loop_outcome (w : world)
    (execute : list (string * json) -> M client tool_result) (n : nat) :
  forall (messages : list chat_message) (all_citations : list citation)
         (g g' : ghost) (cl cl' : client) (r : result reply),
    rag_loop w execute n messages all_citations (g, cl) = ((g', cl'), r) ->
    exists new : list tool_result,
      tool_results g' = tool_results g ++ new /\
      (length new <= n)%nat /\
      (calls g' <= calls g + n)%nat /\
      match r with
      | Ok answer =>
          citations answer = citations_or_none (fold_left cite new all_citations) /\
          ((content answer = APOLOGY /\ length new = n /\
            calls g' = (calls g + n)%nat) \/
           (_parse_tool_call (json_codec w) (content answer) = None /\
            calls g' = (calls g + length new + 1)%nat))
      | Raise => calls g' = (calls g + length new + 1)%nat
      end.
Proof.
  induction n as [|n IH]; intros messages all_citations g g' cl cl' r Hrun.
  - cbn in Hrun. injection Hrun as <- <- <-. exists [].
    rewrite app_nil_r. cbn. repeat split; try lia. left. repeat split; lia.
  - cbn [rag_loop] in Hrun.
    apply bindM_inv in Hrun as [(s1 & [] & Hcount & Hrun)|[Hcount _]];
      [|discriminate].
    unfold count_call, modify in Hcount. injection Hcount as <-. cbn [fst snd] in Hrun.
    apply bindM_inv in Hrun as [(s2 & text & Hgen & Hrun)|[Hgen ->]].
    2:{ unfold lift in Hgen. injection Hgen as <- <- _. exists [].
        rewrite app_nil_r. cbn. repeat split; lia. }
    unfold lift in Hgen. injection Hgen as <- _.
    destruct (_parse_tool_call (json_codec w) text) as [tool_call|] eqn:Hparse.
    2:{ injection Hrun as <- <- <-. exists [].
        rewrite app_nil_r. cbn. repeat split; try lia. right. split; [done|lia]. }
    apply bindM_inv in Hrun as [(s3 & tool_result & Hexec & Hrun)|[Hexec ->]].
    2:{ unfold on_snd in Hexec. cbn [fst snd] in Hexec.
        destruct (execute tool_call cl) as [cl1 r1]. injection Hexec as <- <- _.
        exists []. rewrite app_nil_r. cbn. repeat split; lia. }
    unfold on_snd in Hexec. cbn [fst snd] in Hexec.
    destruct (execute tool_call cl) as [cl1 r1]. injection Hexec as <- _.
    apply bindM_inv in Hrun as [(s4 & [] & Hrec & Hrun)|[Hrec _]]; [|discriminate].
    unfold record_result, modify in Hrec. injection Hrec as <-. cbn [fst snd] in Hrun.
    apply IH in Hrun as (new & Hres & Hlen & Hcalls & Hr). cbn [calls tool_results] in *.
    exists (tool_result :: new). rewrite Hres, <- app_assoc. cbn [app length fold_left].
    split; [done|]. split; [lia|]. split; [lia|].
    destruct r as [answer|].
    + destruct Hr as (Hcit & [(Hap & Hn & Hc)|(Hfinal & Hc)]).
      * split; [done|]. left. repeat split; [done|lia|lia].
      * split; [done|]. right. split; [done|lia].
    + lia.
Qed.

(** C7. For every chat model, tool behaviour and store: the RAG loop calls
    the model at most 5 times and returns or raises; when five tool calls
    have run, so that the bound is used up without a final answer, it
    returns the apology with the citations gathered from the tool results,
    and does not raise. Any reply carries the citations gathered so far, and
    is either the apology after five tool calls or a model response that is
    not a tool call. *)
Theorem rag_loop_bounded (w : world) (user_id folder_id message : string)
    (history : option (list past_message)) (cl : client) :
  exists (g' : ghost) (cl' : client) (r : result reply),
    _chat_chroma_rag w user_id folder_id message history (Ghost 0 [], cl)
      = ((g', cl'), r) /\
    (calls g' <= 5)%nat /\
    (length (tool_results g') <= 5)%nat /\
    (length (tool_results g') = 5%nat ->
       r = Ok (Reply APOLOGY (citations_or_none (fold_left cite (tool_results g') [])))) /\
    (forall answer, r = Ok answer ->
       citations answer = citations_or_none (fold_left cite (tool_results g') []) /\
       ((content answer = APOLOGY /\ length (tool_results g') = 5%nat) \/
        _parse_tool_call (json_codec w) (content answer) = None)).
Proof.
  unfold _chat_chroma_rag.
  destruct (rag_loop w (_execute_tool w user_id folder_id) 5
              (initial_messages message history) [] (Ghost 0 [], cl))
    as [[g' cl'] r] eqn:Hrun.
  exists g', cl', r. split; [done|].
  apply rag_loop_outcome in Hrun as (new & Hres & Hlen & Hcalls & Hr).
  cbn [calls tool_results app] in *. rewrite Hres.
  split; [lia|]. split; [lia|]. split.
  - intros Hfive. destruct r as [[text cits]|].
    + cbn [citations content] in Hr.
      destruct Hr as (-> & [(-> & _)|(_ & Hc)]); [done|lia].
    + lia.
  - intros answer ->. destruct Hr as (Hcit & [(Hap & Hn & _)|(Hfinal & _)]).
    + split; [done|]. by left.
    + split; [done|]. by right.
Qed.

End AgentFacts.

Lemma rag_loop_bounded_witness :
  exists cl',
    Agent._chat_chroma_rag Examples.scripted_world "user-1" "folder-1"
      "What is the budget?" None (Agent.Ghost 0 [], ∅) =
    ((Agent.Ghost 5
        (replicate 5
           (Agent.Results
              [Agent.SearchResult "chunk text" (Chroma.MStr "file0.txt")
                 (Chroma.MStr "id-0") (Chroma.MStr "") (Chroma.MStr "")
                 (Chroma.MInt 0) None] 1)), cl'),
     Py.Ok (Agent.Reply Agent.APOLOGY (Some [Examples.scripted_citation]))).
Proof.
  destruct (rag_loop_bounded Examples.scripted_world "user-1" "folder-1"
              "What is the budget?" None ∅) as (g' & cl' & r & Hrun & _ & _ & Hfive & _).
  exists cl'. rewrite Hrun.
  assert (g' = Agent.Ghost 5
                 (replicate 5
                    (Agent.Results
                       [Agent.SearchResult "chunk text" (Chroma.MStr "file0.txt")
                          (Chroma.MStr "id-0") (Chroma.MStr "") (Chroma.MStr "")
                          (Chroma.MInt 0) None] 1))) as ->.
  { apply (f_equal (fun x => fst (fst x))) in Hrun. cbn [fst] in Hrun.
    rewrite <- Hrun. vm_compute. reflexivity. }
  rewrite (Hfive eq_refl). vm_compute. reflexivity.
Defined.

(** * Further properties *)

(** ** Vector store: writes, reads and deletion *)

Section VectorStoreMore.
Import Py Json Chroma VectorStore VectorStoreStats.
Implicit Types (cl : client) (coll : collection) (srv : server).

Lemma contents_ensure cl (name other : string) :
  contents (ensure cl name) other = contents cl other.
Proof.
  unfold contents, ensure. destruct (cl !! name) eqn:Hname; [done|].
  destruct (decide (name = other)) as [<-|Hne].
  - by rewrite lookup_insert_eq, Hname.
  - by rewrite lookup_insert_ne.
Qed.

Lemma get_collection_run srv cl (user_id folder_id : string) :
  healthy srv OpGetOrCreate = true ->
  get_collection srv user_id folder_id cl =
  (ensure cl (_get_collection_name user_id folder_id),
   Ok (_get_collection_name user_id folder_id)).
Proof.
  intros Hgc. unfold get_collection, get_or_create_collection, ensure.
  by rewrite Hgc.
Qed.

Lemma upsert_records_app coll (d1 d2 : list string) (m1 m2 : list metadata)
    (i1 i2 : list string) :
  length m1 = length d1 -> length i1 = length d1 ->
  upsert_records coll (d1 ++ d2) (m1 ++ m2) (i1 ++ i2) =
  upsert_records (upsert_records coll d1 m1 i1) d2 m2 i2.
Proof.
  revert coll m1 i1. induction d1 as [|d d1 IH]; intros coll [|m m1] [|i i1];
    cbn; try done.
  intros [= Hm] [= Hi]. by apply IH.
Qed.

Lemma upsert_records_other coll (docs : list string) (metas : list metadata)
    (ids : list string) (id : string) :
  id ∉ ids -> upsert_records coll docs metas ids !! id = coll !! id.
Proof.
  revert coll metas ids. induction docs as [|d docs IH];
    intros coll [|m metas] [|i ids] Hid; cbn; try done.
  apply not_elem_of_cons in Hid as [Hne Hid].
  rewrite IH by done. by rewrite lookup_insert_ne.
Qed.

Lemma upsert_records_lookup coll (docs : list string) (metas : list metadata)
    (ids : list string) (k : nat) (d : string) (m : metadata) (id : string) :
  NoDup ids ->
  docs !! k = Some d -> metas !! k = Some m -> ids !! k = Some id ->
  upsert_records coll docs metas ids !! id = Some (Record_ d m).
Proof.
  revert coll metas ids k. induction docs as [|d0 docs IH];
    intros coll [|m0 metas] [|i0 ids] k Hnd Hd Hm Hi; try done.
  apply NoDup_cons in Hnd as [Hfresh Hnd]. destruct k as [|k]; cbn in *.
  - injection Hd as ->. injection Hm as ->. injection Hi as ->.
    rewrite upsert_records_other by done. apply lookup_insert_eq.
  - by eapply IH.
Qed.

(** The [for] loop of [add_documents] over [m] batches from batch [k] on
    writes what one upsert of that stretch of the lists would. *)
Lemma upsert_batches_run srv (name : string) (docs : list string)
    (metas : list metadata) (ids : list string) (b : nat) :
  healthy srv OpUpsert = true ->
  length metas = length docs -> length ids = length docs ->
  forall (m k : nat) cl,
  exists cl',
    upsert_batches srv name b docs metas ids
      (map (fun j => j * b)%nat (seq k m)) cl = (cl', Ok tt) /\
    contents cl' name =
      upsert_records (contents cl name)
        (take (m * b) (drop (k * b) docs)) (take (m * b) (drop (k * b) metas))
        (take (m * b) (drop (k * b) ids)) /\
    forall other, other <> name -> cl' !! other = cl !! other.
Proof.
  intros Hup Hmetas Hids. induction m as [|m IH]; intros k cl.
  - exists cl. cbn. by rewrite !take_0.
  - cbn [seq map upsert_batches]. unfold bindM, upsert at 1. rewrite Hup.
    assert (length (take b (drop (k * b) docs)) = length (take b (drop (k * b) ids)))
      as -> by (rewrite !length_take, !length_drop; lia).
    assert (length (take b (drop (k * b) metas)) = length (take b (drop (k * b) ids)))
      as -> by (rewrite !length_take, !length_drop; lia).
    rewrite !Nat.eqb_refl. cbn [andb].
    destruct (IH (S k)
                (<[name := upsert_records (default ∅ (cl !! name))
                             (take b (drop (k * b) docs))
                             (take b (drop (k * b) metas))
                             (take b (drop (k * b) ids))]> cl))
      as (cl' & Hrun & Hcontents & Hother).
    exists cl'. split; [exact Hrun|]. split.
    + rewrite Hcontents. unfold contents at 1. rewrite lookup_insert_eq. cbn.
      rewrite <- upsert_records_app by (rewrite !length_take, !length_drop; lia).
      rewrite (Nat.add_comm b (k * b)), <- !drop_drop, !take_take_drop. done.
    + intros other Hne. rewrite Hother by done. by rewrite lookup_insert_ne.
Qed.

Lemma batch_count_covers (n : nat) :
  (n <= Nat.div (n + 100 - 1) 100 * 100)%nat.
Proof.
  pose proof (Nat.div_mod (n + 100 - 1) 100 ltac:(lia)) as Hdm.
  pose proof (Nat.mod_upper_bound (n + 100 - 1) 100 ltac:(lia)). lia.
Qed.

Lemma add_documents_run srv cl (user_id folder_id : string)
    (documents : list string) (metadatas : list metadata) (ids : list string) :
  healthy srv OpGetOrCreate = true ->
  healthy srv OpUpsert = true ->
  length metadatas = length documents ->
  length ids = length documents ->
  exists cl',
    add_documents srv user_id folder_id documents metadatas ids cl = (cl', Ok tt) /\
    contents cl' (_get_collection_name user_id folder_id) =
      upsert_records (contents cl (_get_collection_name user_id folder_id))
        documents metadatas ids /\
    forall other, other <> _get_collection_name user_id folder_id ->
      contents cl' other = contents cl other.
Proof.
  intros Hgc Hup Hmetas Hids. unfold add_documents, bindM.
  rewrite get_collection_run by done.
  destruct (upsert_batches_run srv (_get_collection_name user_id folder_id)
              documents metadatas ids 100 Hup Hmetas Hids
              (Nat.div (length documents + 100 - 1) 100) 0
              (ensure cl (_get_collection_name user_id folder_id)))
    as (cl' & Hrun & Hcontents & Hother).
  exists cl'. split; [exact Hrun|]. split.
  - rewrite Hcontents, contents_ensure. cbn [Nat.mul]. rewrite !drop_0.
    pose proof (batch_count_covers (length documents)).
    by rewrite !take_ge by lia.
  - intros other Hne. unfold contents at 1. rewrite Hother by done.
    apply contents_ensure.
Qed.

(** X1. On a store that accepts the calls, [add_documents] with three lists
    of the same length never raises, and the batches of 100 add up to one
    upsert of the whole lists: the collection ends as that upsert leaves it
    and no other collection changes. *)
Theorem add_documents_is_one_upsert srv cl (user_id folder_id : string)
    (documents : list string) (metadatas : list metadata) (ids : list string) :
  healthy srv OpGetOrCreate = true ->
  healthy srv OpUpsert = true ->
  length metadatas = length documents ->
  length ids = length documents ->
  exists cl',
    add_documents srv user_id folder_id documents metadatas ids cl = (cl', Ok tt) /\
    contents cl' (_get_collection_name user_id folder_id) =
      upsert_records (contents cl (_get_collection_name user_id folder_id))
        documents metadatas ids /\
    forall other, other <> _get_collection_name user_id folder_id ->
      contents cl' other = contents cl other.
Proof. apply add_documents_run. Qed.

(** X2. After [add_documents] with pairwise distinct ids, every id holds
    the document and metadata given at its position, and every record
    stored under another id, the manifest for one, is as it was. *)
Theorem add_documents_then_lookup srv cl (user_id folder_id : string)
    (documents : list string) (metadatas : list metadata) (ids : list string) :
  healthy srv OpGetOrCreate = true ->
  healthy srv OpUpsert = true ->
  length metadatas = length documents ->
  length ids = length documents ->
  NoDup ids ->
  exists cl',
    add_documents srv user_id folder_id documents metadatas ids cl = (cl', Ok tt) /\
    (forall (k : nat) d m id,
       documents !! k = Some d -> metadatas !! k = Some m -> ids !! k = Some id ->
       contents cl' (_get_collection_name user_id folder_id) !! id
       = Some (Record_ d m)) /\
    (forall id, id ∉ ids ->
       contents cl' (_get_collection_name user_id folder_id) !! id
       = contents cl (_get_collection_name user_id folder_id) !! id).
Proof.
  intros Hgc Hup Hmetas Hids Hnd.
  destruct (add_documents_run srv cl user_id folder_id documents
              metadatas ids Hgc Hup Hmetas Hids) as (cl' & Hrun & Hcontents & _).
  exists cl'. split; [exact Hrun|]. rewrite Hcontents. split.
  - intros k d m id Hd Hm Hi. by eapply upsert_records_lookup.
  - intros id Hid. by apply upsert_records_other.
Qed.

End VectorStoreMore.

Section VectorStoreReads.
Import Py Json Chroma VectorStore VectorStoreStats.
Implicit Types (cl : client) (coll : collection) (srv : server).

Lemma ensure_present cl (name : string) : is_Some (ensure cl name !! name).
Proof.
  unfold ensure. destruct (cl !! name) eqn:Hname; [by rewrite Hname|].
  rewrite lookup_insert_eq. by eexists.
Qed.

Lemma ensure_idemp cl (name : string) : is_Some (cl !! name) -> ensure cl name = cl.
Proof. intros [coll Hcoll]. unfold ensure. by rewrite Hcoll. Qed.

Lemma get_file_manifest_run srv (c : codec) cl (user_id folder_id : string) :
  healthy srv OpGetOrCreate = true ->
  get_file_manifest srv c user_id folder_id cl =
  (ensure cl (_get_collection_name user_id folder_id),
   Ok (manifest_answer srv c cl user_id folder_id)).
Proof.
  intros Hgc. unfold get_file_manifest, bindM at 1. rewrite get_collection_run by done.
  unfold manifest_answer, bindM, try_except, read_manifest, bindM, get_metadatas.
  destruct (healthy srv OpGet); [|done].
  change (default ∅ (ensure cl (_get_collection_name user_id folder_id)
                       !! _get_collection_name user_id folder_id))
    with (contents (ensure cl (_get_collection_name user_id folder_id))
            (_get_collection_name user_id folder_id)).
  rewrite contents_ensure.
  destruct (contents cl _ !! manifest_id folder_id) as [r|]; [|done].
  destruct (decide (rec_metadata r = ∅)); [done|].
  destruct (default (MStr "[]") (rec_metadata r !! "manifest_json")) as [s|z];
    [|done].
  unfold lift. by destruct (json_loads c s).
Qed.

(** X3. [get_file_manifest] raises only when the collection itself cannot
    be obtained. Otherwise it returns, leaves every record as it was, and
    answers the empty list whenever there is no manifest record, the read
    fails, or the stored text does not decode. *)
Theorem get_file_manifest_never_aborts srv (c : codec) cl
    (user_id folder_id : string) :
  exists cl' r,
    get_file_manifest srv c user_id folder_id cl = (cl', r) /\
    (r = Raise <-> healthy srv OpGetOrCreate = false) /\
    (forall name, contents cl' name = contents cl name) /\
    (healthy srv OpGetOrCreate = true ->
       (contents cl (_get_collection_name user_id folder_id)
          !! manifest_id folder_id = None -> r = Ok (JList [])) /\
       (healthy srv OpGet = false -> r = Ok (JList [])) /\
       (forall summary text,
          contents cl (_get_collection_name user_id folder_id)
            !! manifest_id folder_id
          = Some (Record_ summary (manifest_metadata text)) ->
          json_loads c text = Raise -> r = Ok (JList []))).
Proof.
  destruct (healthy srv OpGetOrCreate) eqn:Hgc.
  - rewrite get_file_manifest_run by done. eexists _, _. split; [done|].
    split; [done|]. split; [intros name; apply contents_ensure|].
    intros _. unfold manifest_answer. split; [|split].
    + intros ->. by destruct (healthy srv OpGet).
    + by intros ->.
    + intros summary text -> Hload. destruct (healthy srv OpGet); [|done].
      cbn [rec_metadata].
      destruct (manifest_metadata_lookup text) as (-> & _ & Hne).
      destruct (decide (manifest_metadata text = ∅)); [done|].
      cbn. by rewrite Hload.
  - exists cl, Raise. split.
    + unfold get_file_manifest, bindM, get_collection, get_or_create_collection.
      by rewrite Hgc.
    + split; [done|]. split; [done|]. done.
Qed.

Lemma delete_collection_run srv cl (user_id folder_id : string) :
  delete_collection srv user_id folder_id cl =
  (if healthy srv OpDelete
   then delete (_get_collection_name user_id folder_id) cl
   else cl, Ok tt).
Proof.
  unfold delete_collection, try_except, Chroma.delete_collection.
  destruct (healthy srv OpDelete); [|done].
  destruct (cl !! _get_collection_name user_id folder_id) eqn:Hname; [done|].
  by rewrite delete_id.
Qed.

(** X4. [delete_collection] never raises, also for a collection that does
    not exist, and deleting twice is the same as deleting once. When the
    store carries out the deletion, no other collection changes and the
    manifest read afterwards is the empty list. *)
Theorem delete_collection_idempotent srv (c : codec) cl
    (user_id folder_id : string) :
  exists cl',
    delete_collection srv user_id folder_id cl = (cl', Ok tt) /\
    delete_collection srv user_id folder_id cl' = (cl', Ok tt) /\
    (forall other, other <> _get_collection_name user_id folder_id ->
       cl' !! other = cl !! other) /\
    (healthy srv OpDelete = true ->
       cl' !! _get_collection_name user_id folder_id = None /\
       (healthy srv OpGetOrCreate = true ->
        snd (get_file_manifest srv c user_id folder_id cl') = Ok (JList []))).
Proof.
  rewrite delete_collection_run. eexists. split; [done|]. split; [|split].
  - rewrite delete_collection_run. destruct (healthy srv OpDelete); [|done].
    by rewrite delete_delete_eq.
  - intros other Hne. destruct (healthy srv OpDelete); [|done].
    by rewrite lookup_delete_ne.
  - intros ->. split; [apply lookup_delete_eq|]. intros Hgc.
    rewrite get_file_manifest_run by done. cbn [snd].
    unfold manifest_answer, contents. rewrite lookup_delete_eq. cbn.
    rewrite lookup_empty. by destruct (healthy srv OpGet).
Qed.

Lemma store_file_manifest_run srv (c : codec) cl (user_id folder_id : string)
    (files : list json) (names : list string) :
  healthy srv OpGetOrCreate = true ->
  healthy srv OpUpsert = true ->
  names_of (take 50 files) = Ok names ->
  exists cl1,
    store_file_manifest srv c user_id folder_id files cl = (cl1, Ok tt) /\
    contents cl1 (_get_collection_name user_id folder_id) =
      <[manifest_id folder_id :=
          Record_ (manifest_summary_text (length files) names)
            (manifest_metadata (json_dumps c (JList files)))]>
        (contents cl (_get_collection_name user_id folder_id)) /\
    is_Some (cl1 !! _get_collection_name user_id folder_id) /\
    forall other, other <> _get_collection_name user_id folder_id ->
      contents cl1 other = contents cl other.
Proof.
  intros Hgc Hup Hnames. unfold store_file_manifest, bindM.
  rewrite get_collection_run by done. unfold lift. rewrite Hnames.
  unfold upsert. rewrite Hup. cbn [length Nat.eqb andb upsert_records].
  eexists. split; [done|]. split; [|split].
  - unfold contents at 1. rewrite lookup_insert_eq. cbn [from_option id].
    change (default ∅ (ensure cl (_get_collection_name user_id folder_id)
                         !! _get_collection_name user_id folder_id))
      with (contents (ensure cl (_get_collection_name user_id folder_id))
              (_get_collection_name user_id folder_id)).
    by rewrite contents_ensure.
  - rewrite lookup_insert_eq. by eexists.
  - intros other Hne. unfold contents at 1. rewrite lookup_insert_ne by done.
    apply contents_ensure.
Qed.

(** X5. Writing a manifest touches the reserved id only, and the latest
    write wins: after two writes on a working store, every record stored
    under another id is as it was before both, and [get_file_manifest]
    returns the second list. *)
Theorem store_file_manifest_last_write_wins srv (c : codec) cl
    (user_id folder_id : string) (first second : list json) :
  healthy srv OpGetOrCreate = true ->
  healthy srv OpUpsert = true ->
  healthy srv OpGet = true ->
  Forall (fun f => exists s, name_of f = Ok s) first ->
  Forall (fun f => exists s, name_of f = Ok s) second ->
  json_loads c (json_dumps c (JList second)) = Ok (JList second) ->
  exists cl1 cl2,
    store_file_manifest srv c user_id folder_id first cl = (cl1, Ok tt) /\
    store_file_manifest srv c user_id folder_id second cl1 = (cl2, Ok tt) /\
    get_file_manifest srv c user_id folder_id cl2 = (cl2, Ok (JList second)) /\
    (forall id, id <> manifest_id folder_id ->
       contents cl2 (_get_collection_name user_id folder_id) !! id
       = contents cl (_get_collection_name user_id folder_id) !! id) /\
    (forall other, other <> _get_collection_name user_id folder_id ->
       contents cl2 other = contents cl other).
Proof.
  intros Hgc Hup Hget Hfirst Hsecond Hjson.
  destruct (names_of_Ok (take 50 first)) as [names1 Hn1]; [by apply Forall_take|].
  destruct (names_of_Ok (take 50 second)) as [names2 Hn2]; [by apply Forall_take|].
  destruct (store_file_manifest_run srv c cl user_id folder_id first names1
              Hgc Hup Hn1) as (cl1 & Hrun1 & Hc1 & _ & Ho1).
  destruct (store_file_manifest_run srv c cl1 user_id folder_id second names2
              Hgc Hup Hn2) as (cl2 & Hrun2 & Hc2 & Hpresent & Ho2).
  exists cl1, cl2. split; [done|]. split; [done|]. split; [|split].
  - rewrite get_file_manifest_run by done. rewrite ensure_idemp by done.
    f_equal. f_equal. unfold manifest_answer. rewrite Hget, Hc2, lookup_insert_eq.
    cbn [rec_metadata].
    destruct (manifest_metadata_lookup (json_dumps c (JList second)))
      as (-> & _ & Hne).
    destruct (decide (manifest_metadata (json_dumps c (JList second)) = ∅)); [done|].
    cbn. by rewrite Hjson.
  - intros id Hne. rewrite Hc2, lookup_insert_ne by done.
    by rewrite Hc1, lookup_insert_ne.
  - intros other Hne. by rewrite Ho2, Ho1.
Qed.

End VectorStoreReads.

Section VectorStoreStatsFacts.
Import Py Json Chroma VectorStore VectorStoreStats.
Implicit Types (cl : client) (coll : collection) (srv : server).

Lemma get_collection_stats_run srv (c : codec) cl (user_id folder_id : string) :
  healthy srv OpGetOrCreate = true ->
  healthy srv OpGet = true ->
  get_collection_stats srv c user_id folder_id cl =
  (ensure cl (_get_collection_name user_id folder_id),
   match json_len (manifest_answer srv c cl user_id folder_id) with
   | Ok total =>
       Ok (Stats
             (if Z.of_nat (size (contents cl (_get_collection_name user_id folder_id)))
                 >? 0
              then Z.of_nat (size (contents cl (_get_collection_name user_id folder_id)))
                   - 1
              else 0)
             total (manifest_answer srv c cl user_id folder_id))
   | Raise => Raise
   end).
Proof.
  intros Hgc Hget. unfold get_collection_stats, bindM at 1.
  rewrite get_collection_run by done.
  unfold bindM at 1, count. rewrite Hget.
  change (default ∅ (ensure cl (_get_collection_name user_id folder_id)
                       !! _get_collection_name user_id folder_id))
    with (contents (ensure cl (_get_collection_name user_id folder_id))
            (_get_collection_name user_id folder_id)).
  rewrite contents_ensure. unfold bindM at 1.
  rewrite get_file_manifest_run by done.
  rewrite (ensure_idemp (ensure cl (_get_collection_name user_id folder_id)))
    by apply ensure_present.
  assert (manifest_answer srv c (ensure cl (_get_collection_name user_id folder_id))
            user_id folder_id = manifest_answer srv c cl user_id folder_id) as ->.
  { unfold manifest_answer. by rewrite contents_ensure. }
  unfold bindM, lift. by destruct (json_len _).
Qed.

(** X6. On a working store whose collection holds the manifest written for
    [files], [get_collection_stats] reports the number of records other
    than the manifest, the number of files and the files themselves. The
    chunk count is never negative: it is 0 for an empty collection, and one
    less than the number of records for a collection of chunks that has no
    manifest. *)
Theorem get_collection_stats_counts srv (c : codec) cl (user_id folder_id : string) :
  healthy srv OpGetOrCreate = true ->
  healthy srv OpGet = true ->
  (forall (files : list json) summary,
     contents cl (_get_collection_name user_id folder_id) !! manifest_id folder_id
     = Some (Record_ summary (manifest_metadata (json_dumps c (JList files)))) ->
     json_loads c (json_dumps c (JList files)) = Ok (JList files) ->
     snd (get_collection_stats srv c user_id folder_id cl) =
     Ok (Stats
           (Z.of_nat (size (delete (manifest_id folder_id)
                              (contents cl (_get_collection_name user_id folder_id)))))
           (len files) (JList files))) /\
  (contents cl (_get_collection_name user_id folder_id) !! manifest_id folder_id = None ->
   snd (get_collection_stats srv c user_id folder_id cl) =
   Ok (Stats
         (Z.max 0 (Z.of_nat (size (contents cl (_get_collection_name user_id folder_id)))
                   - 1))
         0 (JList []))) /\
  (forall s, snd (get_collection_stats srv c user_id folder_id cl) = Ok s ->
     0 <= total_chunks s).
Proof.
  intros Hgc Hget. rewrite get_collection_stats_run by done. cbn [snd].
  split; [|split].
  - intros files summary Hrec Hjson.
    assert (manifest_answer srv c cl user_id folder_id = JList files) as ->.
    { unfold manifest_answer. rewrite Hget, Hrec. cbn [rec_metadata].
      destruct (manifest_metadata_lookup (json_dumps c (JList files)))
        as (-> & _ & Hne).
      destruct (decide (manifest_metadata (json_dumps c (JList files)) = ∅)); [done|].
      cbn. by rewrite Hjson. }
    cbn [json_len]. do 2 f_equal.
    rewrite map_size_delete_Some by (by eexists).
    assert (size (contents cl (_get_collection_name user_id folder_id)) <> 0%nat).
    { intros Hz. apply map_size_empty_inv in Hz. rewrite Hz in Hrec.
      by rewrite lookup_empty in Hrec. }
    destruct (Z.gtb_spec (Z.of_nat (size (contents cl
                (_get_collection_name user_id folder_id)))) 0); lia.
  - intros Hnone.
    assert (manifest_answer srv c cl user_id folder_id = JList []) as ->.
    { unfold manifest_answer. by rewrite Hget, Hnone. }
    cbn [json_len]. do 2 f_equal.
    destruct (Z.gtb_spec (Z.of_nat (size (contents cl
                (_get_collection_name user_id folder_id)))) 0); lia.
  - intros s. destruct (json_len _); [|done]. intros [= <-]. cbn.
    destruct (Z.gtb_spec (Z.of_nat (size (contents cl
                (_get_collection_name user_id folder_id)))) 0); lia.
Qed.



End VectorStoreStatsFacts.

Section CollectionNames.
Import Py VectorStore Text.

Lemma append_cons (c : ascii) (a b : string) :
  String c a +:+ b = String c (a +:+ b).
Proof. reflexivity. Qed.

Lemma append_nil (b : string) : "" +:+ b = b.
Proof. reflexivity. Qed.

Lemma replace_dash_app (a b : string) :
  replace_dash (a +:+ b) = replace_dash a +:+ replace_dash b.
Proof.
  induction a as [|c a IH]; [done|].
  rewrite append_cons. cbn [replace_dash]. by rewrite IH, append_cons.
Qed.

Lemma replace_dash_length (s : string) :
  String.length (replace_dash s) = String.length s.
Proof. induction s as [|c s IH]; cbn; [done|]. by rewrite IH. Qed.

Lemma replace_dash_lacks_dash (s : string) : lacks "-" (replace_dash s).
Proof.
  unfold lacks. induction s as [|c s IH]; cbn; [constructor|].
  constructor; [|done]. destruct (Ascii.eqb_spec c "-"); [discriminate|done].
Qed.

Lemma replace_dash_inj (a b : string) :
  lacks "_" a -> lacks "_" b -> replace_dash a = replace_dash b -> a = b.
Proof.
  unfold lacks. revert b. induction a as [|c a IH]; intros [|d b] Ha Hb Heq;
    cbn in *; try done.
  apply Forall_cons in Ha as [Hc Ha]. apply Forall_cons in Hb as [Hd Hb].
  injection Heq as Hcd Heq. f_equal; [|by apply IH].
  destruct (Ascii.eqb_spec c "-"), (Ascii.eqb_spec d "-"); congruence.
Qed.

Lemma string_app_inj (a b x y : string) :
  String.length a = String.length b -> a +:+ x = b +:+ y -> a = b /\ x = y.
Proof.
  revert b. induction a as [|c a IH]; intros [|d b] Hlen Heq; try done.
  rewrite !append_cons in Heq. injection Hlen as Hlen. injection Heq as -> Heq.
  destruct (IH b Hlen Heq) as [-> ->]. done.
Qed.

Lemma string_app_length (a b : string) :
  String.length (a +:+ b) = (String.length a + String.length b)%nat.
Proof.
  induction a as [|c a IH]; [done|]. rewrite append_cons. cbn. by rewrite IH.
Qed.

Lemma collection_name_shape (user_id folder_id : string) :
  _get_collection_name user_id folder_id =
  "user_" +:+ replace_dash user_id +:+ "_folder_" +:+ replace_dash folder_id.
Proof. unfold _get_collection_name. by rewrite !replace_dash_app. Qed.

(** X8. A collection name never contains a dash and is 13 characters
    longer than the two ids together. For ids without underscores and user
    ids of one length, as UUIDs are, different (user, folder) pairs get
    different collections. *)
Theorem collection_name_injective (user1 folder1 user2 folder2 : string) :
  lacks "-" (_get_collection_name user1 folder1) /\
  String.length (_get_collection_name user1 folder1)
    = (13 + String.length user1 + String.length folder1)%nat /\
  (lacks "_" user1 -> lacks "_" folder1 ->
   lacks "_" user2 -> lacks "_" folder2 ->
   String.length user1 = String.length user2 ->
   _get_collection_name user1 folder1 = _get_collection_name user2 folder2 ->
   user1 = user2 /\ folder1 = folder2).
Proof.
  split; [apply replace_dash_lacks_dash|]. split.
  - rewrite collection_name_shape, !string_app_length, !replace_dash_length.
    cbn. lia.
  - intros Hu1 Hf1 Hu2 Hf2 Hlen. rewrite !collection_name_shape. intros Heq.
    apply (string_app_inj "user_" "user_") in Heq as [_ Heq]; [|done].
    apply string_app_inj in Heq as [Hu Heq]; [|by rewrite !replace_dash_length].
    apply (string_app_inj "_folder_" "_folder_") in Heq as [_ Hf]; [|done].
    split; by apply replace_dash_inj.
Qed.

End CollectionNames.

(** ** Retrieval agent: tool-call recognition, tools and citations *)

Section ToolCallRecognition.
Import Py Json Chroma VectorStore Agent AgentFacts.

Lemma match_body_sound (s seen b : list ascii) :
  match_body s seen = Some b ->
  exists body post,
    s = body ++ "}"%char :: post /\ brace_free body /\
    b = rev seen ++ body /\ b <> [].
Proof.
  revert seen. induction s as [|c s IH]; intros seen Hm; [done|].
  cbn in Hm. destruct (Ascii.eqb_spec c "}") as [->|Hclose].
  - destruct seen as [|x seen]; [done|]. injection Hm as <-.
    exists [], s. rewrite app_nil_r. repeat split; [constructor|].
    cbn. by destruct (rev seen).
  - destruct (Ascii.eqb_spec c "{") as [->|Hopen]; [done|].
    apply IH in Hm as (body & post & -> & Hfree & -> & Hne).
    exists (c :: body), post. cbn [rev] in *. rewrite <- app_assoc in *.
    repeat split; [by constructor|done].
Qed.

Lemma match_body_complete (body post seen : list ascii) :
  brace_free body -> rev seen ++ body <> [] ->
  match_body (body ++ "}"%char :: post) seen = Some (rev seen ++ body).
Proof.
  revert seen. induction body as [|c body IH]; intros seen Hfree Hne; cbn.
  - rewrite app_nil_r in *. destruct seen as [|x seen]; [done|]. done.
  - apply Forall_cons in Hfree as [[Hopen Hclose] Hfree].
    destruct (Ascii.eqb_spec c "}"); [done|].
    destruct (Ascii.eqb_spec c "{"); [done|].
    rewrite (IH (c :: seen)); cbn [rev]; rewrite <- ?app_assoc; [done|done|].
    cbn. by destruct (rev seen).
Qed.

Lemma search_object_spec (s : list ascii) :
  (forall m, search_object s = Some m ->
     exists pre body post,
       occurs pre body post s /\ m = "{"%char :: body ++ ["}"%char] /\
       forall pre' body' post', occurs pre' body' post' s ->
         (length pre <= length pre')%nat) /\
  (search_object s = None <->
   forall pre body post, ~ occurs pre body post s).
Proof.
  induction s as [|c s [IHsome IHnone]].
  - split; [done|]. split; [|done]. intros _ pre body post [Hs _].
    by destruct pre.
  - cbn [search_object]. destruct (Ascii.eqb_spec c "{") as [->|Hopen].
    + destruct (match_body s []) as [b|] eqn:Hbody.
      * split.
        -- intros m [= <-].
           apply match_body_sound in Hbody as (body & post & -> & Hfree & -> & Hne).
           exists [], body, post. cbn. split; [done|]. split; [done|]. intros; lia.
        -- split; [done|]. intros Hnone.
           apply match_body_sound in Hbody as (body & post & -> & Hfree & -> & Hne).
           by destruct (Hnone [] body post).
      * assert (forall body post, ~ occurs [] body post ("{"%char :: s)) as Hhere.
        { intros body post [[= ->] [Hne Hfree]].
          rewrite (match_body_complete body post [] Hfree Hne) in Hbody. done. }
        split.
        -- intros m Hm. destruct (IHsome m Hm) as (pre & body & post & Hocc & -> & Hleft).
           exists ("{"%char :: pre), body, post.
           split; [|split; [done|]].
           { destruct Hocc as (-> & Hne' & Hfree'). by repeat split. }
           intros [|x pre'] body' post' Hocc'; [by destruct (Hhere body' post')|].
           destruct Hocc' as ([= <- ->] & Hne' & Hfree'). cbn.
           specialize (Hleft pre' body' post' (conj eq_refl (conj Hne' Hfree'))). lia.
        -- rewrite IHnone. split.
           ++ intros Hnone [|x pre] body post Hocc; [by destruct (Hhere body post)|].
              destruct Hocc as ([= <- ->] & Hne' & Hfree').
              exact (Hnone pre body post (conj eq_refl (conj Hne' Hfree'))).
           ++ intros Hnone pre body post (-> & Hne' & Hfree').
              exact (Hnone ("{"%char :: pre) body post (conj eq_refl (conj Hne' Hfree'))).
    + split.
      * intros m Hm. destruct (IHsome m Hm) as (pre & body & post & Hocc & -> & Hleft).
        exists (c :: pre), body, post. split; [|split; [done|]].
        { destruct Hocc as (-> & Hne' & Hfree'). by repeat split. }
        intros [|x pre'] body' post' Hocc'.
        { destruct Hocc' as ([= ->] & _). done. }
        destruct Hocc' as ([= -> ->] & Hne' & Hfree'). cbn.
        specialize (Hleft pre' body' post' (conj eq_refl (conj Hne' Hfree'))). lia.
      * rewrite IHnone. split.
        -- intros Hnone [|x pre] body post Hocc.
           { destruct Hocc as ([= ->] & _). done. }
           destruct Hocc as ([= -> ->] & Hne' & Hfree').
           exact (Hnone pre body post (conj eq_refl (conj Hne' Hfree'))).
        -- intros Hnone pre body post (-> & Hne' & Hfree').
           exact (Hnone (c :: pre) body post (conj eq_refl (conj Hne' Hfree'))).
Qed.

(** X9. [search_object] is the leftmost match of the tool-call pattern: what
    it returns is an occurrence in the text of an opening brace, a
    non-empty stretch without braces and a closing brace, no occurrence
    starts before it, and it returns nothing exactly when the text has no
    occurrence. *)
Theorem search_object_leftmost_match (s : list ascii) :
  (forall m, search_object s = Some m ->
     exists pre body post,
       occurs pre body post s /\ m = "{"%char :: body ++ ["}"%char] /\
       forall pre' body' post', occurs pre' body' post' s ->
         (length pre <= length pre')%nat) /\
  (search_object s = None <->
   forall pre body post, ~ occurs pre body post s).
Proof. apply search_object_spec. Qed.

(** X10. [_parse_tool_call] returns a dictionary only when the leftmost
    brace-delimited stretch without inner braces decodes to it and it has a
    [tool] key; a text without such a stretch, and one whose stretch does
    not decode, is no tool call. A tool call whose JSON holds a nested
    object is therefore never read as written: only a brace-free part of it
    is decoded. *)
Theorem parse_tool_call_reads_leftmost_object (c : codec) (text : string) :
  (forall obj, _parse_tool_call c text = Some obj ->
     is_Some (assoc "tool" obj) /\
     exists pre body post,
       occurs pre body post (list_ascii_of_string text) /\
       json_loads c (string_of_list_ascii ("{"%char :: body ++ ["}"%char]))
       = Ok (JObj obj) /\
       forall pre' body' post',
         occurs pre' body' post' (list_ascii_of_string text) ->
         (length pre <= length pre')%nat) /\
  ((forall pre body post, ~ occurs pre body post (list_ascii_of_string text)) ->
   _parse_tool_call c text = None) /\
  (forall m, search_object (list_ascii_of_string text) = Some m ->
     json_loads c (string_of_list_ascii m) = Raise ->
     _parse_tool_call c text = None).
Proof.
  destruct (search_object_spec (list_ascii_of_string text)) as [Hsome Hnone].
  unfold _parse_tool_call. split; [|split].
  - intros obj Hparse.
    destruct (search_object (list_ascii_of_string text)) as [m|] eqn:Hm; [|done].
    destruct (Hsome m eq_refl) as (pre & body & post & Hocc & -> & Hleft).
    destruct (json_loads c _) as [[| | | | |kvs]|] eqn:Hload; try done.
    destruct (assoc "tool" kvs) eqn:Htool; [|done]. injection Hparse as <-.
    split; [by rewrite Htool|]. by exists pre, body, post.
  - intros Hno. apply Hnone in Hno. by rewrite Hno.
  - intros m -> ->. done.
Qed.

End ToolCallRecognition.

Section Citations.
Import Py Json Chroma VectorStore Agent AgentFacts.

Lemma existsb_file_name (all_citations : list citation) (name : meta_value) :
  existsb (fun c => bool_decide (cit_file_name c = name)) all_citations = true <->
  name ∈ map cit_file_name all_citations.
Proof.
  rewrite existsb_exists, list_elem_of_fmap. split.
  - intros (c & Hin & Hc). apply bool_decide_eq_true in Hc.
    exists c. split; [done|]. by apply list_elem_of_In.
  - intros (c & -> & Hin). exists c. split; [by apply list_elem_of_In|].
    by apply bool_decide_eq_true.
Qed.

Lemma add_citations_spec (results : list search_result) :
  forall all_citations : list citation,
    NoDup (map cit_file_name all_citations) ->
    NoDup (map cit_file_name (add_citations results all_citations)) /\
    (forall c, c ∈ add_citations results all_citations ->
       c ∈ all_citations \/ exists r, r ∈ results /\ c = citation_of r) /\
    (forall c, c ∈ all_citations -> c ∈ add_citations results all_citations) /\
    (forall r, r ∈ results ->
       sr_file_name r ∈ map cit_file_name (add_citations results all_citations)).
Proof.
  induction results as [|r results IH]; intros all_citations Hnd; cbn [add_citations].
  - split; [done|]. split; [by left|]. split; [done|]. intros r Hr. by inversion Hr.
  - destruct (existsb _ all_citations) eqn:Hseen.
    + apply existsb_file_name in Hseen.
      destruct (IH all_citations Hnd) as (Hnd' & Horigin & Hkeep & Hcover).
      split; [done|]. split; [|split; [done|]].
      * intros c Hc. destruct (Horigin c Hc) as [?|(r' & Hr' & ->)]; [by left|].
        right. exists r'. split; [by right|done].
      * intros r' Hr'. apply elem_of_cons in Hr' as [->|Hr']; [|by apply Hcover].
        apply list_elem_of_fmap in Hseen as (c & Hname & Hc).
        apply list_elem_of_fmap. exists c. split; [done|]. by apply Hkeep.
    + assert (cit_file_name (citation_of r) ∉ map cit_file_name all_citations) as Hnew.
      { intros Hin. apply existsb_file_name in Hin. congruence. }
      destruct (IH (all_citations ++ [citation_of r])) as (Hnd' & Horigin & Hkeep & Hcover).
      { rewrite map_app. apply NoDup_app. split; [done|]. split.
        - intros x Hx Hx'. cbn in Hx'. apply list_elem_of_singleton in Hx' as ->. done.
        - cbn. apply NoDup_singleton. }
      split; [done|]. split; [|split].
      * intros c Hc. destruct (Horigin c Hc) as [Hc'|(r' & Hr' & ->)].
        -- apply elem_of_app in Hc' as [?|Hc']; [by left|].
           apply list_elem_of_singleton in Hc' as ->. right. exists r. split; [by left|done].
        -- right. exists r'. split; [by right|done].
      * intros c Hc. apply Hkeep, elem_of_app. by left.
      * intros r' Hr'. apply elem_of_cons in Hr' as [->|Hr']; [|by apply Hcover].
        apply list_elem_of_fmap. exists (citation_of r). split; [done|].
        apply Hkeep, elem_of_app. right. by apply list_elem_of_singleton.
Qed.

Lemma add_citations_keeps (results : list search_result) :
  forall (all_citations : list citation) (c : citation),
    c ∈ all_citations -> c ∈ add_citations results all_citations.
Proof.
  induction results as [|r results IH]; intros all_citations c Hc;
    cbn [add_citations]; [done|].
  apply IH. destruct (existsb _ _); [done|]. apply elem_of_app. by left.
Qed.

Lemma fold_cite_keeps (tool_results : list tool_result) :
  forall (all_citations : list citation) (c : citation),
    c ∈ all_citations -> c ∈ fold_left cite tool_results all_citations.
Proof.
  induction tool_results as [|t tool_results IH]; intros all_citations c Hc;
    cbn [fold_left]; [done|].
  apply IH. destruct t; cbn [cite]; try done. by apply add_citations_keeps.
Qed.

Lemma fold_cite_spec (tool_results : list tool_result) :
  forall all_citations : list citation,
    NoDup (map cit_file_name all_citations) ->
    NoDup (map cit_file_name (fold_left cite tool_results all_citations)) /\
    (forall c, c ∈ fold_left cite tool_results all_citations ->
       c ∈ all_citations \/
       exists results total r,
         Results results total ∈ tool_results /\ r ∈ results /\ c = citation_of r) /\
    (forall results total r,
       Results results total ∈ tool_results -> r ∈ results ->
       sr_file_name r ∈ map cit_file_name (fold_left cite tool_results all_citations)).
Proof.
  induction tool_results as [|t tool_results IH]; intros all_citations Hnd;
    cbn [fold_left].
  - split; [done|]. split; [by left|]. intros results total r Hin. by inversion Hin.
  - assert (NoDup (map cit_file_name (cite all_citations t))) as Hnd1.
    { destruct t; cbn [cite]; try done. by apply add_citations_spec. }
    destruct (IH (cite all_citations t) Hnd1) as (Hnd' & Horigin & Hcover).
    split; [done|]. split.
    + intros c Hc. destruct (Horigin c Hc) as [Hc'|(results & total & r & Hin & Hr & ->)].
      * destruct t as [| results total | |]; cbn [cite] in Hc'; try (by left).
        destruct (add_citations_spec results all_citations Hnd) as (_ & Ho & _).
        destruct (Ho c Hc') as [?|(r & Hr & ->)]; [by left|].
        right. exists results, total, r. split; [by left|done].
      * right. exists results, total, r. split; [by right|done].
    + intros results total r Hin Hr.
      apply elem_of_cons in Hin as [<-|Hin]; [|by eapply Hcover].
      cbn [cite].
      destruct (add_citations_spec results all_citations Hnd) as (_ & _ & _ & Hc).
      specialize (Hc r Hr). apply list_elem_of_fmap in Hc as (c & Hname & Hc).
      apply list_elem_of_fmap. exists c. split; [done|].
      by apply fold_cite_keeps.
Qed.

(** X11. The citations of a RAG answer are deduplicated by file name: no
    two carry the same file name, each one is built from a search result
    that a tool call of this run returned, and every file name among those
    search results is cited. *)
Theorem rag_citations_are_deduplicated (w : world) (user_id folder_id message : string)
    (history : option (list past_message)) (cl cl' : client) (g' : ghost)
    (answer : reply) :
  _chat_chroma_rag w user_id folder_id message history (Ghost 0 [], cl)
    = ((g', cl'), Ok answer) ->
  NoDup (map cit_file_name (default [] (citations answer))) /\
  (forall c, c ∈ default [] (citations answer) ->
     exists results total r,
       Results results total ∈ tool_results g' /\ r ∈ results /\ c = citation_of r) /\
  (forall results total r,
     Results results total ∈ tool_results g' -> r ∈ results ->
     sr_file_name r ∈ map cit_file_name (default [] (citations answer))).
Proof.
  unfold _chat_chroma_rag. intros Hrun.
  apply rag_loop_outcome in Hrun as (new & Hres & _ & _ & Hcit & _).
  cbn [tool_results app] in Hres. rewrite Hres, Hcit.
  destruct (fold_cite_spec new [] ltac:(constructor)) as (Hnd & Horigin & Hcover).
  assert (default [] (citations_or_none (fold_left cite new [])) = fold_left cite new [])
    as ->.
  { unfold citations_or_none. by destruct (fold_left cite new []). }
  split; [done|]. split; [|done].
  intros c Hc. destruct (Horigin c Hc) as [Hc'|?]; [by inversion Hc'|done].
Qed.

End Citations.

Section Tools.
Import Py Json Chroma VectorStore VectorStoreStats Drive Agent AgentFacts.





Lemma file_entries_listed (files : list file) :
  file_entries (map Ingestion.file_manifest_entry files) = Ok (map listed_entry files).
Proof.
  induction files as [|f files IH]; [done|].
  cbn [map file_entries]. rewrite IH. reflexivity.
Qed.

Lemma names_of_listed (files : list file) :
  names_of (map Ingestion.file_manifest_entry files) = Ok (map file_name files).
Proof.
  induction files as [|f files IH]; [done|].
  cbn [map names_of]. rewrite IH. reflexivity.
Qed.

(** X14. What ingestion stores is what the agent lists: after the manifest
    of a Drive listing is stored on a working store whose codec reads back
    what it wrote, the [list_files] tool answers one entry per listed file,
    in listing order, with the file's name, its path (its name when Drive
    gave no path) and its MIME type, and the number of files as total. *)
Theorem list_files_tool_shows_stored_listing (w : world)
    (user_id folder_id : string) (files : list file) (cl : client)
    (tool_call : list (string * json)) :
  healthy (chroma w) OpGetOrCreate = true ->
  healthy (chroma w) OpUpsert = true ->
  healthy (chroma w) OpGet = true ->
  json_loads (json_codec w)
    (json_dumps (json_codec w) (JList (map Ingestion.file_manifest_entry files)))
  = Ok (JList (map Ingestion.file_manifest_entry files)) ->
  assoc "tool" tool_call = Some (JStr "list_files") ->
  exists cl1,
    store_file_manifest (chroma w) (json_codec w) user_id folder_id
      (map Ingestion.file_manifest_entry files) cl = (cl1, Ok tt) /\
    _execute_tool w user_id folder_id tool_call cl1
    = (cl1, Ok (Files (map listed_entry files) (len files))).
Proof.
  intros Hgc Hup Hget Hjson Htool.
  destruct (store_file_manifest_run (chroma w) (json_codec w) cl user_id folder_id
              (map Ingestion.file_manifest_entry files)
              (map file_name (take 50 files)) Hgc Hup)
    as (cl1 & Hrun & Hc & Hpresent & _).
  { rewrite <- fmap_take. apply names_of_listed. }
  exists cl1. split; [done|].
  unfold _execute_tool. rewrite Htool. unfold bindM at 1.
  rewrite get_file_manifest_run by done. rewrite ensure_idemp by done.
  unfold manifest_answer. rewrite Hget, Hc, lookup_insert_eq. cbn [rec_metadata].
  destruct (manifest_metadata_lookup
              (json_dumps (json_codec w)
                 (JList (map Ingestion.file_manifest_entry files))))
    as (-> & _ & Hne).
  destruct (decide (manifest_metadata _ = ∅)); [done|].
  cbn [from_option id]. rewrite Hjson. unfold bindM, lift.
  rewrite file_entries_listed. cbn [ret]. unfold len. by rewrite length_map.
Qed.

End Tools.

(** ** Path selector and uploads, continued *)

Section SelectorFacts.
Import Py Json Drive Gemini.

Lemma sum_Permutation (l l' : list Z) : l ≡ₚ l' -> sum l = sum l'.
Proof.
  induction 1 as [|x l l' _ IH|x y l|l l' l'' _ IH1 _ IH2].
  - done.
  - by rewrite !sum_cons, IH.
  - rewrite !sum_cons. lia.
  - congruence.
Qed.

Lemma sum_nonneg (l : list Z) : Forall (fun z => 0 <= z) l -> 0 <= sum l.
Proof.
  induction 1 as [|z l Hz _ IH]; [done|]. rewrite sum_cons. lia.
Qed.

(** X15. The selector's answer depends on the listed files only as a
    collection: listing them in another order gives the same answer. And
    when no size is read as a negative number, a folder that holds only
    files of an eligible folder, each at most as often, is eligible too. *)
Theorem should_use_fast_path_hereditary (files files' : list file) :
  (files ≡ₚ files' -> should_use_fast_path files = should_use_fast_path files') /\
  (files' ⊆+ files ->
   Forall (fun f => 0 <= _get_file_size f) files ->
   should_use_fast_path files = true -> should_use_fast_path files' = true).
Proof.
  assert (forall fs fs' : list file, fs ≡ₚ fs' ->
            should_use_fast_path fs = true -> should_use_fast_path fs' = true)
    as Hdir.
  { intros fs fs' Hp. rewrite !should_use_fast_path_iff.
    intros (Hlen & Hsum & Hall). split; [|split].
    - unfold len in *. by rewrite <- Hp.
    - rewrite <- (sum_Permutation (map _get_file_size fs)); [done|].
      by apply fmap_Permutation.
    - by rewrite <- Hp. }
  split.
  - intros Hperm. destruct (should_use_fast_path files) eqn:H1.
    + symmetry. by eapply Hdir.
    + destruct (should_use_fast_path files') eqn:H2; [|done].
      symmetry in Hperm. rewrite (Hdir _ _ Hperm H2) in H1. done.
  - intros Hsub Hpos Hfast.
    apply submseteq_Permutation in Hsub as [rest Hperm].
    apply (Hdir _ _ Hperm) in Hfast. rewrite Hperm in Hpos.
    apply Forall_app in Hpos as [_ Hrest].
    apply should_use_fast_path_iff in Hfast as (Hlen & Hsum & Hall).
    apply should_use_fast_path_iff. split; [|split].
    + unfold len in *. rewrite length_app in Hlen. lia.
    + rewrite map_app, sum_app in Hsum.
      assert (0 <= sum (map _get_file_size rest)); [|lia].
      apply sum_nonneg. by apply Forall_fmap.
    + by apply Forall_app in Hall as [? _].
Qed.

Lemma pretty_N_char_digit (m : N) :
  (m < 10)%N ->
  PyInt.is_digit (pretty_N_char m) = true /\
  PyInt.digit_value (pretty_N_char m) = Z.of_N m.
Proof.
  intros Hm.
  assert (m = 0 \/ m = 1 \/ m = 2 \/ m = 3 \/ m = 4 \/ m = 5 \/ m = 6 \/ m = 7
          \/ m = 8 \/ m = 9)%N as Hcases by lia.
  repeat (destruct Hcases as [->|Hcases]; [by vm_compute|]). subst. by vm_compute.
Qed.

(** The digits that [pretty_N_go] puts in front of [s], read back. *)
Lemma pretty_N_go_digits (x : N) :
  forall s : string,
    exists ds : list ascii,
      list_ascii_of_string (pretty_N_go x s) = ds ++ list_ascii_of_string s /\
      Forall (fun c => PyInt.is_digit c = true) ds /\
      ((0 < x)%N -> ds <> []) /\
      forall (acc : Z) (l : list ascii),
        PyInt.digits acc true (ds ++ l)
        = PyInt.digits (acc * 10 ^ Z.of_nat (length ds) + Z.of_N x) true l.
Proof.
  induction (N.lt_wf_0 x) as [x _ IH]. intros s.
  assert (x = 0 \/ 0 < x)%N as [->|Hpos] by lia.
  - exists []. rewrite pretty_N_go_0. split; [done|]. split; [constructor|].
    split; [lia|]. intros acc l. cbn [app length]. f_equal. cbn. lia.
  - rewrite pretty_N_go_step by done.
    destruct (IH (x `div` 10)%N ltac:(by apply N.div_lt)
                (String (pretty_N_char (x `mod` 10)) s))
      as (ds & Hchars & Hdigits & _ & Hread).
    destruct (pretty_N_char_digit (x `mod` 10)%N ltac:(by apply N.mod_lt))
      as [Hd Hv].
    exists (ds ++ [pretty_N_char (x `mod` 10)]). split; [|split; [|split]].
    + rewrite Hchars. cbn [list_ascii_of_string]. by rewrite <- app_assoc.
    + apply Forall_app. split; [done|]. by repeat constructor.
    + intros _. by destruct ds.
    + intros acc l. rewrite <- app_assoc. cbn [app]. rewrite Hread.
      cbn [PyInt.digits]. rewrite Hd, Hv. f_equal.
      rewrite length_app. cbn [length].
      replace (Z.of_nat (length ds + 1)) with (Z.of_nat (length ds) + 1) by lia.
      rewrite Z.pow_add_r, Z.pow_1_r by lia.
      pose proof (N.div_mod x 10 ltac:(done)) as Hdm.
      rewrite N2Z.inj_div, N2Z.inj_mod. change (Z.of_N 10) with 10.
      pose proof (Z.div_mod (Z.of_N x) 10 ltac:(done)). lia.
Qed.







End SelectorFacts.

Section UploadFacts.
Import Py Json Drive Gemini GeminiUpload.

Lemma has_char_app (c : ascii) (a b : string) :
  has_char c (a +:+ b) = has_char c a || has_char c b.
Proof.
  induction a as [|x a IH]; [by rewrite append_nil|].
  rewrite append_cons. cbn [has_char]. by rewrite IH, orb_assoc.
Qed.

Lemma before_last_absent (c : ascii) (s : string) :
  has_char c s = false -> before_last c s = None.
Proof.
  induction s as [|x s IH]; [done|]. cbn [has_char before_last].
  intros [Hx Hs]%orb_false_iff. by rewrite IH, Hx.
Qed.

Lemma before_last_split (c : ascii) (base ext : string) :
  has_char c ext = false ->
  before_last c (base +:+ String c ext) = Some base.
Proof.
  intros Hext. induction base as [|x base IH].
  - rewrite append_nil. cbn [before_last].
    by rewrite before_last_absent, Ascii.eqb_refl.
  - rewrite append_cons. cbn [before_last]. by rewrite IH.
Qed.

Lemma base_name_split (base ext : string) :
  has_char "." ext = false ->
  (if has_char "." (base +:+ String "." ext)
   then rsplit_head "." (base +:+ String "." ext)
   else base +:+ String "." ext) = base.
Proof.
  intros Hext. rewrite has_char_app. cbn [has_char]. rewrite Ascii.eqb_refl.
  rewrite orb_true_r. unfold rsplit_head. by rewrite before_last_split.
Qed.

Lemma convert_attempt_cases (x : extractors) (content : bytes)
    (mime_type filename : string) :
  convert_attempt x content mime_type filename = Raise \/
  convert_attempt x content mime_type filename = Ok (content, mime_type, filename) \/
  exists encoded,
    mime_in mime_type OFFICE_MIMES_NEED_CONVERSION = true /\
    convert_attempt x content mime_type filename
    = Ok (encoded, "text/plain",
          (if has_char "." filename then rsplit_head "." filename else filename)
          +:+ ".txt").
Proof.
  unfold convert_attempt, mime_in, OFFICE_MIMES_NEED_CONVERSION. cbn [existsb].
  destruct (String.eqb mime_type DOCX) eqn:Hdocx;
    [|destruct (String.eqb mime_type XLSX) eqn:Hxlsx;
      [|destruct (String.eqb mime_type PPTX) eqn:Hpptx]].
  4: { right. by left. }
  all: match goal with
       | |- context [bind ?e _] => destruct e as [text|]; [|by left]
       end.
  all: cbn [bind]; destruct (encode_utf8 x text) as [encoded|]; [|by left].
  all: right; right; exists encoded; cbn [bind]; split; [|done].
  all: by rewrite ?orb_true_r.
Qed.

(** X17. [convert_office_to_text] never raises and only ever does one of
    two things: it hands back content, MIME type and file name untouched
    (always so for a MIME type that is not DOCX, XLSX or PPTX, and whenever
    extraction or encoding fails), or it answers text of type [text/plain]
    under a name in which only the last extension is replaced by [.txt]; a
    name without a dot gets [.txt] appended. *)
Theorem convert_office_to_text_renames (x : extractors) (content : bytes)
    (mime_type filename : string) :
  (mime_in mime_type OFFICE_MIMES_NEED_CONVERSION = false ->
   convert_office_to_text x content mime_type filename
   = (content, mime_type, filename)) /\
  (convert_attempt x content mime_type filename = Raise ->
   convert_office_to_text x content mime_type filename
   = (content, mime_type, filename)) /\
  (convert_office_to_text x content mime_type filename
   = (content, mime_type, filename) \/
   exists encoded filename',
     convert_office_to_text x content mime_type filename
     = (encoded, "text/plain", filename') /\
     (forall base ext, filename = base +:+ String "." ext ->
        has_char "." ext = false -> filename' = base +:+ ".txt") /\
     (has_char "." filename = false -> filename' = filename +:+ ".txt")).
Proof.
  unfold convert_office_to_text.
  destruct (convert_attempt_cases x content mime_type filename)
    as [->|[->|(encoded & Hoffice & ->)]].
  - split; [done|]. split; [done|]. by left.
  - split; [done|]. split; [done|]. by left.
  - split; [congruence|]. split; [done|]. right.
    eexists encoded, _. split; [done|]. split.
    + intros base ext -> Hext. by rewrite base_name_split.
    + by intros ->.
Qed.

Lemma extension_has_dot (mime_type : string) :
  has_char "." (get_or mime_type extension_map ".bin") = true.
Proof.
  unfold extension_map. cbn [get_or]. by repeat case_match.
Qed.

Lemma upload_filename_has_dot (filename mime_type : string) :
  has_char "." (upload_filename filename mime_type) = true.
Proof.
  unfold upload_filename. destruct (has_char "." filename) eqn:Hdot; [done|].
  cbn [negb]. by rewrite has_char_app, extension_has_dot, orb_true_r.
Qed.

Lemma export_mime_not_workspace (mime_type : string) :
  export_mime mime_type <> GDOC /\ export_mime mime_type <> GSHEET /\
  export_mime mime_type <> GSLIDES.
Proof.
  unfold export_mime.
  destruct (String.eqb_spec mime_type GDOC) as [|Hd]; [done|].
  destruct (String.eqb_spec mime_type GSHEET) as [|Hs]; [done|].
  destruct (String.eqb_spec mime_type GSLIDES) as [|Hp]; done.
Qed.

(** X18. What is sent to the Gemini File API for any file: the name always
    has an extension, the MIME type is never a Google Workspace type, and
    either the content goes out as downloaded under the exported MIME type,
    or the file was an Office or Workspace document and goes out as
    [text/plain]. *)
Theorem request_is_uploadable (x : extractors) (file_meta : file) (content : bytes) :
  exists content' filename' mime_type',
    request x file_meta content = (content', filename', mime_type') /\
    has_char "." filename' = true /\
    ~ mime_type' ∈ [GDOC; GSHEET; GSLIDES] /\
    ((content' = content /\ mime_type' = export_mime (file_mimeType file_meta)) \/
     (mime_type' = "text/plain" /\
      mime_in (export_mime (file_mimeType file_meta)) OFFICE_MIMES_NEED_CONVERSION
      = true)).
Proof.
  unfold request, prepared.
  destruct (export_mime_not_workspace (file_mimeType file_meta)) as (Hd & Hs & Hp).
  assert (~ export_mime (file_mimeType file_meta) ∈ [GDOC; GSHEET; GSLIDES])
    as Hexport.
  { rewrite !elem_of_cons, elem_of_nil. tauto. }
  destruct (mime_in _ OFFICE_MIMES_NEED_CONVERSION) eqn:Hoffice.
  - unfold convert_office_to_text.
    destruct (convert_attempt_cases x content
                (export_mime (file_mimeType file_meta)) (file_name file_meta))
      as [->|[->|(encoded & _ & ->)]].
    + eexists _, _, _. split; [done|]. split; [apply upload_filename_has_dot|].
      split; [done|]. by left.
    + eexists _, _, _. split; [done|]. split; [apply upload_filename_has_dot|].
      split; [done|]. by left.
    + eexists _, _, _. split; [done|]. split; [apply upload_filename_has_dot|].
      split; [|by right].
      rewrite !elem_of_cons, elem_of_nil. intros [H|[H|[H|[]]]]; discriminate H.
  - eexists _, _, _. split; [done|]. split; [apply upload_filename_has_dot|].
    split; [done|]. by left.
Qed.

End UploadFacts.

(** ** Text extraction and chunk records *)

Section ProcessingFacts.
Import Py Json Drive Chroma VectorStore Chunker GeminiUpload Processing.

Lemma ceil_div_le (n : Z) : 0 <= n -> ceil_div n 800 <= n.
Proof.
  intros Hn. unfold ceil_div.
  destruct (Z.eq_dec n 0) as [->|Hne]; [done|].
  assert ((n + 800 - 1) / 800 < n + 1); [|lia].
  apply Z.div_lt_upper_bound; lia.
Qed.

Lemma chunks_of_cases (t : text) :
  (len t <= CHUNK_SIZE /\ chunks_of t = [t]) \/
  (CHUNK_SIZE < len t /\
   chunks_of t = windows t CHUNK_SIZE 800 0 (Z.to_nat (ceil_div (len t) 800))).
Proof.
  unfold chunks_of, chunk_text.
  destruct (Z.leb_spec (len t) CHUNK_SIZE) as [Hle|Hgt]; [by left|]. right.
  split; [done|].
  rewrite (chunk_loop_windows t CHUNK_SIZE CHUNK_OVERLAP); [|done|].
  - cbn [from_option id app]. by rewrite Z.sub_0_r.
  - rewrite Z.sub_0_r. change (CHUNK_SIZE - CHUNK_OVERLAP) with 800.
    pose proof (ceil_div_le (len t) ltac:(unfold len; lia)). unfold len in *. lia.
Qed.

(** [chunks_of] is what [chunk_text] returns, whatever fuel beyond the
    length of the text it is given. *)
Lemma chunk_text_default_returns (t : text) (fuel : nat) :
  (length t < fuel)%nat ->
  chunk_text fuel t CHUNK_SIZE CHUNK_OVERLAP = Some (chunks_of t).
Proof.
  intros Hfuel. unfold chunks_of.
  assert (exists r, chunk_text (S (length t)) t CHUNK_SIZE CHUNK_OVERLAP = Some r)
    as [r Hr].
  { unfold chunk_text. destruct (len t <=? CHUNK_SIZE); [by eexists|].
    eexists. apply chunk_loop_windows; [done|].
    rewrite Z.sub_0_r. change (CHUNK_SIZE - CHUNK_OVERLAP) with 800.
    pose proof (ceil_div_le (len t) ltac:(unfold len; lia)). unfold len in *. lia. }
  rewrite Hr. cbn [from_option id].
  eapply chunk_text_fuel_mono; [exact Hr|lia].
Qed.

Lemma chunks_of_bounds (t : text) :
  t <> [] ->
  chunks_of t <> [] /\
  Forall (fun c => c <> [] /\ (length c <= 1000)%nat) (chunks_of t).
Proof.
  intros Hne. destruct (chunks_of_cases t) as [[Hle ->]|[Hgt ->]].
  - split; [done|]. apply Forall_singleton. split; [done|].
    unfold len, CHUNK_SIZE in Hle. lia.
  - pose proof (ceil_div_bounds (len t) 800 ltac:(done)
                  ltac:(unfold CHUNK_SIZE in Hgt; lia)) as Hb.
    split.
    + unfold windows. intros Hnil%(f_equal length).
      rewrite length_map, length_seq in Hnil. cbn in Hnil. unfold CHUNK_SIZE in *. lia.
    + unfold windows. apply Forall_fmap, Forall_forall. intros j Hj%elem_of_seq.
      cbn [Nat.add compose] in *. rewrite Z.add_0_l.
      rewrite slice_window by (unfold CHUNK_SIZE; nia).
      assert (length (take (Z.to_nat CHUNK_SIZE) (drop (Z.to_nat (Z.of_nat j * 800)) t))
              = Z.to_nat (Z.min 1000 (len t - Z.of_nat j * 800))) as Hlen.
      { rewrite length_take, length_drop. unfold len, CHUNK_SIZE in *. lia. }
      split.
      * intros Hnil. rewrite Hnil in Hlen. cbn in Hlen. unfold CHUNK_SIZE in *. nia.
      * rewrite Hlen. lia.
Qed.

Lemma chunks_of_join (t : text) :
  join_without_overlap CHUNK_OVERLAP (chunks_of t) = t.
Proof.
  destruct (chunks_of_cases t) as [[Hle ->]|[Hgt ->]].
  - cbn. by rewrite app_nil_r.
  - pose proof (ceil_div_bounds (len t) 800 ltac:(done)
                  ltac:(unfold CHUNK_SIZE in Hgt; lia)) as Hb.
    rewrite windows_nat; [|done|done|unfold len, CHUNK_SIZE in *; lia].
    destruct (Z.to_nat (ceil_div (len t) 800)) as [|m] eqn:Hm;
      [unfold CHUNK_SIZE in *; lia|].
    change CHUNK_OVERLAP with (Z.of_nat 200).
    change (Z.to_nat CHUNK_SIZE) with 1000%nat.
    change (Z.to_nat 800) with 800%nat.
    apply (join_windows t 1000 800 200 m); [lia|lia|].
    unfold len, CHUNK_SIZE in *. lia.
Qed.

Lemma lstrip_nil (space : ascii -> bool) (l : text) :
  lstrip space l = [] <-> Forall (fun c => space c = true) l.
Proof.
  induction l as [|c l IH]; cbn [lstrip]; [by split|].
  destruct (space c) eqn:Hc.
  - rewrite IH. split; [by constructor|]. intros H. by inversion H.
  - split; [done|]. intros H. inversion H; congruence.
Qed.

Lemma lstrip_head (space : ascii -> bool) (l l' : text) (c : ascii) :
  lstrip space l = c :: l' -> space c = false.
Proof.
  induction l as [|x l IH]; cbn [lstrip]; [done|].
  destruct (space x) eqn:Hx; [done|]. by intros [= <- _].
Qed.

Lemma strip_blank (space : ascii -> bool) (l : text) :
  truthy_list (strip space l) = false <-> Forall (fun c => space c = true) l.
Proof.
  unfold strip. rewrite <- lstrip_nil.
  destruct (lstrip space l) as [|c l'] eqn:Hl; [done|].
  split; [|done]. intros Hfalse.
  assert (rev (lstrip space (rev (c :: l'))) = []) as Hnil
    by (by destruct (rev (lstrip space (rev (c :: l'))))).
  apply (f_equal (@rev ascii)) in Hnil. rewrite rev_involutive in Hnil.
  cbn [rev] in Hnil. apply lstrip_nil in Hnil.
  rewrite Forall_app, Forall_singleton in Hnil. destruct Hnil as [_ Hc].
  apply lstrip_head in Hl. congruence.
Qed.

Lemma append_chunks_run (file : file) (mime_type : string) (total_chunks : Z)
    (chunks : list text) :
  forall (i : nat) (documents : list string) (metadatas : list metadata)
         (ids : list string),
    append_chunks file mime_type total_chunks i chunks (documents, metadatas, ids)
    = (documents ++ map string_of_list_ascii chunks,
       metadatas ++ map (fun j => chunk_metadata file mime_type j total_chunks)
                      (seq i (length chunks)),
       ids ++ map (chunk_id file) (seq i (length chunks))).
Proof.
  induction chunks as [|c chunks IH]; intros i documents metadatas ids.
  - cbn. by rewrite !app_nil_r.
  - cbn [append_chunks length seq map]. rewrite IH, <- !app_assoc. done.
Qed.

Lemma chunk_id_inj (file : file) (i j : nat) :
  chunk_id file i = chunk_id file j -> i = j.
Proof.
  unfold chunk_id. intros Heq.
  apply string_app_inj in Heq as [_ Heq]; [|done].
  apply (string_app_inj "_chunk_" "_chunk_") in Heq as [_ Heq]; [|done].
  by apply (inj pretty) in Heq.
Qed.

Lemma chunk_metadata_lookup (file : file) (mime_type : string) (i : nat)
    (total_chunks : Z) :
  chunk_metadata file mime_type i total_chunks !! "chunk_index"
    = Some (MInt (Z.of_nat i)) /\
  chunk_metadata file mime_type i total_chunks !! "total_chunks"
    = Some (MInt total_chunks) /\
  chunk_metadata file mime_type i total_chunks !! "file_id"
    = Some (MStr (file_id file)) /\
  chunk_metadata file mime_type i total_chunks !! "file_name"
    = Some (MStr (file_name file)) /\
  chunk_metadata file mime_type i total_chunks !! "type" = None.
Proof.
  unfold chunk_metadata. split_and!.
  - do 4 (rewrite lookup_insert_ne by done). apply lookup_insert_eq.
  - do 5 (rewrite lookup_insert_ne by done). apply lookup_singleton_eq.
  - apply lookup_insert_eq.
  - rewrite lookup_insert_ne by done. apply lookup_insert_eq.
  - do 5 (rewrite lookup_insert_ne by done). by apply lookup_singleton_ne.
Qed.

Lemma string_of_list_ascii_length (l : text) :
  String.length (string_of_list_ascii l) = length l.
Proof. induction l as [|c l IH]; [done|]. cbn. by rewrite IH. Qed.

Lemma process_file_content_run (r : readers) (file : file) (content : bytes)
    (t : text) :
  file_mimeType file <> "application/pdf" ->
  extract_text r content (file_mimeType file) = Ok t ->
  process_file_content r file content =
  Ok (if truthy_list (strip (isspace r) t)
      then (map string_of_list_ascii (chunks_of t),
            map (fun j => chunk_metadata file (file_mimeType file) j
                            (len (chunks_of t)))
              (seq 0 (length (chunks_of t))),
            map (chunk_id file) (seq 0 (length (chunks_of t))))
      else ([], [], [])).
Proof.
  intros Hpdf Hextract. unfold process_file_content.
  apply String.eqb_neq in Hpdf. rewrite Hpdf, Hextract. cbn [bind].
  destruct (truthy_list (strip (isspace r) t)); [|done].
  cbn [negb]. by rewrite append_chunks_run.
Qed.

(** X19. What [process_file_content] makes of a file that is not a PDF and
    whose text could be extracted. It never raises; the three lists have
    one length and the ids are pairwise different; there are no documents
    exactly when the text is all whitespace. Otherwise the documents are
    the chunks that [chunk_text] returns, which joined without their
    overlaps give the text back; every document is non-empty and at most
    1000 characters long, the [k]-th has the id [<file id>_chunk_<k>] and
    metadata with [chunk_index] [k], the number of documents as
    [total_chunks], and no [type] key. *)
Theorem process_file_content_rows (r : readers) (file : file) (content : bytes)
    (t : text) :
  file_mimeType file <> "application/pdf" ->
  extract_text r content (file_mimeType file) = Ok t ->
  exists documents metadatas ids,
    process_file_content r file content = Ok (documents, metadatas, ids) /\
    length metadatas = length documents /\
    length ids = length documents /\
    NoDup ids /\
    (documents = [] <-> Forall (fun c => isspace r c = true) t) /\
    (~ Forall (fun c => isspace r c = true) t ->
     exists chunks,
       (forall fuel, (length t < fuel)%nat ->
          chunk_text fuel t CHUNK_SIZE CHUNK_OVERLAP = Some chunks) /\
       documents = map string_of_list_ascii chunks /\
       join_without_overlap CHUNK_OVERLAP chunks = t) /\
    (forall (k : nat) d, documents !! k = Some d ->
       d <> "" /\ (String.length d <= 1000)%nat /\
       ids !! k = Some (chunk_id file k) /\
       exists m,
         metadatas !! k = Some m /\
         m !! "chunk_index" = Some (MInt (Z.of_nat k)) /\
         m !! "total_chunks" = Some (MInt (len documents)) /\
         m !! "file_id" = Some (MStr (file_id file)) /\
         m !! "type" = None).
Proof.
  intros Hpdf Hextract. rewrite (process_file_content_run r file content t) by done.
  destruct (truthy_list (strip (isspace r) t)) eqn:Hblank.
  - assert (~ Forall (fun c => isspace r c = true) t) as Hnot.
    { intros H. apply strip_blank in H. congruence. }
    assert (t <> []) as Hne by (intros ->; apply Hnot; constructor).
    destruct (chunks_of_bounds t Hne) as [Hchunks Hall].
    eexists _, _, _. split; [done|].
    rewrite !length_map, !length_seq.
    split; [done|]. split; [done|]. split; [|split; [|split]].
    + apply NoDup_fmap_2_strong; [|apply NoDup_seq].
      intros i j _ _. apply chunk_id_inj.
    + split; [|done]. intros Hnil%(f_equal length). rewrite length_map in Hnil.
      by destruct (chunks_of t).
    + intros _. exists (chunks_of t). split; [|split; [done|]].
      * intros fuel Hfuel. by apply chunk_text_default_returns.
      * apply chunks_of_join.
    + intros k d Hd. apply list_lookup_fmap_Some_1 in Hd as (c & -> & Hc).
      pose proof (proj1 (Forall_lookup _ _) Hall k c Hc) as [Hcne Hclen].
      assert (k < length (chunks_of t))%nat as Hk by (by eapply lookup_lt_Some).
      split; [by destruct c|]. split; [by rewrite string_of_list_ascii_length|].
      split.
      * rewrite list_lookup_fmap, lookup_seq_lt by done. done.
      * eexists. split.
        { rewrite list_lookup_fmap, lookup_seq_lt by done. done. }
        cbn [Nat.add]. unfold len. rewrite length_map.
        destruct (chunk_metadata_lookup file (file_mimeType file) k
                    (Z.of_nat (length (chunks_of t)))) as (? & ? & ? & _ & ?).
        done.
  - assert (Forall (fun c => isspace r c = true) t) as Hall
      by (by apply strip_blank).
    exists [], [], []. split; [done|]. split; [done|]. split; [done|].
    split; [constructor|]. split; [done|]. split; [done|].
    intros k d Hd. by rewrite lookup_nil in Hd.
Qed.



Lemma page_chunk_metadata_lookup (file : file) (chunk_idx page_num : nat)
    (total_pages : Z) (i : nat) :
  page_chunk_metadata file chunk_idx page_num total_pages i !! "chunk_index"
    = Some (MInt (Z.of_nat chunk_idx)) /\
  page_chunk_metadata file chunk_idx page_num total_pages i !! "page_number"
    = Some (MInt (Z.of_nat page_num)) /\
  page_chunk_metadata file chunk_idx page_num total_pages i !! "total_pages"
    = Some (MInt total_pages) /\
  page_chunk_metadata file chunk_idx page_num total_pages i !! "chunk_in_page"
    = Some (MInt (Z.of_nat i)).
Proof.
  unfold page_chunk_metadata. split_and!.
  - do 4 (rewrite lookup_insert_ne by done). apply lookup_insert_eq.
  - do 5 (rewrite lookup_insert_ne by done). apply lookup_insert_eq.
  - do 6 (rewrite lookup_insert_ne by done). apply lookup_insert_eq.
  - do 7 (rewrite lookup_insert_ne by done). apply lookup_singleton_eq.
Qed.

Lemma append_page_chunks_run (file : file) (total_pages : Z) (page_num : nat)
    (page_chunks : list text) :
  forall (i chunk_idx : nat) (documents : list string)
         (metadatas : list metadata) (ids : list string),
    append_page_chunks file total_pages page_num i page_chunks chunk_idx
      (documents, metadatas, ids)
    = ((chunk_idx + length page_chunks)%nat,
       (documents ++ map string_of_list_ascii page_chunks,
        metadatas ++ map (fun j => page_chunk_metadata file (chunk_idx + j)
                                     page_num total_pages (i + j))
                       (seq 0 (length page_chunks)),
        ids ++ map (fun j => page_chunk_id file page_num (i + j))
                 (seq 0 (length page_chunks)))).
Proof.
  induction page_chunks as [|c page_chunks IH];
    intros i chunk_idx documents metadatas ids.
  - cbn. by rewrite !app_nil_r, Nat.add_0_r.
  - cbn [append_page_chunks length seq map]. rewrite IH, <- !app_assoc.
    cbn [app]. rewrite !Nat.add_0_r, <- !seq_shift, !map_map.
    f_equal; [lia|]. f_equal; [f_equal|]; do 2 f_equal.
    + apply map_ext. intros j. f_equal; lia.
    + apply map_ext. intros j. f_equal; lia.
Qed.

(** The rows that the page loop adds, position by position. *)
Lemma append_pages_run (file : file) (total_pages : Z) (pages : list (nat * text)) :
  forall (chunk_idx : nat) (documents : list string) (metadatas : list metadata)
         (ids : list string),
    length documents = chunk_idx -> length metadatas = chunk_idx ->
    length ids = chunk_idx ->
    exists documents' metadatas' ids',
      append_pages file total_pages pages chunk_idx (documents, metadatas, ids)
      = (documents', metadatas', ids') /\
      documents' = documents ++
        concat (map (fun pt => map string_of_list_ascii (chunks_of (snd pt))) pages) /\
      ids' = ids ++
        concat (map (fun pt => map (page_chunk_id file (fst pt))
                                 (seq 0 (length (chunks_of (snd pt))))) pages) /\
      length metadatas' = length documents' /\
      take chunk_idx metadatas' = metadatas /\
      forall (k : nat) m, (chunk_idx <= k)%nat -> metadatas' !! k = Some m ->
        m !! "chunk_index" = Some (MInt (Z.of_nat k)) /\
        m !! "total_pages" = Some (MInt total_pages) /\
        exists (page_num i : nat) (page_text c : text),
          (page_num, page_text) ∈ pages /\
          m !! "page_number" = Some (MInt (Z.of_nat page_num)) /\
          m !! "chunk_in_page" = Some (MInt (Z.of_nat i)) /\
          chunks_of page_text !! i = Some c /\
          documents' !! k = Some (string_of_list_ascii c) /\
          ids' !! k = Some (page_chunk_id file page_num i).
Proof.
  induction pages as [|[page_num page_text] pages IH];
    intros chunk_idx documents metadatas ids Hd Hm Hi.
  - exists documents, metadatas, ids. cbn. rewrite !app_nil_r.
    split; [done|]. split; [done|]. split; [done|]. split; [congruence|].
    split; [by rewrite take_ge by lia|].
    intros k m Hk Hlook. apply lookup_lt_Some in Hlook. lia.
  - cbn [append_pages]. rewrite append_page_chunks_run.
    set (n := length (chunks_of page_text)).
    destruct (IH (chunk_idx + n)%nat
                (documents ++ map string_of_list_ascii (chunks_of page_text))
                (metadatas ++ map (fun j => page_chunk_metadata file (chunk_idx + j)
                                              page_num total_pages (0 + j))
                                (seq 0 n))
                (ids ++ map (fun j => page_chunk_id file page_num (0 + j)) (seq 0 n)))
      as (documents' & metadatas' & ids' & Hrun & Hdocs & Hids & Hlen & Htake & Hrows).
    { rewrite length_app, length_map. unfold n. lia. }
    { rewrite length_app, length_map, length_seq. lia. }
    { rewrite length_app, length_map, length_seq. lia. }
    exists documents', metadatas', ids'. split; [exact Hrun|].
    cbn [map concat fst snd]. rewrite !app_assoc.
    split; [exact Hdocs|]. split; [exact Hids|]. split; [exact Hlen|]. split.
    { apply (f_equal (take chunk_idx)) in Htake.
      rewrite take_take, Nat.min_l in Htake by lia. rewrite Htake.
      by rewrite take_app_length' by done. }
    intros k m Hk Hlook.
    destruct (Nat.lt_ge_cases k (chunk_idx + n)) as [Hlt|Hge].
    + assert (metadatas' !! k =
              Some (page_chunk_metadata file k page_num total_pages (k - chunk_idx)))
        as Hmeta.
      { rewrite <- (lookup_take_lt metadatas' (chunk_idx + n) k) by done.
        rewrite Htake, lookup_app_r by lia. rewrite Hm.
        rewrite list_lookup_fmap, lookup_seq_lt by lia. cbn. do 2 f_equal; lia. }
      rewrite Hmeta in Hlook. injection Hlook as <-.
      destruct (page_chunk_metadata_lookup file k page_num total_pages
                  (k - chunk_idx)) as (Hci & Hpn & Htp & Hcp).
      split; [done|]. split; [done|].
      destruct (lookup_lt_is_Some_2 (chunks_of page_text) (k - chunk_idx)
                  ltac:(unfold n in Hlt; lia)) as [c Hc].
      exists page_num, (k - chunk_idx)%nat, page_text, c.
      split; [by left|]. split; [done|]. split; [done|]. split; [done|]. split.
      * rewrite Hdocs, lookup_app_l by (rewrite length_app, length_map; unfold n in Hlt; lia).
        rewrite lookup_app_r by lia. rewrite Hd, list_lookup_fmap, Hc. done.
      * rewrite Hids, lookup_app_l
          by (rewrite length_app, length_map, length_seq; lia).
        rewrite lookup_app_r by lia. rewrite Hi.
        rewrite list_lookup_fmap, lookup_seq_lt by lia. done.
    + destruct (Hrows k m Hge Hlook)
        as (Hci & Htp & p & i & t & c & Hin & Hpn & Hcp & Hc & Hdk & Hik).
      split; [done|]. split; [done|].
      exists p, i, t, c. split; [by right|]. done.
Qed.

Lemma number_pages_elem (space : ascii -> bool) (texts : list text) :
  forall (i page_num : nat) (page_text : text),
    (page_num, page_text) ∈ number_pages space i texts ->
    (i <= page_num)%nat /\ texts !! (page_num - i)%nat = Some page_text /\
    truthy_list (strip space page_text) = true.
Proof.
  induction texts as [|t texts IH]; intros i p pt Hin; cbn [number_pages] in Hin.
  - by inversion Hin.
  - assert ((p, pt) ∈ number_pages space (S i) texts ->
            (i <= p)%nat /\ (t :: texts) !! (p - i)%nat = Some pt /\
            truthy_list (strip space pt) = true) as Hrest.
    { intros H. destruct (IH _ _ _ H) as (Hle & Hlook & Htrue).
      split; [lia|]. split; [|done].
      replace (p - i)%nat with (S (p - S i)) by lia. done. }
    destruct (truthy_list (strip space t)) eqn:Ht; [|by apply Hrest].
    apply elem_of_cons in Hin as [[= -> ->]|Hin]; [|by apply Hrest].
    split; [done|]. by rewrite Nat.sub_diag.
Qed.

Lemma number_pages_NoDup (space : ascii -> bool) (texts : list text) :
  forall i : nat, NoDup (map fst (number_pages space i texts)).
Proof.
  induction texts as [|t texts IH]; intros i; cbn [number_pages]; [constructor|].
  destruct (truthy_list (strip space t)); [|apply IH].
  cbn [map fst]. constructor; [|apply IH].
  intros ([p pt] & Hp & Hin)%list_elem_of_fmap. cbn in Hp. subst p.
  apply number_pages_elem in Hin. lia.
Qed.

Lemma number_pages_length (space : ascii -> bool) (texts : list text) :
  forall i : nat,
    length (number_pages space i texts)
    = length (List.filter (fun t => truthy_list (strip space t)) texts).
Proof.
  induction texts as [|t texts IH]; intros i; cbn [number_pages List.filter];
    [done|].
  destruct (truthy_list (strip space t)); cbn [length]; by rewrite IH.
Qed.

Lemma number_pages_nil (space : ascii -> bool) (texts : list text) :
  forall i : nat,
    number_pages space i texts = [] <->
    Forall (fun t => Forall (fun c => space c = true) t) texts.
Proof.
  induction texts as [|t texts IH]; intros i; cbn [number_pages]; [done|].
  rewrite Forall_cons, <- strip_blank.
  destruct (truthy_list (strip space t)).
  - split; [done|]. by intros [? _].
  - rewrite IH. tauto.
Qed.

Lemma pretty_nat_lacks_underscore (n : nat) : Text.lacks "_" (pretty n).
Proof.
  unfold Text.lacks, pretty, pretty_nat, pretty, pretty_N.
  destruct (decide (N.of_nat n = 0%N)) as [|_].
  - repeat constructor. done.
  - destruct (pretty_N_go_digits (N.of_nat n) "") as (ds & -> & Hdigits & _).
    cbn [list_ascii_of_string]. rewrite app_nil_r.
    eapply Forall_impl; [exact Hdigits|]. intros c Hc ->. done.
Qed.

Lemma separator_inj (a b x y : string) :
  Text.lacks "_" a -> Text.lacks "_" b ->
  a +:+ String "_" x = b +:+ String "_" y -> a = b /\ x = y.
Proof.
  unfold Text.lacks. revert b.
  induction a as [|c a IH]; intros [|d b] Ha Hb Heq;
    rewrite ?append_nil, ?append_cons in Heq; cbn in Ha, Hb.
  - by injection Heq as ->.
  - injection Heq as <- _. by inversion Hb.
  - injection Heq as -> _. by inversion Ha.
  - injection Heq as -> Heq. inversion Ha; inversion Hb; subst.
    destruct (IH b) as [-> ->]; done.
Qed.

Lemma page_chunk_id_inj (file : file) (p i p' i' : nat) :
  page_chunk_id file p i = page_chunk_id file p' i' -> p = p' /\ i = i'.
Proof.
  unfold page_chunk_id. intros Heq.
  apply string_app_inj in Heq as [_ Heq]; [|done].
  apply (string_app_inj "_page_" "_page_") in Heq as [_ Heq]; [|done].
  change ("_chunk_" +:+ pretty i) with (String "_" ("chunk_" +:+ pretty i)) in Heq.
  change ("_chunk_" +:+ pretty i') with (String "_" ("chunk_" +:+ pretty i')) in Heq.
  apply separator_inj in Heq as [Hp Heq]; [|apply pretty_nat_lacks_underscore..].
  apply (string_app_inj "chunk_" "chunk_") in Heq as [_ Hi]; [|done].
  split; by apply (inj pretty).
Qed.

Lemma page_ids_NoDup (file : file) (pages : list (nat * text)) :
  NoDup (map fst pages) ->
  NoDup (concat (map (fun pt => map (page_chunk_id file (fst pt))
                                  (seq 0 (length (chunks_of (snd pt))))) pages)).
Proof.
  induction pages as [|[p t] pages IH]; cbn [map concat fst snd]; [constructor|].
  intros [Hp Hnd]%NoDup_cons. apply NoDup_app. split; [|split; [|by apply IH]].
  - apply NoDup_fmap_2_strong; [|apply NoDup_seq].
    intros i j _ _ Heq. by apply page_chunk_id_inj in Heq as [_ ?].
  - intros x (i & -> & _)%list_elem_of_fmap Hin.
    apply list_elem_of_In, in_concat in Hin as (l & Hl%list_elem_of_In & Hx%list_elem_of_In).
    apply list_elem_of_fmap in Hl as ([p' t'] & -> & Hpt).
    apply list_elem_of_fmap in Hx as (j & Heq & _). cbn [fst] in Heq.
    apply page_chunk_id_inj in Heq as [-> _].
    apply Hp, list_elem_of_fmap. by exists (p', t').
Qed.

(** X21. What [process_pdf_content] makes of a PDF whose pages could be
    read. The three lists have one length and the ids are pairwise
    different; there are no documents exactly when every page is blank.
    The [k]-th metadata has [chunk_index] [k], counted through the whole
    file; its [page_number] is the 1-based position in the PDF of a page
    that is not blank, its document is the chunk of that page's text at
    position [chunk_in_page], its id is
    [<file id>_page_<page>_chunk_<chunk_in_page>]; and [total_pages] is the
    number of pages that are not blank, not the length of the PDF. *)
Theorem process_pdf_content_rows (r : readers) (file : file) (content : bytes)
    (texts : list text) :
  pdf_page_texts r content = Ok texts ->
  exists documents metadatas ids,
    process_pdf_content r file content = Ok (documents, metadatas, ids) /\
    length metadatas = length documents /\
    length ids = length documents /\
    NoDup ids /\
    (documents = [] <->
     Forall (fun t => Forall (fun c => isspace r c = true) t) texts) /\
    forall (k : nat) m, metadatas !! k = Some m ->
      m !! "chunk_index" = Some (MInt (Z.of_nat k)) /\
      m !! "total_pages"
        = Some (MInt (len (List.filter
                             (fun t => truthy_list (strip (isspace r) t)) texts))) /\
      exists (page_num i : nat) (page_text c : text),
        (1 <= page_num)%nat /\
        texts !! (page_num - 1)%nat = Some page_text /\
        ~ Forall (fun c => isspace r c = true) page_text /\
        m !! "page_number" = Some (MInt (Z.of_nat page_num)) /\
        m !! "chunk_in_page" = Some (MInt (Z.of_nat i)) /\
        chunks_of page_text !! i = Some c /\
        documents !! k = Some (string_of_list_ascii c) /\
        ids !! k = Some (page_chunk_id file page_num i).
Proof.
  intros Hread. unfold process_pdf_content, extract_pdf_pages. rewrite Hread.
  cbn [bind]. set (pages := number_pages (isspace r) 1 texts).
  destruct (truthy_list pages) eqn:Hpages.
  - cbn [negb].
    destruct (append_pages_run file (len pages) pages 0 [] [] [] eq_refl eq_refl
                eq_refl)
      as (documents & metadatas & ids & -> & Hdocs & Hids & Hlen & _ & Hrows).
    cbn [app] in Hdocs, Hids.
    exists documents, metadatas, ids. split; [done|]. split; [done|].
    split; [|split; [|split]].
    + rewrite Hdocs, Hids. clear. induction pages as [|[p t] pages IH]; [done|].
      cbn [map concat fst snd]. rewrite !length_app, !length_map, length_seq.
      by rewrite IH.
    + rewrite Hids. apply page_ids_NoDup, number_pages_NoDup.
    + split.
      * intros ->. destruct pages as [|[p t] pages'] eqn:Hp; [done|].
        assert ((p, t) ∈ pages) as Hin by (rewrite Hp; by left).
        apply number_pages_elem in Hin as (_ & _ & Htrue).
        assert (t <> []) as Hne by (by intros ->).
        destruct (chunks_of_bounds t Hne) as [Hchunks _].
        cbn [map concat snd] in Hdocs. by destruct (chunks_of t).
      * intros Hblank%(number_pages_nil (isspace r) texts 1).
        fold pages in Hblank. by rewrite Hblank in Hpages.
    + intros k m Hlook.
      destruct (Hrows k m ltac:(lia) Hlook)
        as (Hci & Htp & p & i & t & c & Hin & Hpn & Hcp & Hc & Hdk & Hik).
      split; [done|]. split.
      { rewrite Htp. unfold len, pages. by rewrite number_pages_length. }
      exists p, i, t, c. apply number_pages_elem in Hin as (Hle & Htext & Htrue).
      split; [done|]. split; [done|]. split; [|done].
      intros Hblank%strip_blank. congruence.
  - cbn [negb]. exists [], [], []. split; [done|]. split; [done|]. split; [done|].
    split; [constructor|]. split.
    + split; [|done]. intros _. apply (number_pages_nil (isspace r) texts 1).
      fold pages. by destruct pages.
    + intros k m Hlook. by rewrite lookup_nil in Hlook.
Qed.

Lemma process_batch_app (r : readers) (a b : list (file * option bytes)) :
  process_batch r (a ++ b) =
  bind (process_batch r a) (fun ra =>
  bind (process_batch r b) (fun rb => Ok (ra ++ rb))).
Proof.
  induction a as [|[f [c|]] a IH]; cbn [app process_batch].
  - cbn. by destruct (process_batch r b).
  - destruct (process_file_content r f c); [|done]. cbn [bind]. rewrite IH.
    destruct (process_batch r a); [|done]. cbn [bind].
    by destruct (process_batch r b).
  - rewrite IH. destruct (process_batch r a); [|done]. cbn [bind].
    by destruct (process_batch r b).
Qed.

(** Gathering [m] batches of width [b] from batch [k] on is processing
    that stretch of the list in one go. *)
Lemma gather_batches (r : readers) (downloaded : list (file * option bytes))
    (b : nat) :
  forall m k : nat,
    bind (gather (map (process_batch r)
                    (map (fun i => take b (drop i downloaded))
                       (map (fun j => j * b)%nat (seq k m)))))
      (fun batch_results => Ok (concat batch_results))
    = process_batch r (take (m * b) (drop (k * b) downloaded)).
Proof.
  induction m as [|m IH]; intros k; [by rewrite take_0|].
  cbn [seq map gather].
  replace (S m * b)%nat with (b + m * b)%nat by lia.
  rewrite <- take_take_drop, drop_drop, process_batch_app.
  replace (k * b + b)%nat with (S k * b)%nat by lia. rewrite <- IH.
  destruct (process_batch r (take b (drop (k * b) downloaded))); [|done].
  cbn [bind]. by destruct (gather _).
Qed.

Lemma batches_cover (n b : nat) : (0 < b)%nat -> (n <= (n + b - 1) / b * b)%nat.
Proof.
  intros Hb. pose proof (Nat.div_mod (n + b - 1) b ltac:(lia)) as Hdm.
  pose proof (Nat.mod_upper_bound (n + b - 1) b ltac:(lia)). nia.
Qed.

Lemma fold_collect_concat (batch_results : list (list (rows * bool))) :
  forall acc : rows * Z,
    fold_left (fun acc batch_result => fold_left collect batch_result acc)
      batch_results acc
    = fold_left collect (concat batch_results) acc.
Proof.
  induction batch_results as [|br brs IH]; intros acc; [done|].
  cbn [fold_left concat]. by rewrite fold_left_app, IH.
Qed.

Lemma process_files_parallel_in_order (r : readers)
    (downloaded : list (file * option bytes)) :
  process_files_parallel r downloaded = process_files_in_order r downloaded.
Proof.
  unfold process_files_parallel, process_files_in_order, batch_starts.
  set (b := Nat.max 1 (length downloaded / 4)).
  pose proof (gather_batches r downloaded b
                ((length downloaded + b - 1) / b) 0) as Hgather.
  cbn [Nat.mul] in Hgather. rewrite drop_0 in Hgather.
  rewrite take_ge in Hgather by (apply batches_cover; lia).
  rewrite <- Hgather. destruct (gather _) as [batch_results|]; [|done].
  cbn [bind]. by rewrite fold_collect_concat.
Qed.

(** X22. Splitting the downloads into batches for the worker threads
    changes nothing: [process_files_parallel] returns what processing the
    files one after the other, in download order, returns, and raises
    exactly when that does. *)
Theorem process_files_parallel_is_sequential (r : readers)
    (downloaded : list (file * option bytes)) :
  process_files_parallel r downloaded
  = bind (process_batch r downloaded) (fun results =>
    let '((all_documents, all_metadatas, all_ids), indexed_count) :=
      fold_left collect results (([], [], []), 0) in
    Ok (all_documents, all_metadatas, all_ids, indexed_count)).
Proof. apply process_files_parallel_in_order. Qed.

Lemma process_file_content_lengths (r : readers) (file : file) (content : bytes)
    (documents : list string) (metadatas : list metadata) (ids : list string) :
  process_file_content r file content = Ok (documents, metadatas, ids) ->
  length metadatas = length documents /\ length ids = length documents.
Proof.
  destruct (String.eqb_spec (file_mimeType file) "application/pdf") as [Hpdf|Hpdf].
  - unfold process_file_content. rewrite Hpdf. cbn [String.eqb Ascii.eqb].
    change (String.eqb "application/pdf" "application/pdf") with true. cbn iota.
    unfold process_pdf_content.
    destruct (extract_pdf_pages r content) as [pages|]; [|done]. cbn [bind].
    destruct (truthy_list pages); cbn [negb]; [|by intros [= <- <- <-]].
    destruct (append_pages_run file (len pages) pages 0 [] [] [] eq_refl eq_refl
                eq_refl)
      as (documents' & metadatas' & ids' & -> & Hdocs & Hids & Hlen & _).
    intros [= <- <- <-]. split; [done|]. rewrite Hdocs, Hids. cbn [app].
    clear. induction pages as [|[p t] pages IH]; [done|].
    cbn [map concat fst snd]. rewrite !length_app, !length_map, length_seq.
    by rewrite IH.
  - destruct (extract_text r content (file_mimeType file)) as [t|] eqn:Hextract.
    + rewrite (process_file_content_run r file content t) by done.
      destruct (truthy_list _); intros [= <- <- <-]; [|done].
      by rewrite !length_map, !length_seq.
    + unfold process_file_content. apply String.eqb_neq in Hpdf.
      by rewrite Hpdf, Hextract.
Qed.

Lemma process_batch_Raise (r : readers) (items : list (file * option bytes)) :
  process_batch r items = Raise <->
  exists file content,
    (file, Some content) ∈ items /\ process_file_content r file content = Raise.
Proof.
  induction items as [|[f [c|]] items IH]; cbn [process_batch].
  - split; [done|]. intros (? & ? & Hin & _). by inversion Hin.
  - destruct (process_file_content r f c) as [processed|] eqn:Hf; cbn [bind].
    + destruct (process_batch r items) as [rs|]; cbn [bind].
      * split; [done|]. intros (f' & c' & Hin & Hraise).
        apply elem_of_cons in Hin as [[= -> ->]|Hin]; [congruence|].
        destruct IH as [_ IH]. discriminate IH. by exists f', c'.
      * split; [|done]. intros _. destruct IH as [IH _].
        destruct (IH eq_refl) as (f' & c' & Hin & Hraise).
        exists f', c'. split; [by right|done].
    + split; [|done]. intros _. exists f, c. split; [by left|done].
  - destruct (process_batch r items) as [rs|]; cbn [bind].
    + split; [done|]. intros (f' & c' & Hin & Hraise).
      apply elem_of_cons in Hin as [[=]|Hin].
      destruct IH as [_ IH]. discriminate IH. by exists f', c'.
    + split; [|done]. intros _. destruct IH as [IH _].
      destruct (IH eq_refl) as (f' & c' & Hin & Hraise).
      exists f', c'. split; [by right|done].
Qed.

Lemma process_batch_Ok (r : readers) (items : list (file * option bytes)) :
  forall results,
    process_batch r items = Ok results ->
    Forall (fun res : rows * bool =>
              length (snd (fst res)) = length (fst (fst (fst res))) /\
              length (snd (fst (fst res))) = length (fst (fst (fst res))) /\
              snd res = truthy_list (fst (fst (fst res)))) results /\
    (length (List.filter snd results)
     <= length (List.filter has_content items))%nat.
Proof.
  induction items as [|[f [c|]] items IH]; intros results; cbn [process_batch].
  - intros [= <-]. split; [constructor|done].
  - destruct (process_file_content r f c) as [[[d m] i]|] eqn:Hf; [|done].
    cbn [bind]. destruct (process_batch r items) as [rs|]; [|done].
    cbn [bind]. intros [= <-]. destruct (IH rs eq_refl) as [Hall Hcount].
    apply process_file_content_lengths in Hf as [Hm Hi].
    split; [by constructor|].
    cbn [List.filter has_content snd fst length]. destruct (truthy_list d); cbn; lia.
  - destruct (process_batch r items) as [rs|]; [|done].
    cbn [bind]. intros [= <-]. destruct (IH rs eq_refl) as [Hall Hcount].
    split; [by constructor|]. cbn [List.filter has_content snd]. done.
Qed.

Lemma fold_collect_spec (results : list (rows * bool)) :
  forall (documents : list string) (metadatas : list metadata) (ids : list string)
         (indexed_count : Z),
    Forall (fun res : rows * bool =>
              length (snd (fst res)) = length (fst (fst (fst res))) /\
              length (snd (fst (fst res))) = length (fst (fst (fst res))) /\
              snd res = truthy_list (fst (fst (fst res)))) results ->
    length metadatas = length documents -> length ids = length documents ->
    0 <= indexed_count -> (indexed_count = 0 <-> documents = []) ->
    exists documents' metadatas' ids' indexed_count',
      fold_left collect results ((documents, metadatas, ids), indexed_count)
      = ((documents', metadatas', ids'), indexed_count') /\
      length metadatas' = length documents' /\
      length ids' = length documents' /\
      indexed_count' = indexed_count + len (List.filter snd results) /\
      (indexed_count' = 0 <-> documents' = []).
Proof.
  induction results as [|[[[d m] i] ok] results IH];
    intros documents metadatas ids n Hall Hm Hi Hn Hzero.
  - exists documents, metadatas, ids, n. unfold len. cbn. split; [done|].
    split; [done|]. split; [done|]. split; [lia|done].
  - apply Forall_cons in Hall as [(Hm' & Hi' & Hok) Hall]. cbn [fst snd] in *.
    cbn [fold_left collect List.filter snd]. destruct ok.
    + destruct (IH (documents ++ d) (metadatas ++ m) (ids ++ i) (n + 1) Hall)
        as (d' & m' & i' & n' & -> & ? & ? & -> & ?).
      { rewrite !length_app. lia. }
      { rewrite !length_app. lia. }
      { lia. }
      { split; [lia|]. intros [_ ->]%app_eq_nil. done. }
      eexists _, _, _, _. split; [done|]. split; [done|]. split; [done|].
      split; [|done]. unfold len. cbn [length]. lia.
    + destruct (IH documents metadatas ids n Hall Hm Hi Hn Hzero)
        as (d' & m' & i' & n' & -> & ? & ? & -> & ?).
      eexists _, _, _, _. done.
Qed.

(** X23. What [process_files_parallel] hands to the vector store. It
    raises exactly when processing some downloaded file raises. Otherwise
    the three lists have one length, so that they are accepted as one
    upsert; [indexed_count] is at most the number of downloads that
    arrived; and it is zero exactly when there are no documents. *)
Theorem process_files_parallel_summary (r : readers)
    (downloaded : list (file * option bytes)) :
  (process_files_parallel r downloaded = Raise <->
   exists file content,
     (file, Some content) ∈ downloaded /\
     process_file_content r file content = Raise) /\
  (forall documents metadatas ids indexed_count,
     process_files_parallel r downloaded
     = Ok (documents, metadatas, ids, indexed_count) ->
     length metadatas = length documents /\
     length ids = length documents /\
     0 <= indexed_count <= len (List.filter has_content downloaded) /\
     (indexed_count = 0 <-> documents = [])).
Proof.
  rewrite process_files_parallel_in_order. unfold process_files_in_order.
  destruct (process_batch r downloaded) as [results|] eqn:Hbatch; cbn [bind].
  - destruct (process_batch_Ok r downloaded results Hbatch) as [Hall Hcount].
    destruct (fold_collect_spec results [] [] [] 0 Hall eq_refl eq_refl
                ltac:(done) ltac:(done))
      as (d & m & i & n & -> & Hm & Hi & -> & Hzero).
    split.
    + split; [done|]. intros Hraise. apply process_batch_Raise in Hraise.
      congruence.
    + intros documents metadatas ids indexed_count [= <- <- <- <-].
      split; [done|]. split; [done|]. split; [|done]. unfold len. lia.
  - split; [|done]. split; [|done]. intros _. by apply process_batch_Raise.
Qed.

(** X24. One unreadable file fails the whole folder on the RAG path: when
    the selector sends a listed folder to the RAG path and processing one
    of its downloaded files raises, [ingest_folder] re-raises, the folder
    ends [FAILED] with its other columns untouched, and nothing at all has
    been written to the vector store, the chunks of the readable files
    included. *)
Theorem ingest_folder_fails_on_unreadable_file (r : readers) (w : Ingestion.world)
    (folder_id user_id : string) (folder : Ingestion.Folder) (cl : client)
    (files : list file) (unreadable : file) (content : bytes) :
  Ingestion.list_files w = Ok files ->
  Gemini.should_use_fast_path files = false ->
  unreadable ∈ files ->
  Ingestion.download w unreadable = Downloader.Downloaded content ->
  process_file_content r unreadable content = Raise ->
  Ingestion.ingest_folder (world_of r w) folder_id user_id (Some folder) cl
  = (Some (Ingestion.set_status FolderStatus.FAILED folder), cl, Ingestion.Raised).
Proof.
  intros Hlist Hslow Hin Hdown Hraise.
  assert (process_files_parallel r (Ingestion.downloaded_files (world_of r w) files)
          = Raise) as Hprocess.
  { rewrite process_files_parallel_in_order. unfold process_files_in_order.
    assert (process_batch r (Ingestion.downloaded_files (world_of r w) files)
            = Raise) as ->; [|done].
    apply process_batch_Raise. exists unreadable, content. split; [|done].
    unfold Ingestion.downloaded_files. apply list_elem_of_fmap.
    exists unreadable. split; [|done]. cbn. by rewrite Hdown. }
  unfold Ingestion.ingest_folder, Ingestion.pipeline.
  cbn [Ingestion.list_files world_of]. rewrite Hlist. unfold bindM at 1, lift at 1.
  assert (truthy_list files = true) as -> by (destruct files; [by inversion Hin|done]).
  cbn [negb]. rewrite Hslow. unfold bindM at 1, ret at 1.
  unfold Ingestion.rag_path, bindM at 1, lift at 1.
  change (Ingestion.process_files_parallel (world_of r w))
    with (process_files_parallel r).
  rewrite Hprocess. done.
Qed.

End ProcessingFacts.

(** ** Ingestion of a single file *)

Section SingleFileFacts.
Import Py Json Drive Gemini Chroma VectorStore Ingestion Processing SingleFile.

Lemma first_upload_ok_single (upload : file -> bytes -> result string)
    (file_dict : file) (content : bytes) :
  first_upload_ok (upload_files_to_gemini upload [(file_dict, Some content)]) = true <->
  exists uri, upload file_dict content = Ok uri /\ uri <> "".
Proof.
  cbn [upload_files_to_gemini first_upload_ok]. unfold truthy_uri, upload_with_semaphore.
  cbn [up_gemini_uri]. destruct (upload file_dict content) as [uri|].
  - rewrite negb_true_iff, String.eqb_neq. split; [by exists uri|].
    by intros (? & [= <-] & ?).
  - split; [done|]. by intros (? & ? & _).
Qed.

Local Ltac raised :=
  eexists _, _, _; split; [reflexivity|]; cbn; split; [by right|];
  split; [done|]; split; done.

Local Ltac rag_stored :=
  let s1 := fresh "s" in
  let s2 := fresh "s" in
  let Hadd := fresh "Hadd" in
  let Hstore := fresh "Hstore" in
  unfold bindM at 1;
  match goal with
  | |- context [on_snd (add_documents ?a ?b ?c ?d ?e ?f) ?s] =>
      destruct (on_snd (add_documents a b c d e f) s) as [s1 [[]|]] eqn:Hadd
  end; [|raised];
  apply on_snd_fst in Hadd; cbn [fst] in Hadd;
  unfold bindM at 1;
  match goal with
  | |- context [on_snd (store_file_manifest ?a ?b ?c ?d ?e) ?s] =>
      destruct (on_snd (store_file_manifest a b c d e) s)
        as [s2 [[]|]] eqn:Hstore
  end; [|raised];
  apply on_snd_fst in Hstore; rewrite Hadd in Hstore;
  eexists _, _, _; split; [reflexivity|]; cbn; split; [by left|];
  split; [done|]; split; [|done]; intros _; rewrite Hstore; cbn;
  split; [done|]; split; [done|]; split; [done|];
  eexists _, _; split; [done|]; split; [done|]; right;
  split; [done|]; split; [done|]; eexists _, _, _; split; [eassumption|done].

Local Ltac rag_path :=
  let Hproc := fresh "Hproc" in
  unfold bindM at 1, ret at 1; unfold bindM at 1, lift at 1;
  match goal with
  | |- context [process_file_content ?r ?f ?c] =>
      destruct (process_file_content r f c) as [[[[|? ?] ?] ?]|] eqn:Hproc
  end; cbn [truthy_list negb];
  [ eexists _, _, _; split; [reflexivity|]; cbn; split; [by right|];
    split; [done|]; split; [done|]; intros _ _; split; [done|]; split; [done|];
    eexists _, _, _, _; split; [done|]; split; [done|]; eassumption
  | rag_stored
  | raised ].

(** X25. How [ingest_single_file] ends for a folder row that exists. The
    row is left [READY] or [FAILED], never [INDEXING]; an exception always
    leaves it [FAILED]. [READY] means the call returned with a file count
    of 1 and either the fast path (the content is smaller than 10 MiB, the
    upload returned a non-empty handle, and the row holds that one upload)
    or the RAG path (processing gave at least one document, and the stored
    uploads are untouched). Unlike [ingest_folder] the call can also return
    normally with the row [FAILED]: that is when processing gave no
    document, and then nothing was written to the vector store. *)
Theorem ingest_single_file_outcome (w : world) (r : readers)
    (download_file : string -> string -> result bytes)
    (folder_id user_id file_id : string) (md : file_metadata)
    (folder : Folder) (cl : client) :
  exists folder' cl' ex,
    ingest_single_file w r download_file folder_id user_id file_id md
      (Some folder) cl = (Some folder', cl', ex) /\
    (status folder' = FolderStatus.READY \/ status folder' = FolderStatus.FAILED) /\
    (ex = Raised -> status folder' = FolderStatus.FAILED) /\
    (status folder' = FolderStatus.READY ->
     ex = Returned /\ file_count folder' = 1 /\
     indexed_at folder' = Some (utcnow w) /\
     exists content name,
       download_file file_id (default "" (md_mimeType md)) = Ok content /\
       md_name md = Some name /\
       let file_size := if truthy_list content then len content else 0 in
       let file_dict :=
         File file_id name (Some name) (default "" (md_mimeType md))
           (Some (JInt file_size)) in
       (index_mode folder' = Some IndexMode.gemini_files /\
        file_size < 10 * 1024 * 1024 /\
        exists uri,
          upload w file_dict content = Ok uri /\ uri <> "" /\
          gemini_files folder'
          = Some [Uploaded file_id name name (default "" (md_mimeType md))
                    (Some uri)]) \/
       (index_mode folder' = Some IndexMode.chroma /\
        gemini_files folder' = gemini_files folder /\
        exists documents metadatas ids,
          process_file_content r file_dict content = Ok (documents, metadatas, ids) /\
          documents <> [])) /\
    (ex = Returned -> status folder' = FolderStatus.FAILED ->
     cl' = cl /\ folder' = set_status FolderStatus.FAILED folder /\
     exists content name metadatas ids,
       download_file file_id (default "" (md_mimeType md)) = Ok content /\
       md_name md = Some name /\
       process_file_content r
         (File file_id name (Some name) (default "" (md_mimeType md))
            (Some (JInt (if truthy_list content then len content else 0))))
         content = Ok ([], metadatas, ids)).
Proof.
  unfold ingest_single_file, single_pipeline, bindM at 1, lift at 1.
  destruct (download_file file_id (default "" (md_mimeType md))) as [content|]
    eqn:Hdown; [|raised].
  unfold bindM at 1, lift at 1.
  destruct (md_name md) as [name|] eqn:Hname; [|raised].
  set (file_size := if truthy_list content then len content else 0).
  set (file_dict := File file_id name (Some name) (default "" (md_mimeType md))
                      (Some (JInt file_size))).
  destruct (file_size <? 10 * 1024 * 1024) eqn:Hsize; [|rag_path].
  destruct (first_upload_ok _) eqn:Hup; [|rag_path].
  apply first_upload_ok_single in Hup as (uri & Huri & Hne).
  unfold bindM at 1 2.
  destruct (on_snd (store_file_manifest _ _ _ _ _) _) as [s1 [[]|]] eqn:Hstore;
    [|raised].
  cbn. eexists _, _, _. split; [done|]. cbn. split; [by left|]. split; [done|].
  split; [|done]. intros _. split; [done|]. split; [done|]. split; [done|].
  exists content, name. split; [done|]. split; [done|]. left.
  split; [done|]. split; [fold file_size; lia|]. exists uri.
  fold file_size file_dict. split; [done|]. split; [done|].
  unfold upload_with_semaphore. by rewrite Huri.
Qed.

(** X26. A single file of 10 MiB or more is never uploaded to Gemini:
    whatever the upload would do, the run is the same. The bound is strict
    here, so a file of exactly 10 MiB, which the folder selector still
    accepts for the fast path, goes to the RAG path when ingested alone. *)
Theorem ingest_single_file_large_file_skips_upload (w : world) (r : readers)
    (download_file : string -> string -> result bytes)
    (upload' : file -> bytes -> result string)
    (folder_id user_id file_id : string) (md : file_metadata)
    (row : option Folder) (cl : client) (content : bytes) :
  download_file file_id (default "" (md_mimeType md)) = Ok content ->
  10 * 1024 * 1024 <= len content ->
  ingest_single_file (with_upload upload' w) r download_file folder_id user_id
    file_id md row cl
  = ingest_single_file w r download_file folder_id user_id file_id md row cl.
Proof.
  intros Hdown Hlarge. destruct row as [folder|]; [|done].
  assert ((len content <? 10 * 1024 * 1024) = false) as Hlt by lia.
  assert (truthy_list content = true) as Htruthy
    by (destruct content; [unfold len in Hlarge; cbn in Hlarge; lia|done]).
  unfold ingest_single_file, single_pipeline, bindM, lift.
  rewrite Hdown. cbv beta iota. rewrite Htruthy.
  destruct (md_name md) as [name|]; [|done].
  cbv beta iota. rewrite Hlt. done.
Qed.

End SingleFileFacts.

(** ** Drive listing *)

Section DriveListingFacts.
Import Py Json Drive DriveListing.

Lemma classify_spec (path : string) (raw_files : list raw_file) :
  forall acc : listing,
    classify path raw_files acc
    = (fst acc ++ map (kept_file path) (List.filter is_supported_file raw_files),
       snd acc ++ map (fun f => (raw_id f, path_of path (raw_name f)))
                    (List.filter is_folder raw_files)).
Proof.
  induction raw_files as [|f raw_files IH]; intros [files subfolders].
  - cbn. by rewrite !app_nil_r.
  - cbn [classify List.filter]. rewrite IH. unfold is_supported_file, is_folder.
    destruct (String.eqb (default "unknown" (raw_mimeType f)) FOLDER_MIME);
      cbn [negb andb fst snd map].
    + by rewrite <- app_assoc.
    + destruct (supported (default "unknown" (raw_mimeType f)));
        cbn [fst snd map]; [|done]. by rewrite <- app_assoc.
Qed.

Lemma classify_app (path : string) (a b : list raw_file) (acc : listing) :
  classify path (a ++ b) acc = classify path b (classify path a acc).
Proof.
  revert acc. induction a as [|f a IH]; intros acc; [done|].
  cbn [app classify]. by rewrite IH.
Qed.

Lemma list_pages_paged (api : string -> option string -> result page)
    (folder_id path : string) (pages : list page) :
  forall (page_token : option string) (acc : listing) (fuel : nat),
    paged api folder_id page_token pages ->
    (length pages <= fuel)%nat ->
    list_pages api fuel folder_id path page_token acc
    = Some (Ok (classify path
                  (concat (map (fun p => default [] (page_files p)) pages)) acc)).
Proof.
  induction pages as [|p pages IH]; intros page_token acc fuel Hpaged Hfuel;
    [done|].
  destruct Hpaged as [Hcall Hrest]. destruct fuel as [|fuel]; [cbn in Hfuel; lia|].
  cbn [list_pages map concat]. rewrite Hcall, classify_app.
  destruct (more_pages (nextPageToken p)).
  - apply IH; [done|]. cbn in Hfuel. lia.
  - subst pages. done.
Qed.

Lemma folder_not_supported : supported FOLDER_MIME = false.
Proof. reflexivity. Qed.

(** X27. [_list_single_folder] over a paginated answer. When the API
    answers a folder in pages, the call returns once it has as much fuel as
    there are pages, and what it returns is the one-pass classification of
    all entries in page order: the entries with a supported MIME type as
    files, each with the path [<path>/<name>] (just the name at the root),
    the entries of folder type as subfolders, everything else dropped. No
    returned file is a folder. An error of the first call is raised. *)
Theorem list_single_folder_classifies_pages
    (api : string -> option string -> result page) (folder_id path : string)
    (pages : list page) :
  paged api folder_id None pages ->
  exists files subfolders,
    (forall fuel, (length pages <= fuel)%nat ->
       _list_single_folder api fuel folder_id path = Some (Ok (files, subfolders))) /\
    files = map (kept_file path)
              (List.filter is_supported_file
                 (concat (map (fun p => default [] (page_files p)) pages))) /\
    subfolders = map (fun f => (raw_id f, path_of path (raw_name f)))
                   (List.filter is_folder
                      (concat (map (fun p => default [] (page_files p)) pages))) /\
    Forall (fun f => supported (file_mimeType f) = true /\
                     file_mimeType f <> FOLDER_MIME /\
                     file_path f = Some (path_of path (file_name f))) files.
Proof.
  intros Hpaged. eexists _, _. split; [|split; [done|split; [done|]]].
  - intros fuel Hfuel. unfold _list_single_folder.
    rewrite (list_pages_paged api folder_id path pages) by done.
    by rewrite classify_spec.
  - apply Forall_fmap, Forall_forall. intros f Hf%list_elem_of_In.
    apply filter_In in Hf as [_ Hf]. unfold is_supported_file, is_folder in Hf.
    apply andb_true_iff in Hf as [Hfolder Hsupported].
    cbn. split; [done|]. split; [|done].
    apply negb_true_iff, String.eqb_neq in Hfolder. done.
Qed.

Lemma merge_spec (results : list (result listing)) :
  forall (all_files : list file) (subfolders : list (string * string)),
    (forall f, f ∈ fst (merge results all_files subfolders) <->
       f ∈ all_files \/
       exists fs ss, Ok (fs, ss) ∈ results /\ f ∈ fs) /\
    (forall s, s ∈ snd (merge results all_files subfolders) <->
       s ∈ subfolders \/
       exists fs ss, Ok (fs, ss) ∈ results /\ s ∈ ss).
Proof.
  induction results as [|[[fs ss]|] results IH]; intros all_files subfolders;
    cbn [merge].
  - split; intros x; (split; [by left|]); intros [?|(? & ? & Hin & _)]; try done;
      by inversion Hin.
  - destruct (IH (all_files ++ fs) (subfolders ++ ss)) as [Hf Hs].
    split; intros x; [rewrite Hf|rewrite Hs]; rewrite elem_of_app; split.
    + intros [[?|?]|(fs' & ss' & Hin & ?)]; [by left| |].
      * right. exists fs, ss. split; [by left|done].
      * right. exists fs', ss'. split; [by right|done].
    + intros [?|(fs' & ss' & Hin & ?)]; [by left; left|].
      apply elem_of_cons in Hin as [[= -> ->]|Hin]; [by left; right|].
      right. by exists fs', ss'.
    + intros [[?|?]|(fs' & ss' & Hin & ?)]; [by left| |].
      * right. exists fs, ss. split; [by left|done].
      * right. exists fs', ss'. split; [by right|done].
    + intros [?|(fs' & ss' & Hin & ?)]; [by left; left|].
      apply elem_of_cons in Hin as [[= -> ->]|Hin]; [by left; right|].
      right. by exists fs', ss'.
  - destruct (IH all_files subfolders) as [Hf Hs].
    split; intros x; [rewrite Hf|rewrite Hs]; split.
    + intros [?|(fs' & ss' & Hin & ?)]; [by left|].
      right. exists fs', ss'. split; [by right|done].
    + intros [?|(fs' & ss' & Hin & ?)]; [by left|].
      apply elem_of_cons in Hin as [[=]|Hin]. right. by exists fs', ss'.
    + intros [?|(fs' & ss' & Hin & ?)]; [by left|].
      right. exists fs', ss'. split; [by right|done].
    + intros [?|(fs' & ss' & Hin & ?)]; [by left|].
      apply elem_of_cons in Hin as [[=]|Hin]. right. by exists fs', ss'.
Qed.

Section Walk.
Variable single : string -> string -> result listing.
Variable root : string.

Lemma walk_fuel_mono (fuel : nat) :
  forall (fuel' : nat) subfolders all_files res,
    walk single fuel subfolders all_files = Some res ->
    (fuel <= fuel')%nat ->
    walk single fuel' subfolders all_files = Some res.
Proof.
  induction fuel as [|fuel IH]; intros fuel' subfolders all_files res Hrun Hle;
    [done|].
  destruct fuel' as [|fuel']; [lia|]. cbn [walk] in *.
  destruct (truthy_list subfolders); [|done].
  destruct (merge _ _ _) as [all1 subs1]. apply IH; [done|lia].
Qed.

Lemma walk_sound (fuel : nat) :
  forall subfolders all_files res,
    walk single fuel subfolders all_files = Some res ->
    (forall s, s ∈ subfolders -> reachable single root s) ->
    (forall f, f ∈ all_files -> listed single root f) ->
    forall f, f ∈ res -> listed single root f.
Proof.
  induction fuel as [|fuel IH]; intros subfolders all_files res Hrun Hq Hall;
    [done|].
  cbn [walk] in Hrun. destruct (truthy_list subfolders).
  2:{ injection Hrun as <-. done. }
  destruct (merge _ _ _) as [all1 subs1] eqn:Hmerge.
  destruct (merge_spec (map (fun sub => single (fst sub) (snd sub))
                          (take 10 subfolders)) all_files (drop 10 subfolders))
    as [Hf Hs].
  rewrite Hmerge in Hf, Hs. cbn [fst snd] in Hf, Hs.
  assert (forall fs ss,
            Ok (fs, ss) ∈ map (fun sub => single (fst sub) (snd sub))
                            (take 10 subfolders) ->
            exists x, reachable single root x /\
                      single (fst x) (snd x) = Ok (fs, ss)) as Hbatch.
  { intros fs ss (x & Hx & Hin)%list_elem_of_fmap. exists x. split; [|done].
    apply Hq. rewrite <- (take_drop 10 subfolders). apply elem_of_app. by left. }
  eapply IH; [exact Hrun| |].
  - intros s [Hin|(fs & ss & Hin & Hss)]%Hs.
    + apply Hq. rewrite <- (take_drop 10 subfolders). apply elem_of_app. by right.
    + destruct (Hbatch fs ss Hin) as (x & Hx & Hsingle).
      by eapply reachable_sub.
  - intros f [Hin|(fs & ss & Hin & Hfs)]%Hf; [by apply Hall|].
    destruct (Hbatch fs ss Hin) as (x & Hx & Hsingle). by exists x, fs, ss.
Qed.

Lemma walk_complete (fuel : nat) :
  forall subfolders all_files res (seen : list (string * string)),
    walk single fuel subfolders all_files = Some res ->
    settled single seen subfolders all_files ->
    exists done',
      (forall x, x ∈ seen \/ x ∈ subfolders -> x ∈ done') /\
      (forall f, f ∈ all_files -> f ∈ res) /\
      settled single done' [] res.
Proof.
  induction fuel as [|fuel IH]; intros subfolders all_files res seen Hrun Hinv;
    [done|].
  cbn [walk] in Hrun. destruct (truthy_list subfolders) eqn:Hq.
  2:{ injection Hrun as <-. destruct subfolders; [|done].
      exists seen. split; [|done]. intros x [?|Hx]; [done|by inversion Hx]. }
  destruct (merge _ _ _) as [all1 subs1] eqn:Hmerge.
  destruct (merge_spec (map (fun sub => single (fst sub) (snd sub))
                          (take 10 subfolders)) all_files (drop 10 subfolders))
    as [Hf Hs].
  rewrite Hmerge in Hf, Hs. cbn [fst snd] in Hf, Hs.
  assert (forall x, x ∈ subfolders <->
                    x ∈ take 10 subfolders \/ x ∈ drop 10 subfolders) as Hsplit.
  { intros x. by rewrite <- elem_of_app, take_drop. }
  destruct (IH subs1 all1 res (seen ++ take 10 subfolders) Hrun)
    as (done' & Hsub & Hfiles & Hsettled).
  { intros x fs ss [Hx|Hx]%elem_of_app Hsingle.
    - destruct (Hinv x fs ss Hx Hsingle) as [Hfs Hss]. split.
      + intros f Hfin. apply Hf. left. by apply Hfs.
      + intros s Hsin. destruct (Hss s Hsin) as [?|[?|?]%Hsplit].
        * left. apply elem_of_app. by left.
        * left. apply elem_of_app. by right.
        * right. apply Hs. by left.
    - assert (Ok (fs, ss) ∈ map (fun sub => single (fst sub) (snd sub))
                              (take 10 subfolders)) as Hin.
      { apply list_elem_of_fmap. by exists x. }
      split.
      + intros f Hfin. apply Hf. right. by exists fs, ss.
      + intros s Hsin. right. apply Hs. right. by exists fs, ss. }
  exists done'. split; [|split; [|done]].
  - intros x [Hx|[Hx|Hx]%Hsplit]; apply Hsub.
    + left. apply elem_of_app. by left.
    + left. apply elem_of_app. by right.
    + right. apply Hs. by left.
  - intros f Hfin. apply Hfiles, Hf. by left.
Qed.

Lemma merge_weights (batch : list (string * string)) (nsb : list nat) :
  Forall2 (weighs single) batch nsb ->
  forall (all_files : list file) (subfolders : list (string * string))
         (nsq : list nat),
    Forall2 (weighs single) subfolders nsq ->
    exists ns',
      Forall2 (weighs single)
        (snd (merge (map (fun sub => single (fst sub) (snd sub)) batch)
                all_files subfolders)) ns' /\
      (list_sum ns' + length batch <= list_sum nsq + list_sum nsb)%nat.
Proof.
  induction 1 as [|x n batch nsb Hx _ IH]; intros all_files subfolders nsq Hq.
  - exists nsq. split; [done|]. cbn. lia.
  - cbn [map merge]. inversion Hx as [? Hraise|? fs ss ms Hok Hss]; subst.
    + rewrite Hraise. destruct (IH all_files subfolders nsq Hq) as (ns' & H1 & H2).
      exists ns'. split; [done|]. cbn [length].
      change (list_sum (1%nat :: nsb)) with (1 + list_sum nsb)%nat. lia.
    + rewrite Hok.
      destruct (IH (all_files ++ fs) (subfolders ++ ss) (nsq ++ ms))
        as (ns' & H1 & H2); [by apply Forall2_app|].
      exists ns'. split; [done|]. rewrite list_sum_app in H2. cbn [length].
      change (list_sum (S (list_sum ms) :: nsb))
        with (S (list_sum ms) + list_sum nsb)%nat. lia.
Qed.

Lemma walk_terminates (fuel : nat) :
  forall (subfolders : list (string * string)) (ns : list nat)
         (all_files : list file),
    Forall2 (weighs single) subfolders ns ->
    (list_sum ns < fuel)%nat ->
    exists res, walk single fuel subfolders all_files = Some res.
Proof.
  induction fuel as [|fuel IH]; intros subfolders ns all_files Hw Hfuel; [lia|].
  cbn [walk]. destruct (truthy_list subfolders) eqn:Hq; [|by eexists].
  assert (Forall2 (weighs single) (take 10 subfolders) (take 10 ns)) as Hbatch
    by (by apply Forall2_take).
  assert (Forall2 (weighs single) (drop 10 subfolders) (drop 10 ns)) as Hrest
    by (by apply Forall2_drop).
  destruct (merge_weights _ _ Hbatch all_files _ _ Hrest) as (ns' & Hw' & Hsum).
  destruct (merge _ _ _) as [all1 subs1]. cbn [snd] in Hw'.
  apply (IH subs1 ns' all1 Hw').
  assert (list_sum ns = list_sum (take 10 ns) + list_sum (drop 10 ns))%nat as Hns
    by (by rewrite <- list_sum_app, take_drop).
  assert (0 < length (take 10 subfolders))%nat
    by (destruct subfolders; [done|cbn; lia]).
  lia.
Qed.

End Walk.

(** X28. [list_files]. An error of the root listing is raised; without
    [recursive] the answer is the root's files, for any fuel. With
    [recursive], whenever the walk returns, the files are exactly those of
    the listings of the folders it can reach from the root through
    listings that returned: a subfolder whose listing raises is passed over
    with everything below it. And when the folders below the root are
    finitely many, the walk returns, with one answer for all fuel from the
    number of listings on. *)
Theorem list_files_walks_reachable_folders
    (single : string -> string -> result listing) (root : string) :
  (single root "" = Raise ->
   forall fuel recursive, list_files single fuel root recursive = Some Raise) /\
  (forall files subfolders fuel,
     single root "" = Ok (files, subfolders) ->
     list_files single fuel root false = Some (Ok files)) /\
  (forall fuel all_files,
     list_files single fuel root true = Some (Ok all_files) ->
     forall f, f ∈ all_files <->
       exists x fs ss,
         reachable single root x /\ single (fst x) (snd x) = Ok (fs, ss) /\
         f ∈ fs) /\
  (forall n, weighs single (root, "") n -> single root "" <> Raise ->
     exists all_files,
       forall fuel, (n <= fuel)%nat ->
         list_files single fuel root true = Some (Ok all_files)).
Proof.
  split; [|split; [|split]].
  - intros Hraise fuel recursive. unfold list_files. by rewrite Hraise.
  - intros files subfolders fuel Hroot. unfold list_files. by rewrite Hroot.
  - intros fuel all_files. unfold list_files.
    destruct (single root "") as [[files subfolders]|] eqn:Hroot; [|done].
    cbn [app andb].
    assert (forall f, f ∈ files ->
              exists x fs ss,
                reachable single root x /\ single (fst x) (snd x) = Ok (fs, ss) /\
                f ∈ fs) as Hrootfiles.
    { intros f Hf. exists (root, ""), files, subfolders.
      split; [constructor|]. done. }
    destruct (truthy_list subfolders) eqn:Hsubs.
    + destruct (walk single fuel subfolders files) as [res|] eqn:Hwalk; [|done].
      cbn [option_map]. intros [= <-] f. split.
      * eapply (walk_sound single root); [exact Hwalk| |exact Hrootfiles].
        intros s Hs.
        eapply (reachable_sub single root (root, "")); [constructor|exact Hroot|exact Hs].
      * intros (x & fs & ss & Hreach & Hsingle & Hf).
        destruct (walk_complete single fuel subfolders files res [] Hwalk)
          as (done' & Hsub & Hfiles & Hsettled).
        { intros ? ? ? Hin. by inversion Hin. }
        assert (x = (root, "") \/ x ∈ done') as [->|Hx].
        { clear Hsingle Hf. induction Hreach as [|parent sub fs' ss' _ IH Hp Hin];
            [by left|]. right. destruct IH as [->|Hparent].
          - apply Hsub. right. cbn [fst snd] in Hp. rewrite Hroot in Hp.
            by injection Hp as _ <-.
          - destruct (Hsettled parent fs' ss' Hparent Hp) as [_ Hss].
            destruct (Hss sub Hin) as [?|Hnil]; [done|by inversion Hnil]. }
        -- cbn [fst snd] in Hsingle. rewrite Hroot in Hsingle.
           injection Hsingle as <- _. by apply Hfiles.
        -- by apply (Hsettled x fs ss Hx Hsingle).
    + intros [= <-] f. split; [apply Hrootfiles|].
      intros (x & fs & ss & Hreach & Hsingle & Hf).
      assert (x = (root, "")) as ->.
      { clear Hsingle Hf. induction Hreach as [|parent sub fs' ss' _ IH Hp Hin];
          [done|]. subst parent. cbn [fst snd] in Hp. rewrite Hroot in Hp.
        injection Hp as _ <-. destruct subfolders; [by inversion Hin|done]. }
      cbn [fst snd] in Hsingle. rewrite Hroot in Hsingle. by injection Hsingle as <- _.
  - intros n Hw Hroot. unfold list_files.
    inversion Hw as [? Hraise|? files subfolders ns Hok Hsubs]; subst; [done|].
    cbn [fst snd] in Hok. rewrite Hok. cbn [app andb].
    destruct (truthy_list subfolders); [|by eexists].
    destruct (walk_terminates single (S (list_sum ns)) subfolders ns files Hsubs
                ltac:(lia)) as [res Hres].
    exists res. intros fuel Hfuel.
    by rewrite (walk_fuel_mono single _ fuel _ _ _ Hres Hfuel).
Qed.

End DriveListingFacts.

(** ** Folder ingestion on the RAG path, end to end *)

Section RagIngestion.
Import Py Json Drive Gemini Chroma VectorStore VectorStoreStats Ingestion Processing.

Lemma downloaded_at_most_files (w : world) (files : list file) :
  (length (List.filter has_content (downloaded_files w files)) <= length files)%nat.
Proof.
  unfold downloaded_files. induction files as [|f files IH]; [done|].
  cbn [map List.filter length].
  destruct (has_content _); cbn [length]; lia.
Qed.

(** X29. A RAG-path ingestion that goes through. When the selector sends
    a listed, non-empty folder to the RAG path, every downloaded file can
    be processed, the vector store accepts the calls and the manifest
    survives JSON encoding, [ingest_folder] returns with the folder
    [READY] in mode [chroma], its file count the number of files that gave
    documents (at most the number of files listed) and its stored uploads
    untouched. The folder's collection then holds the processed chunks as
    one upsert plus the manifest, and the manifest read back is the
    listing. *)
Theorem ingest_folder_rag_path_indexes (r : readers) (w : world)
    (folder_id user_id : string) (folder : Folder) (cl : client)
    (files : list file) (documents : list string) (metadatas : list metadata)
    (ids : list string) (indexed_count : Z) :
  list_files w = Ok files ->
  files <> [] ->
  should_use_fast_path files = false ->
  process_files_parallel r (downloaded_files w files)
  = Ok (documents, metadatas, ids, indexed_count) ->
  healthy (chroma w) OpGetOrCreate = true ->
  healthy (chroma w) OpUpsert = true ->
  healthy (chroma w) OpGet = true ->
  json_loads (json_codec w)
    (json_dumps (json_codec w) (JList (map file_manifest_entry files)))
  = Ok (JList (map file_manifest_entry files)) ->
  exists cl',
    ingest_folder (world_of r w) folder_id user_id (Some folder) cl
    = (Some (mkFolder FolderStatus.READY (Some IndexMode.chroma) indexed_count
               (Some (utcnow w)) (gemini_files folder)), cl', Returned) /\
    0 <= indexed_count <= len files /\
    (exists summary,
       contents cl' (_get_collection_name user_id folder_id)
       = <[manifest_id folder_id :=
             Record_ summary
               (manifest_metadata
                  (json_dumps (json_codec w) (JList (map file_manifest_entry files))))]>
           (upsert_records (contents cl (_get_collection_name user_id folder_id))
              documents metadatas ids)) /\
    (forall other, other <> _get_collection_name user_id folder_id ->
       contents cl' other = contents cl other) /\
    get_file_manifest (chroma w) (json_codec w) user_id folder_id cl'
    = (cl', Ok (JList (map file_manifest_entry files))).
Proof.
  intros Hlist Hne Hslow Hprocess Hgc Hup Hget Hjson.
  assert (length metadatas = length documents /\ length ids = length documents /\
          0 <= indexed_count <= len files) as (Hm & Hi & Hcount).
  { revert Hprocess. rewrite process_files_parallel_in_order.
    unfold process_files_in_order.
    destruct (process_batch r (downloaded_files w files)) as [results|] eqn:Hbatch;
      [|done]. cbn [bind].
    destruct (process_batch_Ok r _ results Hbatch) as [Hall Hle].
    destruct (fold_collect_spec results [] [] [] 0 Hall eq_refl eq_refl
                ltac:(done) ltac:(done))
      as (d & m & i & n & -> & Hm & Hi & -> & _).
    intros [= <- <- <- <-]. split; [done|]. split; [done|].
    pose proof (downloaded_at_most_files w files). unfold len. lia. }
  assert (exists cl1,
            (if truthy_list documents
             then add_documents (chroma w) user_id folder_id documents metadatas ids
             else ret tt) cl = (cl1, Ok tt) /\
            contents cl1 (_get_collection_name user_id folder_id)
            = upsert_records (contents cl (_get_collection_name user_id folder_id))
                documents metadatas ids /\
            forall other, other <> _get_collection_name user_id folder_id ->
              contents cl1 other = contents cl other) as (cl1 & Hadd & Hc1 & Ho1).
  { destruct documents as [|d documents].
    - exists cl. split; [done|]. split; [|done]. by destruct metadatas.
    - cbn [truthy_list].
      apply (add_documents_run (chroma w) cl user_id folder_id); done. }
  destruct (store_file_manifest_run (chroma w) (json_codec w) cl1 user_id folder_id
              (map file_manifest_entry files) (map file_name (take 50 files))
              Hgc Hup) as (cl2 & Hstore & Hc2 & Hpresent & Ho2).
  { rewrite <- fmap_take. apply names_of_listed. }
  exists cl2. split; [|split; [done|split; [|split]]].
  - unfold ingest_folder, pipeline. cbn [list_files world_of]. rewrite Hlist.
    unfold bindM at 1, lift at 1.
    assert (truthy_list files = true) as -> by (by destruct files).
    cbn [negb]. rewrite Hslow. unfold bindM at 1, ret at 1.
    unfold rag_path, bindM at 1, lift at 1.
    change (Ingestion.process_files_parallel (world_of r w))
      with (process_files_parallel r).
    change (downloaded_files (world_of r w) files) with (downloaded_files w files).
    rewrite Hprocess. cbn [chroma json_codec utcnow world_of].
    unfold bindM at 1.
    assert ((if truthy_list documents
             then on_snd (add_documents (chroma w) user_id folder_id documents
                            metadatas ids)
             else ret tt) (set_status FolderStatus.INDEXING folder, cl)
            = ((set_status FolderStatus.INDEXING folder, cl1), Ok tt)) as ->.
    { destruct (truthy_list documents).
      - unfold on_snd. cbn [fst snd]. by rewrite Hadd.
      - by injection Hadd as <-. }
    unfold bindM at 1, on_snd at 1. cbn [fst snd]. rewrite Hstore. done.
  - eexists. by rewrite Hc2, Hc1.
  - intros other Hother. by rewrite Ho2, Ho1.
  - rewrite get_file_manifest_run by done. rewrite ensure_idemp by done.
    f_equal. f_equal. unfold manifest_answer.
    rewrite Hget, Hc2, lookup_insert_eq. cbn [rec_metadata].
    destruct (manifest_metadata_lookup
                (json_dumps (json_codec w) (JList (map file_manifest_entry files))))
      as (-> & _ & Hnonempty).
    destruct (decide (manifest_metadata _ = ∅)); [done|].
    cbn. by rewrite Hjson.
Qed.

End RagIngestion.

(** ** Instances *)

Lemma add_documents_is_one_upsert_witness :
  exists cl',
    VectorStore.add_documents Examples.working_server "user-1" "folder-1"
      MoreExamples.three_documents MoreExamples.three_metadatas
      MoreExamples.three_ids ∅ = (cl', Py.Ok tt).
Proof.
  destruct (add_documents_is_one_upsert Examples.working_server ∅
              "user-1" "folder-1" MoreExamples.three_documents
              MoreExamples.three_metadatas MoreExamples.three_ids
              eq_refl eq_refl eq_refl eq_refl) as (cl' & Hrun & _).
  exists cl'. exact Hrun.
Defined.

Lemma add_documents_then_lookup_witness :
  exists cl',
    VectorStore.add_documents Examples.working_server "user-1" "folder-1"
      MoreExamples.three_documents MoreExamples.three_metadatas
      MoreExamples.three_ids ∅ = (cl', Py.Ok tt) /\
    VectorStoreStats.contents cl'
      (VectorStore._get_collection_name "user-1" "folder-1") !! "b"
    = Some (Chroma.Record_ "beta" Examples.chunk_metadata).
Proof.
  destruct (add_documents_then_lookup Examples.working_server ∅
              "user-1" "folder-1" MoreExamples.three_documents
              MoreExamples.three_metadatas MoreExamples.three_ids
              eq_refl eq_refl eq_refl eq_refl)
    as (cl' & Hrun & Hlookup & _).
  - refine (bool_decide_unpack _ _); vm_compute; exact I.
  - exists cl'. split; [exact Hrun|].
    apply (Hlookup 1%nat); reflexivity.
Defined.

Lemma store_file_manifest_last_write_wins_witness :
  exists cl1 cl2,
    VectorStore.store_file_manifest Examples.working_server
      JsonText.reference_codec "user-1" "folder-1" Examples.example_files ∅
      = (cl1, Py.Ok tt) /\
    VectorStore.store_file_manifest Examples.working_server
      JsonText.reference_codec "user-1" "folder-1" MoreExamples.two_descriptors cl1
      = (cl2, Py.Ok tt) /\
    VectorStore.get_file_manifest Examples.working_server
      JsonText.reference_codec "user-1" "folder-1" cl2
      = (cl2, Py.Ok (Json.JList MoreExamples.two_descriptors)).
Proof.
  destruct (store_file_manifest_last_write_wins Examples.working_server
              JsonText.reference_codec ∅ "user-1" "folder-1"
              Examples.example_files MoreExamples.two_descriptors
              eq_refl eq_refl eq_refl)
    as (cl1 & cl2 & H1 & H2 & H3 & _).
  - apply Forall_fmap, Forall_forall. intros i _. eexists. reflexivity.
  - repeat constructor; eexists; reflexivity.
  - vm_compute. reflexivity.
  - exists cl1, cl2. split; [exact H1|]. split; [exact H2|exact H3].
Defined.

Lemma get_collection_stats_counts_witness :
  snd (VectorStoreStats.get_collection_stats Examples.working_server
         JsonText.reference_codec "user-1" "folder-1" ∅)
  = Py.Ok (VectorStoreStats.Stats
             (Z.max 0 (Z.of_nat (size (VectorStoreStats.contents ∅
                                         (VectorStore._get_collection_name
                                            "user-1" "folder-1"))) - 1))
             0 (Json.JList [])).
Proof.
  apply (get_collection_stats_counts Examples.working_server
           JsonText.reference_codec ∅ "user-1" "folder-1" eq_refl eq_refl).
  reflexivity.
Defined.


Lemma rag_citations_are_deduplicated_witness :
  NoDup (map Agent.cit_file_name
           (default [] (Agent.citations
                          (Agent.Reply Agent.APOLOGY
                             (Some [Examples.scripted_citation]))))).
Proof.
  refine (proj1 (rag_citations_are_deduplicated Examples.scripted_world
                   "user-1" "folder-1" "What is the budget?" None ∅ _ _
                   (Agent.Reply Agent.APOLOGY (Some [Examples.scripted_citation]))
                   _)).
  vm_compute. reflexivity.
Defined.



Lemma list_files_tool_shows_stored_listing_witness :
  exists cl1,
    VectorStore.store_file_manifest Examples.fallback_server
      JsonText.reference_codec "user-1" "folder-1"
      (map Ingestion.file_manifest_entry Examples.three_files) ∅ = (cl1, Py.Ok tt) /\
    Agent._execute_tool Examples.scripted_world "user-1" "folder-1"
      MoreExamples.list_call cl1
    = (cl1, Py.Ok (Agent.Files (map AgentFacts.listed_entry Examples.three_files)
                     (Py.len Examples.three_files))).
Proof.
  apply (list_files_tool_shows_stored_listing Examples.scripted_world
           "user-1" "folder-1" Examples.three_files ∅ MoreExamples.list_call).
  - reflexivity.
  - reflexivity.
  - reflexivity.
  - vm_compute. reflexivity.
  - reflexivity.
Defined.

Lemma process_file_content_rows_witness :
  exists documents metadatas ids,
    Processing.process_file_content MoreExamples.plain_readers
      (Examples.text_file "a.txt") MoreExamples.hi
    = Py.Ok (documents, metadatas, ids) /\
    length metadatas = length documents /\
    length ids = length documents /\
    NoDup ids.
Proof.
  destruct (process_file_content_rows MoreExamples.plain_readers
              (Examples.text_file "a.txt") MoreExamples.hi
              (Chunker.text_of "hi"))
    as (documents & metadatas & ids & Hrun & Hm & Hi & Hnd & _).
  - discriminate.
  - reflexivity.
  - exists documents, metadatas, ids. repeat split; assumption.
Defined.


Lemma process_pdf_content_rows_witness :
  exists documents metadatas ids,
    Processing.process_pdf_content MoreExamples.plain_readers
      MoreExamples.pdf_file MoreExamples.hi
    = Py.Ok (documents, metadatas, ids) /\
    length metadatas = length documents /\
    length ids = length documents /\
    NoDup ids.
Proof.
  destruct (process_pdf_content_rows MoreExamples.plain_readers
              MoreExamples.pdf_file MoreExamples.hi
              [Chunker.text_of "Page one."; Chunker.text_of "   ";
               Chunker.text_of "Page three."] eq_refl)
    as (documents & metadatas & ids & Hrun & Hm & Hi & Hnd & _).
  exists documents, metadatas, ids. repeat split; assumption.
Defined.

Lemma ingest_folder_fails_on_unreadable_file_witness :
  Ingestion.ingest_folder
    (Processing.world_of MoreExamples.plain_readers
       (Examples.sample_world (Py.Ok [MoreExamples.big_text; MoreExamples.big_docx])
          (fun _ => true)))
    "folder-1" "user-1" (Some Examples.pending_folder) ∅
  = (Some (Ingestion.set_status FolderStatus.FAILED Examples.pending_folder), ∅,
     Ingestion.Raised).
Proof.
  apply (ingest_folder_fails_on_unreadable_file MoreExamples.plain_readers
           (Examples.sample_world
              (Py.Ok [MoreExamples.big_text; MoreExamples.big_docx]) (fun _ => true))
           "folder-1" "user-1" Examples.pending_folder ∅
           [MoreExamples.big_text; MoreExamples.big_docx]
           MoreExamples.big_docx MoreExamples.hi).
  - reflexivity.
  - vm_compute. reflexivity.
  - do 2 constructor.
  - reflexivity.
  - reflexivity.
Defined.

Lemma ingest_single_file_large_file_skips_upload_witness :
  SingleFile.ingest_single_file
    (SingleFile.with_upload (fun _ _ => Py.Ok "https://example.invalid/files/x")
       (Examples.sample_world (Py.Ok []) (fun _ => false)))
    MoreExamples.plain_readers (fun _ _ => Py.Ok MoreExamples.ten_mebibytes)
    "folder-1" "user-1" "id-big" MoreExamples.single_metadata
    (Some Examples.pending_folder) ∅
  = SingleFile.ingest_single_file
      (Examples.sample_world (Py.Ok []) (fun _ => false))
      MoreExamples.plain_readers (fun _ _ => Py.Ok MoreExamples.ten_mebibytes)
      "folder-1" "user-1" "id-big" MoreExamples.single_metadata
      (Some Examples.pending_folder) ∅.
Proof.
  apply (ingest_single_file_large_file_skips_upload
           (Examples.sample_world (Py.Ok []) (fun _ => false))
           MoreExamples.plain_readers (fun _ _ => Py.Ok MoreExamples.ten_mebibytes)
           (fun _ _ => Py.Ok "https://example.invalid/files/x")
           "folder-1" "user-1" "id-big" MoreExamples.single_metadata
           (Some Examples.pending_folder) ∅ MoreExamples.ten_mebibytes).
  - reflexivity.
  - unfold Py.len, MoreExamples.ten_mebibytes. rewrite length_replicate.
    rewrite Z2Nat.id; [reflexivity|discriminate].
Defined.

Lemma list_single_folder_classifies_pages_witness :
  DriveListing._list_single_folder MoreExamples.two_page_api 2 "root" "docs"
  = Some (Py.Ok
            ([Drive.File "f1" "notes.txt" (Some "docs/notes.txt") "text/plain"
                (Some (Json.JStr "12"));
              Drive.File "f3" "paper.pdf" (Some "docs/paper.pdf") "application/pdf"
                (Some (Json.JStr "2048"))],
             [("d1", "docs/archive")])).
Proof.
  destruct (list_single_folder_classifies_pages MoreExamples.two_page_api
              "root" "docs" [MoreExamples.first_page; MoreExamples.second_page])
    as (files & subfolders & Hrun & Hfiles & Hsubfolders & _).
  - split; [reflexivity|]. split; reflexivity.
  - rewrite (Hrun 2%nat (le_n 2)), Hfiles, Hsubfolders. reflexivity.
Defined.

Lemma ingest_folder_rag_path_indexes_witness :
  exists cl',
    Ingestion.ingest_folder
      (Processing.world_of MoreExamples.plain_readers
         (Examples.sample_world (Py.Ok [MoreExamples.big_text]) (fun _ => true)))
      "folder-1" "user-1" (Some Examples.pending_folder) ∅
    = (Some (Ingestion.mkFolder FolderStatus.READY (Some IndexMode.chroma) 1
               (Some 0%nat) None), cl', Ingestion.Returned) /\
    VectorStore.get_file_manifest Examples.working_server JsonText.reference_codec
      "user-1" "folder-1" cl'
    = (cl', Py.Ok (Json.JList (map Ingestion.file_manifest_entry
                                 [MoreExamples.big_text]))).
Proof.
  destruct (ingest_folder_rag_path_indexes MoreExamples.plain_readers
              (Examples.sample_world (Py.Ok [MoreExamples.big_text]) (fun _ => true))
              "folder-1" "user-1" Examples.pending_folder ∅
              [MoreExamples.big_text]
              ["hi"]
              [Processing.chunk_metadata MoreExamples.big_text "text/plain" 0 1]
              ["id-big_chunk_0"] 1)
    as (cl' & Hrun & _ & _ & _ & Hmanifest).
  - reflexivity.
  - discriminate.
  - vm_compute. reflexivity.
  - vm_compute. reflexivity.
  - reflexivity.
  - reflexivity.
  - reflexivity.
  - vm_compute. reflexivity.
  - exists cl'. split; [exact Hrun|exact Hmanifest].
Defined.
